(** * BuscaBoleto: remote document retrieval engine

    A shallow embedding of the matching, grouping, naming and request
    construction code of [ftp_client.py], [interface.py] and
    [nfse_client.py], with the properties the design document states
    about them.

    Conventions of the model.
    - Text is [String.string]; a character is a code point below 256.
      On that range the regular expression class [\d] accepts exactly
      ['0'..'9'], while [str.isdigit] also accepts the three superscript
      digits U+00B2, U+00B3 and U+00B9.
    - A Python [dict] is an association list in insertion order: assigning
      to a key that is present replaces the value in place, assigning to a
      new key appends.
    - [list.sort] is a stable sort; it is modelled by a stable insertion
      sort (the result of a stable sort is determined by the order alone).
    - A Python [set] of strings is a duplicate-free list in insertion
      order; the order matters to [sorted] only among elements of equal
      key.
    - A cell of the result table is read back through the conversion of
      [tkinter.ttk]: a text that reads as an integer comes back as an
      [int].
    - A write to the disk is not atomic: a file is created first, and
      stays when the writing that follows fails.
    - A naive [datetime] is the record of its seven fields, compared
      lexicographically.
    - What the server, the disk or a library answers to a call is a
      parameter of the function that makes the call: the outcome of a
      connection step, the listing of a directory, the outcome of a
      download, the decoders of the standard library. *)

From Stdlib Require Import List Bool Arith NArith ZArith Lia Zify Ascii String.
From Stdlib.Strings Require Byte.
From Stdlib Require Import Permutation Sorted DecimalString DecimalNat.
Import ListNotations.

Local Open Scope string_scope.
Local Open Scope list_scope.
Local Open Scope nat_scope.

(* ================================================================= *)
(** ** Text primitives *)

Module Texto.

(** [re.sub(r'[^\d]', '', s)] keeps the characters of class [\d]. *)
Definition re_d (c : ascii) : bool :=
  let n := nat_of_ascii c in (48 <=? n) && (n <=? 57).

(** [str.isdigit] on one character. *)
Definition str_isdigit (c : ascii) : bool :=
  let n := nat_of_ascii c in
  re_d c || (n =? 178) || (n =? 179) || (n =? 185).

Fixpoint filtra (p : ascii -> bool) (s : string) : string :=
  match s with
  | EmptyString => EmptyString
  | String c s' => if p c then String c (filtra p s') else filtra p s'
  end.

(** [re.sub(r'[^\d]', '', s)] *)
Definition so_digitos (s : string) : string := filtra re_d s.

(** [''.join(filter(str.isdigit, s))] *)
Definition so_isdigit (s : string) : string := filtra str_isdigit s.

(** [sub in s] on strings. *)
Fixpoint contem (sub s : string) : bool :=
  prefix sub s ||
  match s with
  | EmptyString => false
  | String _ s' => contem sub s'
  end.

(** [s[a:b]] for [0 <= a <= b]. *)
Definition fatia (a b : nat) (s : string) : string := substring a (b - a) s.

Fixpoint zeros (n : nat) : string :=
  match n with
  | O => EmptyString
  | S n' => String "0" (zeros n')
  end.

(** [s.zfill(width)]: a leading sign stays in front of the padding. *)
Definition zfill (width : nat) (s : string) : string :=
  if width <=? length s then s
  else
    let pad := zeros (width - length s) in
    match s with
    | String c s' =>
        if (Ascii.eqb c "+" || Ascii.eqb c "-")%bool
        then String c (pad ++ s')%string
        else (pad ++ s)%string
    | EmptyString => pad
    end.

(** [s.lstrip('0')] *)
Fixpoint lstrip_zeros (s : string) : string :=
  match s with
  | String c s' => if Ascii.eqb c "0" then lstrip_zeros s' else s
  | EmptyString => EmptyString
  end.

Definition chars (s : string) : list ascii := list_ascii_of_string s.

End Texto.
Import Texto.

(* ================================================================= *)
(** ** Naive datetimes *)

Record datetime : Type := mkdt {
  year : Z; month : Z; day : Z;
  hour : Z; minute : Z; second : Z; microsecond : Z
}.

Fixpoint lex_compare (a b : list Z) : comparison :=
  match a, b with
  | [], [] => Eq
  | [], _ :: _ => Lt
  | _ :: _, [] => Gt
  | x :: a', y :: b' =>
      match Z.compare x y with
      | Eq => lex_compare a' b'
      | c => c
      end
  end.

Definition dt_campos (d : datetime) : list Z :=
  [year d; month d; day d; hour d; minute d; second d; microsecond d].

Definition dt_compare (a b : datetime) : comparison :=
  lex_compare (dt_campos a) (dt_campos b).

(** [a < b], [a <= b], [a > b] on datetimes. *)
Definition dt_ltb (a b : datetime) : bool :=
  match dt_compare a b with Lt => true | _ => false end.
Definition dt_leb (a b : datetime) : bool :=
  match dt_compare a b with Gt => false | _ => true end.
Definition dt_gtb (a b : datetime) : bool := dt_ltb b a.

(** [d.replace(hour=h, minute=m, second=s)]: the other fields, the
    microseconds among them, stay. *)
Definition replace_hms (d : datetime) (h m s : Z) : datetime :=
  mkdt (year d) (month d) (day d) h m s (microsecond d).

(* ================================================================= *)
(** ** DocumentMatcher: the filter of [_buscar_em_diretorio] and
       [buscar_boleto] *)

(** A listed file: [(caminho, nome, data_mod)]. *)
Definition arquivo : Type := string * string * datetime.

(** A hit: [(caminho, nome, data_mod, tipo)]. *)
Record hit : Type := mkhit {
  caminho : string; nome : string; data_mod : datetime; tipo : string
}.

(** The test applied to one file name inside the loop. *)
Definition corresponde (busca_literal : bool) (numero_limpo nome : string)
  : bool :=
  let nome_limpo := so_digitos nome in
  if busca_literal then
    if 15 <=? length nome_limpo then
      String.eqb (fatia 6 15 nome_limpo) numero_limpo
    else contem numero_limpo nome_limpo
  else contem numero_limpo nome_limpo.

(** The loop [for caminho, nome, data_mod in arquivos] of
    [_buscar_em_diretorio]. *)
Fixpoint filtrar_arquivos (arquivos : list arquivo) (numero_limpo : string)
    (busca_literal : bool) (tipo : string) : list hit :=
  match arquivos with
  | [] => []
  | (caminho, nome, data_mod) :: resto =>
      if corresponde busca_literal numero_limpo nome
      then mkhit caminho nome data_mod tipo
             :: filtrar_arquivos resto numero_limpo busca_literal tipo
      else filtrar_arquivos resto numero_limpo busca_literal tipo
  end.

(** [_buscar_em_diretorio]: nothing without a connection, nothing when
    the listing raises ([listagem = None]), else the files of the listing
    that pass the test. *)
Definition _buscar_em_diretorio (conexao_ok : bool)
    (listagem : option (list arquivo)) (numero_limpo : string)
    (busca_literal : bool) (tipo : string) : list hit :=
  if negb conexao_ok then []
  else
    match listagem with
    | None => []
    | Some arquivos =>
        filtrar_arquivos arquivos numero_limpo busca_literal tipo
    end.

(** [buscar_boleto_e_nf]: the invoices, then the tax documents when
    their directory is configured. Each of the three calls of
    [garantir_conexao] has its own outcome. *)
Definition buscar_boleto_e_nf (conexao_ok conexao_boletos conexao_nfs : bool)
    (listar : string -> option (list arquivo))
    (diretorio_remoto diretorio_remoto_nfs numero_boleto : string)
    (busca_literal : bool) : list hit :=
  if negb conexao_ok then []
  else
    let numero_limpo := so_digitos numero_boleto in
    if String.eqb numero_limpo "" then []
    else
      _buscar_em_diretorio conexao_boletos (listar diretorio_remoto)
                           numero_limpo busca_literal "BOLETO"
      ++ (if String.eqb diretorio_remoto_nfs "" then []
          else _buscar_em_diretorio conexao_nfs (listar diretorio_remoto_nfs)
                                    numero_limpo busca_literal "NF").

(** [buscar_boleto], after the listing: the requested number is sanitised
    and an empty number gives no result. *)
Definition buscar_boleto (arquivos : list arquivo) (numero_boleto : string)
    (busca_literal : bool) : list arquivo :=
  let numero_limpo := so_digitos numero_boleto in
  if String.eqb numero_limpo "" then []
  else filter (fun a => corresponde busca_literal numero_limpo (snd (fst a)))
              arquivos.

(** [formatar_numero_boleto] of the interface: the number typed by the
    user, as digits, zero-filled to nine characters. *)
Definition formatar_numero_boleto (numero : string) : string :=
  let numero_limpo := so_isdigit numero in
  if String.eqb numero_limpo "" then "" else zfill 9 numero_limpo.

(** [x.lstrip('0') or '0'] *)
Definition sem_zeros_a_esquerda (x : string) : string :=
  let y := lstrip_zeros x in
  if String.eqb y "" then "0" else y.

(** [_extrair_numero_documento]: the number shown in the result table. *)
Definition _extrair_numero_documento (nome_arquivo : string) : string :=
  let numeros := so_digitos nome_arquivo in
  if 15 <=? length numeros then sem_zeros_a_esquerda (fatia 6 15 numeros)
  else if 9 <=? length numeros
       then sem_zeros_a_esquerda (substring (length numeros - 9) 9 numeros)
       else sem_zeros_a_esquerda numeros.

(** DocumentKey: the [numero_chave] of [_agrupar_resultados]. *)
Definition numero_chave (nome : string) : string :=
  let numeros := so_digitos nome in
  if 15 <=? length numeros then fatia 0 15 numeros else numeros.

(** The file name [nome] matches the requested number: the number is
    sanitised, an empty number matches nothing. *)
Definition casa (busca_literal : bool) (numero nome : string) : bool :=
  negb (String.eqb (so_digitos numero) "")
  && corresponde busca_literal (so_digitos numero) nome.

(* ================================================================= *)
(** ** Python containers: insertion-ordered dict, stable sort *)

Section Dict.
Context {K V : Type} (K_dec : forall x y : K, {x = y} + {x <> y}).

(** [d.get(k)] / [k in d] *)
Fixpoint dict_get (k : K) (d : list (K * V)) : option V :=
  match d with
  | [] => None
  | (k', v) :: d' => if K_dec k k' then Some v else dict_get k d'
  end.

(** [d[k] = v] *)
Fixpoint dict_set (k : K) (v : V) (d : list (K * V)) : list (K * V) :=
  match d with
  | [] => [(k, v)]
  | (k', v') :: d' =>
      if K_dec k k' then (k', v) :: d' else (k', v') :: dict_set k v d'
  end.
End Dict.

Section Sort.
Context {A : Type} (ltb : A -> A -> bool).

(** Insertion in front of the first element that is not smaller. *)
Fixpoint inserir (x : A) (l : list A) : list A :=
  match l with
  | [] => [x]
  | y :: l' => if ltb y x then y :: inserir x l' else x :: y :: l'
  end.

(** [l.sort(key=...)], where [ltb a b] is [key(a) < key(b)]. *)
Fixpoint ordenar (l : list A) : list A :=
  match l with
  | [] => []
  | x :: l' => inserir x (ordenar l')
  end.

(** [l.sort(key=..., reverse=True)]: the list is reversed, sorted and
    reversed again, which keeps equal keys in their original order. *)
Definition ordenar_reverso (l : list A) : list A := rev (ordenar (rev l)).

(** The keys of [a] and [b] are equal: neither is smaller. *)
Definition mesma_chave (a b : A) : bool := negb (ltb a b) && negb (ltb b a).
End Sort.

(* ================================================================= *)
(** ** Grouper: [_agrupar_resultados] *)

Definition chave_unica : Type := (string * string)%type.

Definition chave_unica_dec (x y : chave_unica) : {x = y} + {x <> y}.
Proof. decide equality; apply string_dec. Defined.

(** The [(numero_chave, tipo)] of a hit. *)
Definition chave_de (h : hit) : chave_unica := (numero_chave (nome h), tipo h).

(** One iteration of the first loop. *)
Definition passo_mais_recente (mais_recentes : list (chave_unica * hit))
    (h : hit) : list (chave_unica * hit) :=
  let chave := chave_de h in
  match dict_get chave_unica_dec chave mais_recentes with
  | None => dict_set chave_unica_dec chave h mais_recentes
  | Some atual =>
      if dt_gtb (data_mod h) (data_mod atual)
      then dict_set chave_unica_dec chave h mais_recentes
      else mais_recentes
  end.

Definition mais_recentes (resultados : list hit) : list (chave_unica * hit) :=
  fold_left passo_mais_recente resultados [].

(** One iteration of the second loop: the group of the number is created
    when missing, then the record is appended to it. *)
Definition passo_grupo (grupos : list (string * list hit))
    (item : chave_unica * hit) : list (string * list hit) :=
  let '((numero, _), h) := item in
  match dict_get string_dec numero grupos with
  | None => dict_set string_dec numero [h] grupos
  | Some membros => dict_set string_dec numero (membros ++ [h]) grupos
  end.

Definition agrupar_por_numero (mr : list (chave_unica * hit))
  : list (string * list hit) :=
  fold_left passo_grupo mr [].

(** The sort key [(0 if x[3] == 'NF' else 1, x[1])], compared as tuples. *)
Definition ordem_tipo (h : hit) : nat :=
  if String.eqb (tipo h) "NF" then 0 else 1.

Definition ordem_ltb (a b : hit) : bool :=
  (ordem_tipo a <? ordem_tipo b) ||
  ((ordem_tipo a =? ordem_tipo b) && String.ltb (nome a) (nome b)).

Definition _agrupar_resultados (resultados : list hit)
  : list (string * list hit) :=
  map (fun g => (fst g, ordenar ordem_ltb (snd g)))
      (agrupar_por_numero (mais_recentes resultados)).

(** The members of the group of a number (empty when there is none). *)
Definition membros_de (numero : string) (grupos : list (string * list hit))
  : list hit :=
  match dict_get string_dec numero grupos with
  | Some ms => ms
  | None => []
  end.

(** The groups written back as one list of hits, group after group. *)
Definition achatar (grupos : list (string * list hit)) : list hit :=
  List.concat (map snd grupos).

(** The entry of the first dictionary belongs to the number [n]. *)
Definition do_numero (n : string) (item : chave_unica * hit) : bool :=
  String.eqb n (fst (fst item)).

(** A group as the Grouper builds it: not empty, holding hits of its own
    number, of distinct types, in the order of the sort. *)
Definition grupo_bem_formado (g : string * list hit) : Prop :=
  snd g <> [] /\
  (forall h, In h (snd g) -> numero_chave (nome h) = fst g) /\
  NoDup (map tipo (snd g)) /\
  Sorted (fun a b => ordem_ltb b a = false) (snd g).

Definition bem_formados (grupos : list (string * list hit)) : Prop :=
  NoDup (map fst grupos) /\ Forall grupo_bem_formado grupos.

(** [h] is, among the hits of [l] with key [k], one of latest
    modification time, and the first of those in input order. *)
Definition primeiro_mais_recente (l : list hit) (k : chave_unica) (h : hit)
  : Prop :=
  exists l1 l2,
    l = l1 ++ h :: l2 /\ chave_de h = k /\
    (forall h', In h' l1 -> chave_de h' = k ->
                dt_ltb (data_mod h') (data_mod h) = true) /\
    (forall h', In h' l2 -> chave_de h' = k ->
                dt_leb (data_mod h') (data_mod h) = true).

(** The same with the last of the latest hits. *)
Definition ultimo_mais_recente (l : list hit) (k : chave_unica) (h : hit)
  : Prop :=
  exists l1 l2,
    l = l1 ++ h :: l2 /\ chave_de h = k /\
    (forall h', In h' l1 -> chave_de h' = k ->
                dt_leb (data_mod h') (data_mod h) = true) /\
    (forall h', In h' l2 -> chave_de h' = k ->
                dt_ltb (data_mod h') (data_mod h) = true).

(** What the design document asks of the Grouper on the list [l]: the
    member kept for a pair is the last of its latest hits. *)
Definition retem_ultimo (l : list hit) : Prop :=
  forall k h, ultimo_mais_recente l k h ->
              In h (membros_de (fst k) (_agrupar_resultados l)).

(* ================================================================= *)
(** ** Date search: [buscar_por_data] *)

(** The body of the two loops: the entries of a walk inside the period,
    tagged with their type. *)
Definition no_periodo (inicio fim : datetime) (a : arquivo) : bool :=
  dt_leb inicio (snd a) && dt_leb (snd a) fim.

Definition marcar (tipo : string) (a : arquivo) : hit :=
  mkhit (fst (fst a)) (snd (fst a)) (snd a) tipo.

Definition data_ltb (a b : hit) : bool := dt_ltb (data_mod a) (data_mod b).

(** The modification time of [h] lies in the closed interval. *)
Definition dentro (inicio fim : datetime) (h : hit) : bool :=
  dt_leb inicio (data_mod h) && dt_leb (data_mod h) fim.

(** Most recent first. *)
Definition mais_recente_antes (a b : hit) : Prop :=
  dt_leb (data_mod b) (data_mod a) = true.

Section BuscaPorData.
(** The session as the search sees it: whether [garantir_conexao]
    succeeds, and what [listar_arquivos_com_data] yields for a
    directory. *)
Variable conexao_ok : bool.
Variable listar_arquivos_com_data : string -> list arquivo.
Variables diretorio_remoto diretorio_remoto_nfs : string.

Definition buscar_por_data (data_inicio data_fim : datetime) : list hit :=
  if negb conexao_ok then []
  else
    let data_fim_ajustada := replace_hms data_fim 23 59 59 in
    let data_inicio_ajustada := replace_hms data_inicio 0 0 0 in
    let resultados :=
      map (marcar "BOLETO")
          (filter (no_periodo data_inicio_ajustada data_fim_ajustada)
                  (listar_arquivos_com_data diretorio_remoto)) in
    let resultados :=
      if String.eqb diretorio_remoto_nfs "" then resultados
      else
        resultados ++
        map (marcar "NF")
            (filter (no_periodo data_inicio_ajustada data_fim_ajustada)
                    (listar_arquivos_com_data diretorio_remoto_nfs)) in
    ordenar_reverso data_ltb resultados.
End BuscaPorData.

(* ================================================================= *)
(** ** SessionManager: [conectar], [desconectar], [garantir_conexao] *)

Module Sessao.

(** The exceptions the handlers of [conectar] tell apart. *)
Inductive excecao : Type :=
| AuthenticationException
| SSHException (e : string)
| Exception (e : string).

(** [self.ssh]: a client object, connected or not. *)
Inductive ssh_client : Type := SSHNovo | SSHConectado.

(** [self.sftp]: an open channel and its working directory. *)
Record sftp_client : Type := mksftp { cwd : option string }.

Record SFTPClient : Type := mkcliente {
  host : string;
  diretorio_remoto : string;
  ssh : option ssh_client;
  sftp : option sftp_client;
  diretorio_atual : string
}.

Definition com_ssh (v : option ssh_client) (c : SFTPClient) : SFTPClient :=
  mkcliente (host c) (diretorio_remoto c) v (sftp c) (diretorio_atual c).
Definition com_sftp (v : option sftp_client) (c : SFTPClient) : SFTPClient :=
  mkcliente (host c) (diretorio_remoto c) (ssh c) v (diretorio_atual c).
Definition com_diretorio_atual (d : string) (c : SFTPClient) : SFTPClient :=
  mkcliente (host c) (diretorio_remoto c) (ssh c) (sftp c) d.

(** What the server and the local key file answer during one [conectar]:
    [None] when the call returns, [Some e] when it raises [e]. *)
Record rede : Type := mkrede {
  usa_chave : bool;
  r_from_private_key_file : option excecao;
  r_connect : option excecao;
  r_open_sftp : option excecao;
  r_chdir : option excecao
}.

(** State and exception monad of the body of a [try]. *)
Definition M (A : Type) : Type := SFTPClient -> SFTPClient * (excecao + A).

Definition ret {A} (a : A) : M A := fun c => (c, inr a).
Definition bind {A B} (m : M A) (k : A -> M B) : M B :=
  fun c => match m c with
           | (c', inl e) => (c', inl e)
           | (c', inr a) => k a c'
           end.
Definition modificar (f : SFTPClient -> SFTPClient) : M unit :=
  fun c => (f c, inr tt).
Definition chamada (r : option excecao) : M unit :=
  fun c => (c, match r with Some e => inl e | None => inr tt end).

Notation "m1 ;; m2" := (bind m1 (fun _ => m2))
  (at level 61, right associativity).

Inductive mensagem : Type :=
| Conectado (host : string)
| ErroAutenticacao
| ErroSSH (e : string)
| ErroAoConectar (e : string).

(** The [try] block of [conectar]. *)
Definition conectar_corpo (r : rede) : M unit :=
  modificar (com_ssh (Some SSHNovo)) ;;
  (if usa_chave r then chamada (r_from_private_key_file r) else ret tt) ;;
  chamada (r_connect r) ;;
  modificar (com_ssh (Some SSHConectado)) ;;
  chamada (r_open_sftp r) ;;
  modificar (com_sftp (Some (mksftp None))) ;;
  chamada (r_chdir r) ;;
  modificar (fun c => com_sftp (Some (mksftp (Some (diretorio_remoto c)))) c) ;;
  modificar (fun c => com_diretorio_atual (diretorio_remoto c) c).

(** [conectar]: the body and its three handlers, tried in order. *)
Definition conectar (r : rede) (c : SFTPClient)
  : SFTPClient * (bool * mensagem) :=
  match conectar_corpo r c with
  | (c', inr _) => (c', (true, Conectado (host c')))
  | (c', inl AuthenticationException) => (c', (false, ErroAutenticacao))
  | (c', inl (SSHException e)) => (c', (false, ErroSSH e))
  | (c', inl (Exception e)) => (c', (false, ErroAoConectar e))
  end.

(** [desconectar]: both handles are closed, errors of [close] swallowed,
    and set to [None]. *)
Definition desconectar (c : SFTPClient) : SFTPClient :=
  com_ssh None (com_sftp None c).

(** [verificar_conexao]; [getcwd_ok] tells whether [getcwd] returns. *)
Definition verificar_conexao (getcwd_ok : bool) (c : SFTPClient) : bool :=
  match sftp c, ssh c with
  | Some _, Some _ => getcwd_ok
  | _, _ => false
  end.

Definition reconectar (r : rede) (c : SFTPClient)
  : SFTPClient * (bool * mensagem) :=
  conectar r (desconectar c).

Definition garantir_conexao (getcwd_ok : bool) (r : rede) (c : SFTPClient)
  : SFTPClient * bool :=
  if verificar_conexao getcwd_ok c then (c, true)
  else let '(c', (sucesso, _)) := reconectar r c in (c', sucesso).

(** The session holds no handle. *)
Definition vazia (c : SFTPClient) : Prop := ssh c = None /\ sftp c = None.

(** The two handles are both present or both absent. *)
Definition ambos_ou_nenhum (c : SFTPClient) : Prop :=
  ssh c = None <-> sftp c = None.

(** All-or-nothing, as the design document words it, for one run of
    [conectar]. *)
Definition tudo_ou_nada (r : rede) (c : SFTPClient) : Prop :=
  let '(c', (sucesso, _)) := conectar r c in
  (sucesso = false -> vazia c') /\ ambos_ou_nenhum c'.

(** The step of [conectar] that fails under [r], if any. *)
Inductive etapa : Type := Autenticacao | Canal | Diretorio.

Definition etapa_que_falha (r : rede) : option etapa :=
  match (if usa_chave r then r_from_private_key_file r else None),
        r_connect r, r_open_sftp r, r_chdir r with
  | Some _, _, _, _ => Some Autenticacao
  | None, Some _, _, _ => Some Autenticacao
  | None, None, Some _, _ => Some Canal
  | None, None, None, Some _ => Some Diretorio
  | None, None, None, None => None
  end.

(** The session once [conectar] has run to its end. *)
Definition conectada (c : SFTPClient) : SFTPClient :=
  mkcliente (host c) (diretorio_remoto c) (Some SSHConectado)
            (Some (mksftp (Some (diretorio_remoto c)))) (diretorio_remoto c).

End Sessao.

(* ================================================================= *)
(** ** DownloadOrchestrator: [baixar_boleto], [_baixar_multiplos] *)

Module Download.

(** A row of the result table: a separator, or the texts of the columns
    the download reads, [valores[1]], [valores[2]], [valores[5]] and
    [valores[6]], as the table stores them. The type is one of two
    words, the name carries its extension and the path a slash: none
    reads as an integer, and [item['values']] gives these three cells
    back as they were stored. The number comes back converted (see
    [_convert_stringval]). *)
Inductive linha : Type :=
| Separador
| Documento (tipo numero nome caminho : string).

(** A cell as [item['values']] gives it back: ttk hands every cell of a
    row to [_convert_stringval], which answers an [int] when the text
    of the cell reads as one, and the text otherwise. *)
Inductive celula : Type :=
| CInt (z : Z)
| CStr (s : string).

(** [numeros_docs.add(x)] on a set kept as a duplicate-free list. *)
Definition conj_add (x : string) (s : list string) : list string :=
  if in_dec string_dec x s then s else s ++ [x].

(** The white space [int] allows around a numeral, below 256. *)
Definition int_espaco (c : ascii) : bool :=
  let n := nat_of_ascii c in
  ((9 <=? n) && (n <=? 13)) || (n =? 32) || (n =? 133) || (n =? 160).

Fixpoint int_lstrip (s : string) : string :=
  match s with
  | String c r => if int_espaco c then int_lstrip r else s
  | EmptyString => EmptyString
  end.

Fixpoint int_rstrip (s : string) : string :=
  match s with
  | String c r =>
      match int_rstrip r with
      | EmptyString =>
          if int_espaco c then EmptyString else String c EmptyString
      | r' => String c r'
      end
  | EmptyString => EmptyString
  end.

(** The digits of a numeral, read from the left: a digit may be
    preceded by one underscore. *)
Fixpoint int_aux (acc : Z) (s : string) : option Z :=
  match s with
  | EmptyString => Some acc
  | String c s' =>
      if re_d c
      then int_aux (10 * acc + Z.of_nat (nat_of_ascii c - 48)) s'
      else if Ascii.eqb c "_" then
        match s' with
        | String c' s'' =>
            if re_d c'
            then int_aux (10 * acc + Z.of_nat (nat_of_ascii c' - 48)) s''
            else None
        | EmptyString => None
        end
      else None
  end.

(** [sys.get_int_max_str_digits()], as the interpreter starts. *)
Definition max_str_digits : nat := 4300.

(** [int(x)] on a string: white space around, one sign, then digits
    that start with a digit, with single underscores between digits,
    and no more digits than the interpreter allows. [None] is the
    [ValueError]. *)
Definition int (x : string) : option Z :=
  let s := int_rstrip (int_lstrip x) in
  let '(negativo, corpo) :=
    match s with
    | String c r =>
        if Ascii.eqb c "-" then (true, r)
        else if Ascii.eqb c "+" then (false, r)
        else (false, s)
    | EmptyString => (false, s)
    end in
  match corpo with
  | String c _ =>
      if re_d c
         && (List.length (filter re_d (chars corpo)) <=? max_str_digits)
      then option_map (fun v => if negativo : bool then (- v)%Z else v)
                      (int_aux 0 corpo)
      else None
  | EmptyString => None
  end.

(** [n] in decimal, for [0 <= n]. *)
Definition dec (n : Z) : string :=
  DecimalString.NilEmpty.string_of_uint (Nat.to_uint (Z.to_nat n)).

(** [str(z)] on an [int]. *)
Definition str_int (z : Z) : string :=
  if (z <? 0)%Z then ("-" ++ dec (- z))%string else dec z.

(** ttk's [_convert_stringval]: [int(value)] when it does not raise,
    [value] otherwise. *)
Definition _convert_stringval (value : string) : celula :=
  match int value with
  | Some z => CInt z
  | None => CStr value
  end.

(** The truth value of a cell. *)
Definition verdadeiro (v : celula) : bool :=
  match v with
  | CInt z => negb (z =? 0)%Z
  | CStr s => negb (String.eqb s "")
  end.

(** [v != t] for a text [t]: an [int] never equals a text. *)
Definition diferente (v : celula) (t : string) : bool :=
  match v with
  | CInt _ => true
  | CStr s => negb (String.eqb s t)
  end.

(** [str(v)] *)
Definition str (v : celula) : string :=
  match v with
  | CInt z => str_int z
  | CStr s => s
  end.

(** The first loop: the files to fetch and the set of their numbers.
    The number is tested and added as the table gives it back. *)
Definition passo_coleta (st : list (string * string * string) * list string)
    (l : linha) : list (string * string * string) * list string :=
  let '(arquivos, numeros_docs) := st in
  match l with
  | Separador => st
  | Documento tipo numero nome caminho =>
      let numero := _convert_stringval numero in
      (arquivos ++ [(caminho, nome, tipo)],
       if verdadeiro numero && diferente numero "-"
       then conj_add (str numero) numeros_docs else numeros_docs)
  end.

Definition coletar (selecao : list linha)
  : list (string * string * string) * list string :=
  fold_left passo_coleta selecao ([], []).

(** [x.isdigit()] on a string. *)
Definition isdigit (x : string) : bool :=
  negb (String.eqb x "") && forallb str_isdigit (chars x).

(** [lambda x: int(x) if x.isdigit() else 0]; [None] when [int]
    raises, on a superscript digit or on too many digits. *)
Definition chave_numerica (x : string) : option Z :=
  if isdigit x then int x else Some 0%Z.

(** The keys of [sorted] are all computed before any comparison. *)
Fixpoint decorar (l : list string) : option (list (Z * string)) :=
  match l with
  | [] => Some []
  | x :: l' =>
      match chave_numerica x, decorar l' with
      | Some k, Some d => Some ((k, x) :: d)
      | _, _ => None
      end
  end.

Definition par_ltb (a b : Z * string) : bool := (fst a <? fst b)%Z.

(** [sorted(numeros_docs, key=...)] *)
Definition sorted_numeros (numeros_docs : list string)
  : option (list string) :=
  match decorar numeros_docs with
  | Some d => Some (map snd (ordenar par_ltb d))
  | None => None
  end.

(** The identifier segment of the archive name. *)
Definition identificador (numeros_docs : list string) : option string :=
  match numeros_docs with
  | [] => Some "doc"
  | _ :: _ =>
      match sorted_numeros numeros_docs with
      | None => None
      | Some numeros_lista =>
          if 3 <? List.length numeros_lista
          then Some (hd "" numeros_lista ++ "-" ++ last numeros_lista "")%string
          else Some (String.concat "-" numeros_lista)
      end
  end.

(** What one call of [baixar_boleto] meets on the server. *)
Inductive resultado_get : Type :=
| GetOk
| GetPermissionError
| GetFileNotFoundError
| GetException (e : string).

Record chamada_rede : Type := mkchamada {
  conexao_ok : bool;
  r_get : resultado_get
}.

Inductive erro_download : Type :=
| NaoConectado
| ErroPermissao
| ArquivoNaoEncontrado
| ErroAoBaixar (e : string).

Inductive erro_lote : Type :=
| ErroItem (nome : string) (erro : erro_download)
| ErroGeral (e : string).

(** What writing the archive meets. [zipfile.ZipFile(zip_path, 'w')]
    creates the file, or raises and creates nothing. Each [zipf.write]
    then adds a member, and the archive is closed when the [with] block
    is left: when a [write] or the closing raises, the file stays on
    the disk with the [escritos] members added before. *)
Inductive resultado_zip : Type :=
| ZipEscrito
| ZipFalhaAoAbrir (e : string)
| ZipFalhaAoEscrever (e : string) (escritos : nat).

(** What the worker does on the local disk and reports to the
    interface: [EscreverZip] is the archive written whole and closed,
    [DeixarZip] the archive created and left unfinished. *)
Inductive efeito : Type :=
| EscreverZip (zip_path : string) (membros : list (string * string))
| DeixarZip (zip_path : string) (membros : list (string * string))
| Remover (arquivo : string)
| Callback (sucesso : bool) (zip_path : string) (qtd_ok qtd_err : nat)
           (erros : list erro_lote).

Inductive saida : Type :=
| AvisoNenhumArquivo
| ErroDeValor
| Executado (efeitos : list efeito).

(** [strftime("%d-%m-%Y")], the year on four digits. *)
Definition strftime_dmY (d : datetime) : string :=
  (zfill 2 (dec (day d)) ++ "-" ++ zfill 2 (dec (month d)) ++ "-"
   ++ zfill 4 (dec (year d)))%string.

Definition prefixo_de (tipos_baixados : list string) : string :=
  if existsb (String.eqb "NF") tipos_baixados
     && existsb (String.eqb "BOLETO") tipos_baixados then "NFBOL"
  else if existsb (String.eqb "NF") tipos_baixados then "NF"
  else "BOL".

Definition zip_nome_de (prefixo identificador data_formatada : string)
  : string :=
  (prefixo ++ "_" ++ identificador ++ "_" ++ data_formatada ++ ".zip")%string.

(** The document rows of a selection, as [(caminho, nome, tipo)], and
    their numbers. *)
Definition arquivos_de (selecao : list linha)
  : list (string * string * string) :=
  flat_map (fun l => match l with
                     | Separador => []
                     | Documento tipo _ nome caminho => [(caminho, nome, tipo)]
                     end) selecao.


(** A row as the result table holds it: an invoice or a tax document,
    with a decimal number. *)
Definition decimal (x : string) : Prop :=
  x <> "" /\ forallb re_d (chars x) = true.

Definition linha_valida (l : linha) : Prop :=
  match l with
  | Separador => True
  | Documento tipo numero _ _ =>
      (tipo = "BOLETO" \/ tipo = "NF") /\ decimal numero
  end.

(** The row the interface inserts in the result table for a hit. *)
Definition linha_de (h : hit) : linha :=
  Documento (tipo h) (_extrair_numero_documento (nome h)) (nome h)
            (caminho h).



(** A number as the result table shows it: decimal, without zeros in
    front unless it is the single zero, and short enough to be read as
    an integer. *)
Definition numero_da_tabela (x : string) : Prop :=
  decimal x /\ (x = "0" \/ forall r, x <> String "0" r) /\
  length x <= 4300.

(** A row of the result table, as the download meets it. *)
Definition linha_da_tabela (l : linha) : Prop :=
  match l with
  | Separador => True
  | Documento tipo numero _ _ =>
      (tipo = "BOLETO" \/ tipo = "NF") /\ numero_da_tabela numero
  end.







Section Lote.
(** Library functions on paths and the configured download folder. *)
Variable os_path_join : string -> string -> string.
Variable os_path_basename : string -> string.
Variable pasta_download : string.

(** [SFTPClient.baixar_boleto]: the pair [(sucesso, resultado)] as a
    sum, the local path on the right. *)
Definition baixar_boleto (r : chamada_rede)
    (caminho_remoto nome_arquivo : string) : erro_download + string :=
  if negb (conexao_ok r) then inl NaoConectado
  else
    let nome_arquivo :=
      if String.eqb nome_arquivo "" then os_path_basename caminho_remoto
      else nome_arquivo in
    let caminho_local := os_path_join pasta_download nome_arquivo in
    match r_get r with
    | GetOk => inr caminho_local
    | GetPermissionError => inl ErroPermissao
    | GetFileNotFoundError => inl ArquivoNaoEncontrado
    | GetException e => inl (ErroAoBaixar e)
    end.

(** The state of the download loop:
    [(arquivos_baixados, erros, tipos_baixados)]. *)
Definition estado : Type :=
  (list string * list erro_lote * list string)%type.

(** The download loop; [rede i] is what the [i]-th call meets. *)
Fixpoint baixar_todos (rede : nat -> chamada_rede) (i : nat)
    (arquivos : list (string * string * string)) (st : estado) : estado :=
  match arquivos with
  | [] => st
  | (caminho, nome, tipo) :: resto =>
      let '(arquivos_baixados, erros, tipos_baixados) := st in
      let st' :=
        match baixar_boleto (rede i) caminho nome with
        | inr resultado =>
            (arquivos_baixados ++ [resultado], erros,
             conj_add tipo tipos_baixados)
        | inl resultado =>
            (arquivos_baixados, erros ++ [ErroItem nome resultado],
             tipos_baixados)
        end in
      baixar_todos rede (S i) resto st'
  end.

(** The worker [baixar_thread]; [r_zip] is what writing the archive
    meets. *)
Definition baixar_thread (rede : nat -> chamada_rede)
    (r_zip : resultado_zip) (data_atual : datetime)
    (arquivos : list (string * string * string)) (identificador : string)
  : list efeito :=
  let '(arquivos_baixados, erros, tipos_baixados) :=
    baixar_todos rede 1 arquivos ([], [], []) in
  match arquivos_baixados with
  | _ :: _ =>
      let prefixo := prefixo_de tipos_baixados in
      let data_formatada := strftime_dmY data_atual in
      let zip_nome := zip_nome_de prefixo identificador data_formatada in
      let zip_path := os_path_join pasta_download zip_nome in
      let membros :=
        map (fun a => (a, os_path_basename a)) arquivos_baixados in
      match r_zip with
      | ZipFalhaAoAbrir e => [Callback false "" 0 1 [ErroGeral e]]
      | ZipFalhaAoEscrever e escritos =>
          [DeixarZip zip_path (firstn escritos membros);
           Callback false "" 0 1 [ErroGeral e]]
      | ZipEscrito =>
          EscreverZip zip_path membros
          :: map Remover arquivos_baixados
          ++ [Callback true zip_path (List.length arquivos_baixados)
                       (List.length erros) erros]
      end
  | [] => [Callback false "" 0 (List.length erros) erros]
  end.

Definition _baixar_multiplos (rede : nat -> chamada_rede)
    (r_zip : resultado_zip) (data_atual : datetime)
    (selecao : list linha) : saida :=
  let '(arquivos, numeros_docs) := coletar selecao in
  match arquivos with
  | [] => AvisoNenhumArquivo
  | _ :: _ =>
      match identificador numeros_docs with
      | None => ErroDeValor
      | Some identificador =>
          Executado
            (baixar_thread rede r_zip data_atual arquivos identificador)
      end
  end.

(** The outcome of each download of a batch, the [i]-th call meeting
    [rede i]. *)
Definition tentativas (rede : nat -> chamada_rede) (i : nat)
    (arquivos : list (string * string * string))
  : list (string * string * string * (erro_download + string)) :=
  map (fun ia =>
         let '(caminho, nome, tipo) := snd ia in
         (snd ia, baixar_boleto (rede (fst ia)) caminho nome))
      (combine (seq i (List.length arquivos)) arquivos).

Definition baixados
    (ts : list (string * string * string * (erro_download + string)))
  : list string :=
  flat_map (fun t => match snd t with inr p => [p] | inl _ => [] end) ts.

Definition falhas
    (ts : list (string * string * string * (erro_download + string)))
  : list erro_lote :=
  flat_map (fun t => match snd t with
                     | inr _ => []
                     | inl e => [ErroItem (snd (fst (fst t))) e]
                     end) ts.

Definition tipos_baixados_de
    (ts : list (string * string * string * (erro_download + string)))
  : list string :=
  flat_map (fun t => match snd t with
                     | inr _ => [snd (fst t)]
                     | inl _ => []
                     end) ts.

End Lote.

End Download.

(* ================================================================= *)
(** ** TaxDocumentClient: request identifier and XML decoding *)

Module NFSe.

(** [formatar_numero_nfse] *)
Definition formatar_numero_nfse (numero : string) : string :=
  let numero_limpo := so_isdigit numero in
  if String.eqb numero_limpo "" then "" else zfill 17 numero_limpo.

(** [construir_id_dps]; [prefixo_iddps] is the configured prefix. *)
Definition construir_id_dps (prefixo_iddps numero_nfse : string) : string :=
  let numero_formatado := formatar_numero_nfse numero_nfse in
  if String.eqb numero_formatado "" then ""
  else (prefixo_iddps ++ numero_formatado)%string.

(** Left padding with zeros, without any regard for a sign. *)
Definition preencher_zeros (largura : nat) (s : string) : string :=
  (zeros (largura - length s) ++ s)%string.

(** The step of the decoding that failed, carried by the exception
    [_decodificar_gzip_base64] raises. *)
Inductive erro_decodificar : Type :=
| ErroBase64
| ErroGZip
| ErroUTF8.

Section Decodificar.
(** The library decoders; [None] when they raise. *)
Variable b64decode : string -> option (list Byte.byte).
Variable gzip_read : list Byte.byte -> option (list Byte.byte).
Variable decode_utf8 : list Byte.byte -> option string.

Definition _decodificar_gzip_base64 (dados_codificados : string)
  : erro_decodificar + string :=
  match b64decode dados_codificados with
  | None => inl ErroBase64
  | Some dados_gzip =>
      match gzip_read dados_gzip with
      | None => inl ErroGZip
      | Some dados_decodificados =>
          match decode_utf8 dados_decodificados with
          | None => inl ErroUTF8
          | Some texto => inr texto
          end
      end
  end.
End Decodificar.

Section Codificar.
(** The encoders of the other side of the exchange. *)
Variable b64encode : list Byte.byte -> string.
Variable gzip_compress : list Byte.byte -> list Byte.byte.
Variable encode_utf8 : string -> list Byte.byte.

(** A text as the service sends it: encoded in UTF-8, compressed with
    GZip, written in Base64. *)
Definition codificar_gzip_base64 (texto : string) : string :=
  b64encode (gzip_compress (encode_utf8 texto)).
End Codificar.

End NFSe.

(* ================================================================= *)
(** ** Codecs meeting the contracts of the library decoders

    Base64 of RFC 4648 with strict decoding, UTF-8 on code points below
    256, and a container that stores the payload after the two magic
    bytes of GZip. *)

Module Codecs.

Definition alfabeto : string :=
  "ABCDEFGHIJKLMNOPQRSTUVWXYZabcdefghijklmnopqrstuvwxyz0123456789+/".

Definition b64char (s : N) : ascii :=
  match String.get (N.to_nat s) alfabeto with
  | Some c => c
  | None => "="%char
  end.

Fixpoint procura (c : ascii) (s : string) (i : N) : option N :=
  match s with
  | EmptyString => None
  | String x s' => if Ascii.eqb c x then Some i else procura c s' (N.succ i)
  end.

Definition b64val (c : ascii) : option N := procura c alfabeto 0%N.

(** Three octets as four sextets, and back. *)
Definition sextetos (a b c : N) : N * N * N * N :=
  let n := (a * 65536 + b * 256 + c)%N in
  ((n / 262144)%N, ((n / 4096) mod 64)%N, ((n / 64) mod 64)%N, (n mod 64)%N).

Definition octetos (s1 s2 s3 s4 : N) : N * N * N :=
  let n := (((s1 * 64 + s2) * 64 + s3) * 64 + s4)%N in
  ((n / 65536)%N, ((n / 256) mod 256)%N, (n mod 256)%N).

Definition byte_de (n : N) : Byte.byte :=
  match Byte.of_N n with Some b => b | None => Byte.x00 end.

Fixpoint b64encode (l : list Byte.byte) : string :=
  match l with
  | [] => ""
  | [a] =>
      let '(s1, s2, _, _) := sextetos (Byte.to_N a) 0 0 in
      String (b64char s1) (String (b64char s2) "==")
  | [a; b] =>
      let '(s1, s2, s3, _) := sextetos (Byte.to_N a) (Byte.to_N b) 0 in
      String (b64char s1) (String (b64char s2) (String (b64char s3) "="))
  | a :: b :: c :: r =>
      let '(s1, s2, s3, s4) :=
        sextetos (Byte.to_N a) (Byte.to_N b) (Byte.to_N c) in
      String (b64char s1) (String (b64char s2)
        (String (b64char s3) (String (b64char s4) (b64encode r))))
  end.

Fixpoint b64decode (s : string) : option (list Byte.byte) :=
  match s with
  | EmptyString => Some []
  | String c1 (String c2 (String c3 (String c4 r))) =>
      match b64val c1, b64val c2 with
      | Some s1, Some s2 =>
          if Ascii.eqb c3 "=" then
            if Ascii.eqb c4 "=" && String.eqb r ""
            then let '(a, _, _) := octetos s1 s2 0 0 in Some [byte_de a]
            else None
          else
            match b64val c3 with
            | None => None
            | Some s3 =>
                if Ascii.eqb c4 "=" then
                  if String.eqb r ""
                  then let '(a, b, _) := octetos s1 s2 s3 0 in
                       Some [byte_de a; byte_de b]
                  else None
                else
                  match b64val c4, b64decode r with
                  | Some s4, Some l =>
                      let '(a, b, c) := octetos s1 s2 s3 s4 in
                      Some (byte_de a :: byte_de b :: byte_de c :: l)
                  | _, _ => None
                  end
            end
      | _, _ => None
      end
  | _ => None
  end.

Definition utf8_char (c : ascii) : list Byte.byte :=
  let n := N_of_ascii c in
  if (n <? 128)%N then [byte_de n]
  else [byte_de (192 + n / 64); byte_de (128 + n mod 64)].

Fixpoint encode_utf8 (s : string) : list Byte.byte :=
  match s with
  | EmptyString => []
  | String c s' => utf8_char c ++ encode_utf8 s'
  end.

Fixpoint decode_utf8 (l : list Byte.byte) : option string :=
  match l with
  | [] => Some EmptyString
  | b :: r =>
      let n := Byte.to_N b in
      if (n <? 128)%N then option_map (String (ascii_of_N n)) (decode_utf8 r)
      else if ((194 <=? n) && (n <=? 195))%N then
        match r with
        | b2 :: r' =>
            let n2 := Byte.to_N b2 in
            if ((128 <=? n2) && (n2 <? 192))%N
            then option_map
                   (String (ascii_of_N ((n - 192) * 64 + (n2 - 128))))
                   (decode_utf8 r')
            else None
        | [] => None
        end
      else None
  end.

Definition armazenar (dados : list Byte.byte) : list Byte.byte :=
  Byte.x1f :: Byte.x8b :: dados.

Definition ler_armazenado (dados : list Byte.byte)
  : option (list Byte.byte) :=
  match dados with
  | Byte.x1f :: Byte.x8b :: r => Some r
  | _ => None
  end.

End Codecs.

(* ================================================================= *)
(** ** RemoteWalker: [listar_arquivos], [listar_arquivos_recursivo],
       [listar_arquivos_com_data] *)

Module Walker.

(** What [listdir_attr] shows of the remote tree. A file carries its
    modification time, [None] when the server sent none. An entry
    without [st_mode] is neither: [stat.S_ISDIR] raises on it. A
    directory ([S_ISDIR]) carries what the walk meets when it enters it:
    [garantida], the answer of [garantir_conexao] at that moment, which
    only the dated walk asks for, and [conteudo], what listing it gives,
    [None] when [listdir_attr] raises. *)
Inductive entrada : Type :=
| EArquivo (filename : string) (st_mtime : option Z)
| ESemModo (filename : string)
| EDiretorio (filename : string) (garantida : bool)
             (conteudo : option (list entrada)).

Definition filename_de (e : entrada) : string :=
  match e with
  | EArquivo n _ => n
  | ESemModo n => n
  | EDiretorio n _ _ => n
  end.

(** [s.endswith(ext)] *)
Fixpoint endswith (s ext : string) : bool :=
  String.eqb s ext ||
  match s with
  | EmptyString => false
  | String _ s' => endswith s' ext
  end.

(** [any(item.filename.endswith(ext) for ext in self.extensoes_permitidas)] *)
Definition extensao_permitida (extensoes_permitidas : list string)
    (filename : string) : bool :=
  existsb (endswith filename) extensoes_permitidas.

(** [s.replace("//", "/")]: the occurrences are taken from the left and
    do not overlap. *)
Fixpoint replace_barras (s : string) : string :=
  match s with
  | EmptyString => EmptyString
  | String c r =>
      match r with
      | String c' r' =>
          if Ascii.eqb c "/" && Ascii.eqb c' "/"
          then String "/" (replace_barras r')
          else String c (replace_barras r)
      | EmptyString => String c EmptyString
      end
  end.

(** [f"{diretorio_atual}/{item.filename}".replace("//", "/")] *)
Definition caminho_completo (diretorio_atual filename : string) : string :=
  replace_barras (diretorio_atual ++ "/" ++ filename)%string.

(** [diretorio or self.sftp.getcwd() or self.diretorio_remoto] *)
Definition diretorio_inicial (diretorio : string) (getcwd : option string)
    (diretorio_remoto : string) : string :=
  if negb (String.eqb diretorio "") then diretorio
  else match getcwd with
       | Some d => if negb (String.eqb d "") then d else diretorio_remoto
       | None => diretorio_remoto
       end.

Section Laco.
Context {A : Type}.
(** The body of the loop for one entry: what it appends to the result,
    and whether the loop goes on ([false] when the body raises). *)
Variable corpo : entrada -> list A * bool.

(** A loop [for item in ...] that appends to a list inside a [try]
    whose handler keeps the list: the entry on which the body raises
    ends the loop, and what was found before it stays. *)
Fixpoint laco (itens : list entrada) : list A :=
  match itens with
  | [] => []
  | item :: resto =>
      fst (corpo item) ++ (if snd (corpo item) then laco resto else [])
  end.
End Laco.

Section Percurso.
Variable extensoes_permitidas : list string.
(** [datetime.fromtimestamp]: [None] when it raises, the time being out
    of the range of the platform. *)
Variable fromtimestamp : Z -> option datetime.

(** The body of the loop of [listar_arquivos_com_data] for one entry of
    the directory [diretorio_atual]. A directory is walked in its turn
    by a call that never raises: it gives nothing when
    [garantir_conexao] answers false or when the listing raises. A
    file of an allowed extension whose time is missing or cannot be
    converted ends the loop. *)
Fixpoint percorrer_com_data (diretorio_atual : string) (item : entrada)
    {struct item} : list arquivo * bool :=
  let caminho := caminho_completo diretorio_atual (filename_de item) in
  match item with
  | ESemModo _ => ([], false)
  | EDiretorio _ garantida conteudo =>
      (if garantida then
         match conteudo with
         | Some itens => laco (percorrer_com_data caminho) itens
         | None => []
         end
       else [],
       true)
  | EArquivo filename st_mtime =>
      if extensao_permitida extensoes_permitidas filename then
        match st_mtime with
        | Some t =>
            match fromtimestamp t with
            | Some data_modificacao =>
                ([(caminho, filename, data_modificacao)], true)
            | None => ([], false)
            end
        | None => ([], false)
        end
      else ([], true)
  end.

(** [listar_arquivos_com_data(diretorio)]; [garantida] is the answer of
    [garantir_conexao] at the start of the call, [listagem] what the
    directory gives. *)
Definition listar_arquivos_com_data (garantida : bool)
    (diretorio_atual : string) (listagem : option (list entrada))
  : list arquivo :=
  if negb garantida then []
  else
    match listagem with
    | None => []
    | Some itens => laco (percorrer_com_data diretorio_atual) itens
    end.

(** The body of the loop of [listar_arquivos_recursivo]: no date is
    read, and inside the walk [self.sftp] is there. *)
Fixpoint percorrer (diretorio_atual : string) (item : entrada)
    {struct item} : list (string * string) * bool :=
  let caminho := caminho_completo diretorio_atual (filename_de item) in
  match item with
  | ESemModo _ => ([], false)
  | EDiretorio _ _ conteudo =>
      (match conteudo with
       | Some itens => laco (percorrer caminho) itens
       | None => []
       end,
       true)
  | EArquivo filename _ =>
      (if extensao_permitida extensoes_permitidas filename
       then [(caminho, filename)]
       else [],
       true)
  end.

(** [listar_arquivos_recursivo(diretorio)]; [sftp_presente] tells
    whether [self.sftp] is set. *)
Definition listar_arquivos_recursivo (sftp_presente : bool)
    (diretorio_atual : string) (listagem : option (list entrada))
  : list (string * string) :=
  if negb sftp_presente then []
  else
    match listagem with
    | None => []
    | Some itens => laco (percorrer diretorio_atual) itens
    end.

Definition sem_modo (item : entrada) : bool :=
  match item with
  | ESemModo _ => true
  | _ => false
  end.

(** [listar_arquivos]: the files of one directory. The list is
    returned inside the [try], whose handler returns the empty list: an
    entry that raises loses the whole listing. *)
Definition listar_arquivos (sftp_presente : bool)
    (listagem : option (list entrada)) : list string :=
  if negb sftp_presente then []
  else
    match listagem with
    | None => []
    | Some itens =>
        if existsb sem_modo itens then []
        else
          flat_map (fun item =>
                      match item with
                      | EArquivo filename _ =>
                          if extensao_permitida extensoes_permitidas filename
                          then [filename] else []
                      | _ => []
                      end) itens
    end.

(** The entry ends the loop of the dated walk: it has no [st_mode], or
    it is a file of an allowed extension whose time is missing or
    cannot be converted. *)
Definition interrompe (item : entrada) : bool :=
  match item with
  | ESemModo _ => true
  | EDiretorio _ _ _ => false
  | EArquivo filename st_mtime =>
      extensao_permitida extensoes_permitidas filename &&
      match st_mtime with
      | Some t =>
          match fromtimestamp t with
          | Some _ => false
          | None => true
          end
      | None => true
      end
  end.

(** The files the walk of [itens], listed in [diretorio_atual], ought to
    give: those of an allowed extension and of a time that can be
    converted, in the directory itself or under a chain of directories
    entered with the connection ensured and that can be listed, no
    entry before the file or before a directory of the chain, in their
    listings, ending the loop. *)
Inductive no_percurso : string -> list entrada -> arquivo -> Prop :=
| np_arquivo (diretorio_atual : string) (antes depois : list entrada)
    (filename : string) (st_mtime : Z) (data_modificacao : datetime) :
    Forall (fun item => interrompe item = false) antes ->
    extensao_permitida extensoes_permitidas filename = true ->
    fromtimestamp st_mtime = Some data_modificacao ->
    no_percurso diretorio_atual
      (antes ++ EArquivo filename (Some st_mtime) :: depois)
      (caminho_completo diretorio_atual filename, filename,
       data_modificacao)
| np_diretorio (diretorio_atual : string) (antes depois sub : list entrada)
    (filename : string) (a : arquivo) :
    Forall (fun item => interrompe item = false) antes ->
    no_percurso (caminho_completo diretorio_atual filename) sub a ->
    no_percurso diretorio_atual
      (antes ++ EDiretorio filename true (Some sub) :: depois) a.

(** Nothing troubles the dated walk in the tree: the connection is
    ensured at every directory and the time of every file of an allowed
    extension can be converted. *)
Fixpoint tranquila (item : entrada) : bool :=
  match item with
  | ESemModo _ => true
  | EArquivo _ _ => negb (interrompe item)
  | EDiretorio _ garantida conteudo =>
      garantida &&
      match conteudo with
      | None => true
      | Some itens => forallb tranquila itens
      end
  end.
End Percurso.

(** No name of the tree holds a slash. *)
Fixpoint nomes_sem_barra (e : entrada) : bool :=
  negb (contem "/" (filename_de e)) &&
  match e with
  | EDiretorio _ _ (Some itens) => forallb nomes_sem_barra itens
  | _ => true
  end.

(** Two slashes in a row somewhere in [s]. *)
Fixpoint tem_barras_duplas (s : string) : bool :=
  match s with
  | String c r =>
      match r with
      | String c' _ =>
          (Ascii.eqb c "/" && Ascii.eqb c' "/") || tem_barras_duplas r
      | EmptyString => false
      end
  | EmptyString => false
  end.

(** [d] without its last character when that is a slash. *)
Fixpoint sem_barra_final (d : string) : string :=
  match d with
  | EmptyString => EmptyString
  | String c r =>
      match r with
      | EmptyString => if Ascii.eqb c "/" then EmptyString else d
      | String _ _ => String c (sem_barra_final r)
      end
  end.

End Walker.

(* ================================================================= *)
(** ** The result table of the interface: [_buscar_callback], the
       checkboxes, [baixar_selecionado] *)

Module Tabela.

(** A row of the table. A separator is the row whose second column is
    the rule; a document row holds its checkbox (marked or not), type,
    number, client, date, file name and path. A row is named by its
    position in the table. *)
Inductive linha_tabela : Type :=
| LSeparador
| LDocumento (marcado : bool)
             (tipo numero cliente data nome caminho : string).

(** [strftime("%d/%m/%Y %H:%M")] *)
Definition strftime_dmYHM (d : datetime) : string :=
  (zfill 2 (Download.dec (day d)) ++ "/" ++ zfill 2 (Download.dec (month d))
   ++ "/" ++ zfill 4 (Download.dec (year d)) ++ " "
   ++ zfill 2 (Download.dec (hour d)) ++ ":"
   ++ zfill 2 (Download.dec (minute d)))%string.

(** The row inserted for a hit, its client still to be read. *)
Definition linha_do_hit (h : hit) : linha_tabela :=
  LDocumento false (tipo h) (_extrair_numero_documento (nome h))
             "Carregando..." (strftime_dmYHM (data_mod h)) (nome h)
             (caminho h).

(** [(k1, itens1) < (k2, itens2)] on the items of a dict: its keys are
    distinct, so the keys settle the comparison. *)
Definition item_ltb (a b : string * list hit) : bool :=
  String.ltb (fst a) (fst b).

(** [[(chave, itens) for chave, itens in sorted(grupos.items()) if itens]] *)
Definition grupos_validos (grupos : list (string * list hit))
  : list (string * list hit) :=
  filter (fun g => match snd g with [] => false | _ :: _ => true end)
         (ordenar item_ltb grupos).

(** The loop that fills the table: a separator before every group but
    the first, then the rows of the group. *)
Fixpoint popular (idx : nat) (grupos : list (string * list hit))
  : list linha_tabela :=
  match grupos with
  | [] => []
  | (_, itens) :: resto =>
      (if 0 <? idx then [LSeparador] else [])
      ++ map linha_do_hit itens ++ popular (S idx) resto
  end.

(** [sum(1 for _, _, _, t in resultados if t == x)] *)
Definition contar_tipo (x : string) (resultados : list hit) : nat :=
  List.length (filter (fun h => String.eqb (tipo h) x) resultados).

Record tela : Type := mktela {
  linhas : list linha_tabela;
  qtd_boletos : nat;
  qtd_nfs : nat;
  qtd_grupos : nat;
  total : nat
}.

(** [_buscar_callback] and [_buscar_data_callback] without error: the
    table and the numbers of the count label. *)
Definition _buscar_callback (resultados : list hit) : tela :=
  let grupos := _agrupar_resultados resultados in
  let validos := grupos_validos grupos in
  let qtd_boletos := contar_tipo "BOLETO" resultados in
  let qtd_nfs := contar_tipo "NF" resultados in
  mktela (popular 0 validos) qtd_boletos qtd_nfs (List.length validos)
         (qtd_boletos + qtd_nfs).

Definition com_marca (m : bool) (l : linha_tabela) : linha_tabela :=
  match l with
  | LSeparador => LSeparador
  | LDocumento _ t n c d nm cm => LDocumento m t n c d nm cm
  end.

Definition marcada (l : linha_tabela) : bool :=
  match l with
  | LSeparador => false
  | LDocumento m _ _ _ _ _ _ => m
  end.

Definition e_documento (l : linha_tabela) : bool :=
  match l with
  | LSeparador => false
  | LDocumento _ _ _ _ _ _ _ => true
  end.


Definition marcar_todos (t : list linha_tabela) : list linha_tabela :=
  map (com_marca true) t.

Definition desmarcar_todos (t : list linha_tabela) : list linha_tabela :=
  map (com_marca false) t.

(** [toggle_todos_checkboxes] *)
Definition toggle_todos_checkboxes (t : list linha_tabela)
  : list linha_tabela :=
  let todos_marcados :=
    forallb (fun l => negb (e_documento l) || marcada l) t in
  map (com_marca (negb todos_marcados)) t.

(** A row [obter_itens_marcados] takes: a document with its checkbox
    marked. *)
Definition selecionavel (l : linha_tabela) : bool :=
  e_documento l && marcada l.

(** [obter_itens_marcados], from the row of position [i] on. *)
Fixpoint itens_marcados_desde (i : nat) (t : list linha_tabela) : list nat :=
  match t with
  | [] => []
  | l :: r =>
      (if e_documento l && marcada l then [i] else [])
      ++ itens_marcados_desde (S i) r
  end.

Definition obter_itens_marcados (t : list linha_tabela) : list nat :=
  itens_marcados_desde 0 t.

(** The two counts of [atualizar_contagem_selecionados]:
    [(marcados, total)]. *)
Definition contagem_selecionados (t : list linha_tabela) : nat * nat :=
  fold_left (fun '(marcados, total) l =>
               if e_documento l
               then ((if marcada l then S marcados else marcados), S total)
               else (marcados, total))
            t (0, 0).

(** What [baixar_selecionado] does. *)
Inductive acao : Type :=
| AvisoMarcar
| AvisoConectar
| BaixarUnico (item_id : nat)
| BaixarMultiplos (selecao : list nat).

Definition baixar_selecionado (conectado : bool) (t : list linha_tabela)
  : acao :=
  let marcados := obter_itens_marcados t in
  match marcados with
  | [] => AvisoMarcar
  | _ :: _ =>
      if negb conectado then AvisoConectar
      else match marcados with
           | [item_id] => BaixarUnico item_id
           | _ => BaixarMultiplos marcados
           end
  end.

(** The columns [_baixar_multiplos] reads of a row. *)
Definition valores_de (l : linha_tabela) : Download.linha :=
  match l with
  | LSeparador => Download.Separador
  | LDocumento _ t n _ _ nm cm => Download.Documento t n nm cm
  end.

(** The rows [_baixar_multiplos] reads for the items of a selection. *)
Definition selecao_de (t : list linha_tabela) (selecao : list nat)
  : list Download.linha :=
  map (fun item_id => valores_de (nth item_id t LSeparador)) selecao.

(** [_baixar_unico] up to the download: a separator is refused. *)
Definition _baixar_unico (t : list linha_tabela) (item_id : nat)
  : option (string * string) :=
  match nth item_id t LSeparador with
  | LSeparador => None
  | LDocumento _ _ _ _ _ nm cm => Some (cm, nm)
  end.

End Tabela.

(* ================================================================= *)
(** ** The date mask: [aplicar_mascara_data] *)

Module Mascara.

(** [''.join(c for c in texto if c.isdigit())[:8]] *)
Definition apenas_numeros (texto : string) : string :=
  fatia 0 8 (so_isdigit texto).

(** The loop over [enumerate(apenas_numeros)], from index [i] on. *)
Fixpoint inserir_barras (i : nat) (s : string) : string :=
  match s with
  | EmptyString => EmptyString
  | String c r =>
      if (i =? 2) || (i =? 4)
      then String "/" (String c (inserir_barras (S i) r))
      else String c (inserir_barras (S i) r)
  end.

Definition formatado (texto : string) : string :=
  inserir_barras 0 (apenas_numeros texto).

(** [s.count('/')] and [s.replace('/', '')] *)
Definition e_barra (c : ascii) : bool := Ascii.eqb c "/".
Definition contar_barras (s : string) : nat := length (filtra e_barra s).
Definition sem_barras (s : string) : string :=
  filtra (fun c => negb (e_barra c)) s.

(** The three ways the cursor is placed. *)
Inductive ramo : Type := Digitou | BarrasAdicionadas | Mantido.

Definition ramo_do_cursor (texto : string) (cursor_pos : nat) : ramo :=
  let f := formatado texto in
  let nova_pos := Nat.min cursor_pos (length f) in
  let barras_antes_original := contar_barras (fatia 0 cursor_pos texto) in
  let barras_antes_novo := contar_barras (fatia 0 nova_pos f) in
  if length (sem_barras texto) <? length (apenas_numeros texto)
  then Digitou
  else if barras_antes_original <? barras_antes_novo
       then BarrasAdicionadas
       else Mantido.

(** [aplicar_mascara_data]: [None] when the field is left as it is,
    else the new text and the new place of the cursor. *)
Definition aplicar_mascara_data (texto : string) (cursor_pos : nat)
  : option (string * nat) :=
  let f := formatado texto in
  if String.eqb texto f then None
  else
    let nova_pos := Nat.min cursor_pos (length f) in
    let barras_antes_original := contar_barras (fatia 0 cursor_pos texto) in
    let barras_antes_novo := contar_barras (fatia 0 nova_pos f) in
    Some (f,
          match ramo_do_cursor texto cursor_pos with
          | Digitou => length f
          | BarrasAdicionadas =>
              nova_pos + (barras_antes_novo - barras_antes_original)
          | Mantido => nova_pos
          end).

End Mascara.

(* ================================================================= *)
(** ** The allowed networks: [carregar_faixas_ip],
       [verificar_ip_permitido] *)

Module Seguranca.

(** The characters [str.strip()] removes, below 256. *)
Definition isspace (c : ascii) : bool :=
  let n := nat_of_ascii c in
  ((9 <=? n) && (n <=? 13)) || ((28 <=? n) && (n <=? 32))
  || (n =? 133) || (n =? 160).

Fixpoint lstrip (s : string) : string :=
  match s with
  | String c r => if isspace c then lstrip r else s
  | EmptyString => EmptyString
  end.

Fixpoint rstrip (s : string) : string :=
  match s with
  | String c r =>
      match rstrip r with
      | EmptyString => if isspace c then EmptyString else String c EmptyString
      | r' => String c r'
      end
  | EmptyString => EmptyString
  end.

(** [s.strip()] *)
Definition strip (s : string) : string := rstrip (lstrip s).

(** [s.split(',')] *)
Fixpoint split_virgula (s : string) : list string :=
  match s with
  | EmptyString => [EmptyString]
  | String c r =>
      if Ascii.eqb c ","
      then EmptyString :: split_virgula r
      else match split_virgula r with
           | p :: ps => String c p :: ps
           | [] => [String c EmptyString]
           end
  end.

(** [[f.strip() for f in faixas.split(',') if f.strip()]] *)
Definition faixas_de (faixas : string) : list string :=
  map strip
      (filter (fun f => negb (String.eqb (strip f) ""))
              (split_virgula faixas)).

(** What reading the configuration gives: an error, no file, no option,
    or the value of the option. *)
Inductive leitura : Type :=
| ErroDeLeitura
| SemArquivo
| SemOpcao
| Opcao (valor : string).

Definition faixa_padrao : list string := ["192.168.112."].

Definition carregar_faixas_ip (l : leitura) : list string :=
  match l with
  | Opcao valor =>
      let faixas := strip valor in
      if negb (String.eqb faixas "") then faixas_de faixas
      else faixa_padrao
  | _ => faixa_padrao
  end.

(** [ip.startswith(faixa)] for some allowed prefix. *)
Definition em_alguma_faixa (faixas : list string) (ip : string) : bool :=
  existsb (fun faixa => prefix faixa ip) faixas.

(** [verificar_ip_permitido]; [ips] is what the name of the host
    resolves to ([None] when the lookup raises), [ip_local] the address
    of the outgoing socket ([None] when that raises). *)
Definition verificar_ip_permitido (faixas_ip_permitidas : list string)
    (ips : option (list string)) (ip_local : option string) : bool :=
  match faixas_ip_permitidas with
  | [] => true
  | _ :: _ =>
      match ips with
      | None => false
      | Some ips =>
          if existsb (em_alguma_faixa faixas_ip_permitidas) ips then true
          else match ip_local with
               | Some ip => em_alguma_faixa faixas_ip_permitidas ip
               | None => false
               end
      end
  end.

End Seguranca.

(* ================================================================= *)
(** ** TaxDocumentClient: [buscar_chave_acesso], [consultar_nfse],
       [buscar_xml_nfse], [baixar_pdf_nfse] *)

Module NFSeFluxo.

Record configuracao : Type := mkconfig {
  endpoint_iddps : string;
  endpoint_chave_acesso : string;
  endpoint_pdf : string;
  prefixo_iddps : string;
  pasta_download : string
}.

(** The answer to a GET: the status, the body as JSON ([None] when it is
    not JSON; an object is the list of its fields), the body as text and
    as bytes, the [Content-Type] header (empty when absent). *)
Record resposta : Type := mkresposta {
  status_code : nat;
  json : option (list (string * string));
  text : string;
  content_type : string;
  content : list Byte.byte
}.

(** The exceptions of [session.get] the handlers tell apart; a
    [PermissionError] has a handler of its own in [baixar_pdf_nfse]
    only. *)
Inductive excecao_http : Type :=
| Timeout
| ConnectionError (e : string)
| PermissionErrorHTTP (e : string)
| OutraExcecao (e : string).

(** The service as one call sees it: [sessao] is [Some e] when
    [_get_session] raises [e] (no certificate configured, file missing),
    [get url] the outcome of the request. *)
Record servico : Type := mkservico {
  sessao : option string;
  get : string -> excecao_http + resposta
}.

(** The messages of the failures. *)
Inductive mensagem : Type :=
| NumeroInvalido
| EndpointDPSNaoConfigurado
| CampoChaveAusente (dados : list (string * string))
| NaoEncontradaParaID (id_dps : string)
| ChaveNaoInformada
| EndpointNFSeNaoConfigurado
| CampoXmlAusente (campos : list string)
| NaoEncontradaParaChave (chave_acesso : string)
| AcessoNegado403
| AcessoNegado403PDF
| NaoAutorizado401
| ErroHTTP (status : nat) (texto : string)
| TimeoutEndpoint
| TimeoutNFSe
| ErroConexao (e : string)
| RespostaInvalida (texto : string)
| ErroBuscarChave (e : string)
| ErroConsultar (e : string)
| ErroConsultarDecodificar (e : NFSe.erro_decodificar)
| EndpointPDFNaoConfigurado
| RespostaNaoPDF (content_type : string)
| PDFNaoEncontrado (chave_acesso : string)
| TimeoutPDF
| ErroPermissaoPDF
| ErroBaixarPDF (e : string).

(** A result [(sucesso, valor_ou_mensagem)]. *)
Definition resultado : Type := (mensagem + string)%type.

(** [buscar_chave_acesso]: the result, the identifier built and the
    requests sent. *)
Definition buscar_chave_acesso (c : configuracao) (s : servico)
    (numero_nfse : string) : resultado * string * list string :=
  let id_dps := NFSe.construir_id_dps (prefixo_iddps c) numero_nfse in
  if String.eqb id_dps "" then (inl NumeroInvalido, "", [])
  else if String.eqb (endpoint_iddps c) ""
  then (inl EndpointDPSNaoConfigurado, id_dps, [])
  else
    match sessao s with
    | Some e => (inl (ErroBuscarChave e), id_dps, [])
    | None =>
        let url := (endpoint_iddps c ++ id_dps)%string in
        match get s url with
        | inl Timeout => (inl TimeoutEndpoint, id_dps, [url])
        | inl (ConnectionError e) => (inl (ErroConexao e), id_dps, [url])
        | inl (PermissionErrorHTTP e) =>
            (inl (ErroBuscarChave e), id_dps, [url])
        | inl (OutraExcecao e) => (inl (ErroBuscarChave e), id_dps, [url])
        | inr response =>
            if status_code response =? 200 then
              match json response with
              | None =>
                  (inl (RespostaInvalida (fatia 0 200 (text response))),
                   id_dps, [url])
              | Some dados =>
                  match dict_get string_dec "chaveAcesso" dados with
                  | Some chave => (inr chave, id_dps, [url])
                  | None => (inl (CampoChaveAusente dados), id_dps, [url])
                  end
              end
            else if status_code response =? 404
            then (inl (NaoEncontradaParaID id_dps), id_dps, [url])
            else if status_code response =? 403
            then (inl AcessoNegado403, id_dps, [url])
            else if status_code response =? 401
            then (inl NaoAutorizado401, id_dps, [url])
            else (inl (ErroHTTP (status_code response) (text response)),
                  id_dps, [url])
        end
    end.

Section Consulta.
(** The library decoders, as in [_decodificar_gzip_base64]. *)
Variable b64decode : string -> option (list Byte.byte).
Variable gzip_read : list Byte.byte -> option (list Byte.byte).
Variable decode_utf8 : list Byte.byte -> option string.

(** [consultar_nfse]: the result and the requests sent. *)
Definition consultar_nfse (c : configuracao) (s : servico)
    (chave_acesso : string) : resultado * list string :=
  if String.eqb chave_acesso "" then (inl ChaveNaoInformada, [])
  else if String.eqb (endpoint_chave_acesso c) ""
  then (inl EndpointNFSeNaoConfigurado, [])
  else
    match sessao s with
    | Some e => (inl (ErroConsultar e), [])
    | None =>
        let url := (endpoint_chave_acesso c ++ chave_acesso)%string in
        match get s url with
        | inl Timeout => (inl TimeoutNFSe, [url])
        | inl (ConnectionError e) => (inl (ErroConexao e), [url])
        | inl (PermissionErrorHTTP e) => (inl (ErroConsultar e), [url])
        | inl (OutraExcecao e) => (inl (ErroConsultar e), [url])
        | inr response =>
            if status_code response =? 200 then
              match json response with
              | None =>
                  (inl (RespostaInvalida (fatia 0 200 (text response))),
                   [url])
              | Some dados =>
                  match dict_get string_dec "nfseXmlGZipB64" dados with
                  | Some xml_gzip_b64 =>
                      match NFSe._decodificar_gzip_base64
                              b64decode gzip_read decode_utf8
                              xml_gzip_b64 with
                      | inr xml_decodificado => (inr xml_decodificado, [url])
                      | inl e => (inl (ErroConsultarDecodificar e), [url])
                      end
                  | None => (inl (CampoXmlAusente (map fst dados)), [url])
                  end
              end
            else if status_code response =? 404
            then (inl (NaoEncontradaParaChave chave_acesso), [url])
            else if status_code response =? 403
            then (inl AcessoNegado403, [url])
            else if status_code response =? 401
            then (inl NaoAutorizado401, [url])
            else (inl (ErroHTTP (status_code response) (text response)),
                  [url])
        end
    end.

(** The dict [info] of [buscar_xml_nfse]. *)
Record info : Type := mkinfo {
  i_numero_nfse : string;
  i_id_dps : string;
  i_chave_acesso : string
}.

(** [buscar_xml_nfse]: the access key, then the document. *)
Definition buscar_xml_nfse (c : configuracao) (s : servico)
    (numero_nfse : string) : resultado * info * list string :=
  let '(r1, id_dps, pedidos1) := buscar_chave_acesso c s numero_nfse in
  match r1 with
  | inl m => (inl m, mkinfo numero_nfse id_dps "", pedidos1)
  | inr chave_acesso =>
      let '(r2, pedidos2) := consultar_nfse c s chave_acesso in
      (r2, mkinfo numero_nfse id_dps chave_acesso, pedidos1 ++ pedidos2)
  end.
End Consulta.

(** [response.content[:4] == b'%PDF'] *)
Definition comeca_com_pdf (conteudo : list Byte.byte) : bool :=
  match conteudo with
  | Byte.x25 :: Byte.x50 :: Byte.x44 :: Byte.x46 :: _ => true
  | _ => false
  end.

(** The body is announced or recognised as a PDF. *)
Definition e_pdf (r : resposta) : bool :=
  contem "application/pdf" (content_type r) || comeca_com_pdf (content r).

(** The exceptions of the disk the handlers tell apart. *)
Inductive erro_escrita : Type :=
| PermissionError
| OutroErro (e : string).

(** What saving the file meets. [os.makedirs] or [open] may raise,
    before any file is created. [open(caminho, 'wb')] creates the file,
    or empties the one that is there, before [f.write] is called: when
    [f.write] or the closing of the file raises, the file stays, holding
    [deixado], what had been written. *)
Inductive escrita : Type :=
| Escrito
| FalhaAntesDeAbrir (e : erro_escrita)
| FalhaAoEscrever (e : erro_escrita) (deixado : list Byte.byte).

Definition mensagem_escrita (e : erro_escrita) : mensagem :=
  match e with
  | PermissionError => ErroPermissaoPDF
  | OutroErro e => ErroBaixarPDF e
  end.

Section PDF.
Variable os_path_join : string -> string -> string.

(** [baixar_pdf_nfse]: the result, the requests sent, and the file the
    call leaves on the disk with its content, if any. *)
Definition baixar_pdf_nfse (c : configuracao) (s : servico) (w : escrita)
    (chave_acesso numero_nfse pasta_destino : string)
  : resultado * list string * option (string * list Byte.byte) :=
  if String.eqb chave_acesso "" then (inl ChaveNaoInformada, [], None)
  else if String.eqb (endpoint_pdf c) ""
  then (inl EndpointPDFNaoConfigurado, [], None)
  else
    match sessao s with
    | Some e => (inl (ErroBaixarPDF e), [], None)
    | None =>
        let url := (endpoint_pdf c ++ chave_acesso)%string in
        match get s url with
        | inl Timeout => (inl TimeoutPDF, [url], None)
        | inl (ConnectionError e) => (inl (ErroConexao e), [url], None)
        | inl (PermissionErrorHTTP e) => (inl ErroPermissaoPDF, [url], None)
        | inl (OutraExcecao e) => (inl (ErroBaixarPDF e), [url], None)
        | inr response =>
            if status_code response =? 200 then
              if e_pdf response then
                let pasta :=
                  if negb (String.eqb pasta_destino "") then pasta_destino
                  else pasta_download c in
                let nome_arquivo := ("NFSe_" ++ numero_nfse ++ ".pdf")%string in
                let caminho_completo := os_path_join pasta nome_arquivo in
                match w with
                | Escrito =>
                    (inr caminho_completo, [url],
                     Some (caminho_completo, content response))
                | FalhaAntesDeAbrir e =>
                    (inl (mensagem_escrita e), [url], None)
                | FalhaAoEscrever e deixado =>
                    (inl (mensagem_escrita e), [url],
                     Some (caminho_completo, deixado))
                end
              else (inl (RespostaNaoPDF (content_type response)), [url], None)
            else if status_code response =? 404
            then (inl (PDFNaoEncontrado chave_acesso), [url], None)
            else if status_code response =? 403
            then (inl AcessoNegado403PDF, [url], None)
            else if status_code response =? 401
            then (inl NaoAutorizado401, [url], None)
            else (inl (ErroHTTP (status_code response)
                                (fatia 0 200 (text response))),
                  [url], None)
        end
    end.
End PDF.

End NFSeFluxo.

(* ================================================================= *)
(** * Properties *)

(* ================================================================= *)
(** ** Text lemmas *)

Lemma chars_length (s : string) : List.length (chars s) = length s.
Proof. induction s as [|c s IH]; simpl; congruence. Qed.

Lemma chars_app (s t : string) : chars (s ++ t)%string = chars s ++ chars t.
Proof. induction s as [|c s IH]; simpl; congruence. Qed.

Lemma chars_inj (s t : string) : chars s = chars t -> s = t.
Proof.
  intros H.
  rewrite <- (string_of_list_ascii_of_string s).
  rewrite <- (string_of_list_ascii_of_string t).
  unfold chars in H. now rewrite H.
Qed.

Lemma chars_filtra (p : ascii -> bool) (s : string) :
  chars (filtra p s) = filter p (chars s).
Proof.
  induction s as [|c s IH]; simpl; [reflexivity|].
  destruct (p c); simpl; congruence.
Qed.

Lemma chars_substring (n m : nat) (s : string) :
  chars (substring n m s) = firstn m (skipn n (chars s)).
Proof.
  revert n m; induction s as [|c s IH]; intros [|n] [|m]; simpl;
    try reflexivity.
  - now rewrite (IH 0 m).
  - now rewrite (IH n 0).
  - now rewrite (IH n (S m)).
Qed.

Lemma chars_fatia (a b : nat) (s : string) :
  chars (fatia a b s) = firstn (b - a) (skipn a (chars s)).
Proof. apply chars_substring. Qed.

Lemma length_app (s t : string) :
  length (s ++ t)%string = length s + length t.
Proof. induction s as [|c s IH]; simpl; congruence. Qed.

Lemma length_zeros (n : nat) : length (zeros n) = n.
Proof. induction n; simpl; congruence. Qed.

Lemma length_fatia (a b : nat) (s : string) :
  b <= length s -> length (fatia a b s) = b - a.
Proof.
  intros H. rewrite <- chars_length, chars_fatia, length_firstn, length_skipn.
  rewrite chars_length. lia.
Qed.

Lemma fatia_tudo (b : nat) (s : string) : length s <= b -> fatia 0 b s = s.
Proof.
  intros H. apply chars_inj. rewrite chars_fatia. simpl.
  apply firstn_all2. rewrite chars_length. lia.
Qed.

Lemma prefix_substring (m : nat) (s : string) :
  prefix (substring 0 m s) s = true.
Proof.
  revert m; induction s as [|c s IH]; intros [|m]; simpl; try reflexivity.
  rewrite IH. now destruct (ascii_dec c c).
Qed.

Lemma contem_substring (n m : nat) (s : string) :
  contem (substring n m s) s = true.
Proof.
  revert n; induction s as [|c s IH]; intros n.
  - destruct n, m; reflexivity.
  - destruct n as [|n].
    + cbn [contem]. now rewrite prefix_substring.
    + change (substring (S n) m (String c s)) with (substring n m s).
      cbn [contem]. rewrite IH. apply orb_true_r.
Qed.

(** A filtered string starts with a character that passed the filter. *)
Lemma filtra_cabeca (p : ascii -> bool) (s : string) (c : ascii) (t : string) :
  filtra p s = String c t -> p c = true.
Proof.
  induction s as [|x s IH]; simpl; [discriminate|].
  destruct (p x) eqn:E; [|exact IH].
  intros H; injection H as -> _. exact E.
Qed.

Lemma length_zfill (w : nat) (s : string) :
  length (zfill w s) = Nat.max w (length s).
Proof.
  unfold zfill. destruct (w <=? length s) eqn:E.
  - apply Nat.leb_le in E. lia.
  - apply Nat.leb_gt in E. destruct s as [|c s].
    + rewrite length_zeros. simpl. lia.
    + destruct (Ascii.eqb c "+" || Ascii.eqb c "-")%bool; simpl in *;
        rewrite length_app, length_zeros; simpl; lia.
Qed.

(** On a string that does not start with a sign, [zfill] is plain left
    padding. *)
Lemma zfill_sem_sinal (w : nat) (s : string) :
  (forall c t, s = String c t ->
               (Ascii.eqb c "+" || Ascii.eqb c "-")%bool = false) ->
  zfill w s = NFSe.preencher_zeros w s.
Proof.
  intros H. unfold zfill, NFSe.preencher_zeros.
  destruct (w <=? length s) eqn:E.
  - apply Nat.leb_le in E. replace (w - length s) with 0 by lia. reflexivity.
  - destruct s as [|c s].
    + clear. generalize (zeros (w - length "")). intros z.
      induction z as [|c z IH]; simpl; congruence.
    + now rewrite (H c s eq_refl).
Qed.

Lemma isdigit_nao_sinal (c : ascii) :
  str_isdigit c = true -> (Ascii.eqb c "+" || Ascii.eqb c "-")%bool = false.
Proof.
  destruct (Ascii.eqb c "+") eqn:E1.
  - apply Ascii.eqb_eq in E1; subst; discriminate.
  - destruct (Ascii.eqb c "-") eqn:E2; [|reflexivity].
    apply Ascii.eqb_eq in E2; subst; discriminate.
Qed.

(* ================================================================= *)
(** ** DocumentKey and DocumentMatcher *)

Lemma so_digitos_chars (s : string) :
  chars (so_digitos s) = filter re_d (chars s).
Proof. apply chars_filtra. Qed.

Lemma so_digitos_length (s : string) :
  length (so_digitos s) = List.length (filter re_d (chars s)).
Proof. now rewrite <- chars_length, so_digitos_chars. Qed.

(** C5. The DocumentKey of a file name is the first 15 characters of its
    digit projection when the projection has at least 15 digits, and the
    whole projection otherwise. *)
Theorem numero_chave_primeiros_15 (nome : string) :
  let digitos := filter re_d (chars nome) in
  (15 <= List.length digitos ->
   chars (numero_chave nome) = firstn 15 digitos) /\
  (List.length digitos < 15 -> chars (numero_chave nome) = digitos).
Proof.
  intros digitos. unfold numero_chave.
  rewrite so_digitos_length. fold digitos. split; intros H.
  - apply Nat.leb_le in H. rewrite H.
    rewrite chars_fatia, so_digitos_chars. reflexivity.
  - apply Nat.leb_gt in H. rewrite H. apply so_digitos_chars.
Qed.

Lemma numero_chave_primeiros_15_witness :
  chars (numero_chave "010001000005909_v2.pdf")
  = firstn 15 (filter re_d (chars "010001000005909_v2.pdf")) /\
  chars (numero_chave "nf_123.pdf") = filter re_d (chars "nf_123.pdf").
Proof.
  split.
  - apply (proj1 (numero_chave_primeiros_15 "010001000005909_v2.pdf")).
    simpl. lia.
  - apply (proj2 (numero_chave_primeiros_15 "nf_123.pdf")).
    simpl. lia.
Defined.

(** The key is always a prefix of the digit projection, of at most 15
    characters. *)
Lemma numero_chave_fatia (nome : string) :
  numero_chave nome = fatia 0 15 (so_digitos nome).
Proof.
  unfold numero_chave. destruct (15 <=? length (so_digitos nome)) eqn:E;
    [reflexivity|].
  apply Nat.leb_gt in E. symmetry. apply fatia_tudo. lia.
Qed.

Lemma corresponde_literal_contem (numero_limpo nome : string) :
  corresponde true numero_limpo nome = true ->
  corresponde false numero_limpo nome = true.
Proof.
  unfold corresponde.
  destruct (15 <=? length (so_digitos nome)); [|exact (fun H => H)].
  intros H. apply String.eqb_eq in H. subst numero_limpo.
  apply contem_substring.
Qed.

(** The two searches keep the files that [casa] accepts. *)
Lemma buscar_boleto_In (arquivos : list arquivo) (numero : string)
    (literal : bool) (a : arquivo) :
  In a (buscar_boleto arquivos numero literal) <->
  In a arquivos /\ casa literal numero (snd (fst a)) = true.
Proof.
  unfold buscar_boleto, casa.
  destruct (String.eqb (so_digitos numero) ""); simpl.
  - intuition discriminate.
  - apply filter_In.
Qed.

Lemma filtrar_arquivos_In (arquivos : list arquivo) (numero_limpo : string)
    (literal : bool) (t : string) (h : hit) :
  In h (filtrar_arquivos arquivos numero_limpo literal t) <->
  In (caminho h, nome h, data_mod h) arquivos /\ t = tipo h /\
  corresponde literal numero_limpo (nome h) = true.
Proof.
  induction arquivos as [|[[c n] d] resto IH]; simpl.
  - tauto.
  - destruct (corresponde literal numero_limpo n) eqn:E; simpl; rewrite IH.
    + split.
      * intros [<-|H]; simpl; [tauto|]. tauto.
      * intros [[H|H] [Ht Hc]]; [|tauto].
        left. injection H as -> -> ->. subst t. now destruct h.
    + split; [tauto|]. intros [[H|H] [Ht Hc]]; [|tauto].
      injection H as -> -> ->. congruence.
Qed.

(** C3. Literal matching is a strict subset of non-literal matching: a
    file name that matches a requested number in literal mode matches it
    in non-literal mode, and some file name matches a number in
    non-literal mode only. *)
Theorem literal_subconjunto_estrito :
  (forall numero nome,
      casa true numero nome = true -> casa false numero nome = true) /\
  (exists numero nome,
      casa false numero nome = true /\ casa true numero nome = false).
Proof.
  split.
  - intros numero nome. unfold casa.
    destruct (negb (String.eqb (so_digitos numero) "")); simpl;
      [apply corresponde_literal_contem | discriminate].
  - exists "5909", "010001000005909.PDF". split; reflexivity.
Qed.

(** On the same server, every hit of the literal search is a hit of the
    non-literal search for the same number. *)
Lemma buscar_em_diretorio_literal_incl (conexao_ok : bool)
    (listagem : option (list arquivo)) (numero_limpo t : string) :
  incl (_buscar_em_diretorio conexao_ok listagem numero_limpo true t)
       (_buscar_em_diretorio conexao_ok listagem numero_limpo false t).
Proof.
  unfold _buscar_em_diretorio.
  destruct (negb conexao_ok); [apply incl_refl|].
  destruct listagem as [arquivos|]; [|apply incl_refl].
  intros h H. apply filtrar_arquivos_In in H. apply filtrar_arquivos_In.
  destruct H as (Ha & Ht & Hc).
  auto using corresponde_literal_contem.
Qed.

Lemma buscar_boleto_e_nf_literal_incl (c0 c1 c2 : bool)
    (listar : string -> option (list arquivo))
    (dir_boletos dir_nfs numero : string) :
  incl (buscar_boleto_e_nf c0 c1 c2 listar dir_boletos dir_nfs numero true)
       (buscar_boleto_e_nf c0 c1 c2 listar dir_boletos dir_nfs numero false).
Proof.
  unfold buscar_boleto_e_nf.
  destruct (negb c0); [apply incl_refl|].
  destruct (String.eqb (so_digitos numero) ""); [apply incl_refl|].
  apply incl_app_app; [apply buscar_em_diretorio_literal_incl|].
  destruct (String.eqb dir_nfs "");
    [apply incl_refl|apply buscar_em_diretorio_literal_incl].
Qed.

Lemma literal_subconjunto_estrito_witness :
  casa true "000005909" "010001000005909.PDF" = true /\
  casa false "000005909" "010001000005909.PDF" = true.
Proof.
  split; [reflexivity|].
  apply (proj1 literal_subconjunto_estrito "000005909" "010001000005909.PDF").
  reflexivity.
Defined.

(** C9. In literal mode a file name with at least 15 digits matches
    exactly when the sanitised number has 9 digits and equals positions 6
    to 14 of the digit projection of the name; a number of another length
    never matches it, the containment test being kept for names with fewer
    than 15 digits. *)
Theorem literal_posicoes_6_a_14 (numero_limpo nome : string) :
  (15 <= length (so_digitos nome) ->
   (corresponde true numero_limpo nome = true <->
    length numero_limpo = 9 /\
    chars numero_limpo = firstn 9 (skipn 6 (chars (so_digitos nome)))) /\
   (length numero_limpo <> 9 -> corresponde true numero_limpo nome = false)) /\
  (length (so_digitos nome) < 15 ->
   corresponde true numero_limpo nome
   = contem numero_limpo (so_digitos nome)).
Proof.
  unfold corresponde. split; intros H.
  - apply Nat.leb_le in H. rewrite H. apply Nat.leb_le in H.
    assert (L : length (fatia 6 15 (so_digitos nome)) = 9)
      by (rewrite length_fatia; lia).
    assert (E : String.eqb (fatia 6 15 (so_digitos nome)) numero_limpo = true
                <-> length numero_limpo = 9 /\
                    chars numero_limpo
                    = firstn 9 (skipn 6 (chars (so_digitos nome)))).
    { rewrite String.eqb_eq. split.
      - intros <-. split; [exact L|]. apply chars_fatia.
      - intros [_ Hc]. apply chars_inj. now rewrite Hc, chars_fatia. }
    split; [exact E|].
    intros Hn. apply not_true_is_false. intros Ht. apply E in Ht. tauto.
  - apply Nat.leb_gt in H. now rewrite H.
Qed.

Lemma literal_posicoes_6_a_14_witness :
  corresponde true "000005909" "010001000005909.PDF" = true /\
  corresponde true "5909" "010001000005909.PDF" = false /\
  corresponde true "5909" "5909.pdf" = contem "5909" (so_digitos "5909.pdf").
Proof.
  assert (H15 : 15 <= length (so_digitos "010001000005909.PDF"))
    by (simpl; lia).
  split; [|split].
  - apply (proj1 (proj1 (literal_posicoes_6_a_14 "000005909"
                           "010001000005909.PDF") H15)).
    split; reflexivity.
  - apply (proj2 (proj1 (literal_posicoes_6_a_14 "5909"
                           "010001000005909.PDF") H15)).
    simpl. lia.
  - apply (proj2 (literal_posicoes_6_a_14 "5909" "5909.pdf")).
    simpl. lia.
Defined.

(** The number typed by the user, once formatted for the literal search,
    matches a name of at least 15 digits exactly on the zero-filled
    positions 6 to 14. *)
Lemma formatar_numero_boleto_exemplo :
  formatar_numero_boleto "5909" = "000005909" /\
  casa true (formatar_numero_boleto "5909") "010001000005909.PDF" = true.
Proof. split; reflexivity. Qed.

(* ================================================================= *)
(** ** Request identifier *)

Lemma zfill_so_isdigit (w : nat) (numero : string) :
  zfill w (so_isdigit numero) = NFSe.preencher_zeros w (so_isdigit numero).
Proof.
  apply zfill_sem_sinal. intros c t H.
  apply isdigit_nao_sinal. exact (filtra_cabeca _ _ _ _ H).
Qed.

Lemma zfill_nao_vazio (w : nat) (s : string) : s <> "" -> zfill w s <> "".
Proof.
  intros Hs Hz. apply (f_equal length) in Hz. rewrite length_zfill in Hz.
  destruct s; [congruence|]. simpl in Hz. lia.
Qed.

(** C7. The request identifier is the configured prefix followed by the
    digit projection of the number, zero-padded to 17 digits; the
    construction gives the empty result exactly when the digit projection
    is empty; the number 29 gives the prefix followed by
    00000000000000029. *)
Theorem construir_id_dps_correto (prefixo numero : string) :
  (so_isdigit numero <> "" ->
   NFSe.construir_id_dps prefixo numero
   = (prefixo ++ NFSe.preencher_zeros 17 (so_isdigit numero))%string) /\
  (NFSe.construir_id_dps prefixo numero = "" <-> so_isdigit numero = "") /\
  NFSe.construir_id_dps prefixo "29"
  = (prefixo ++ "00000000000000029")%string.
Proof.
  unfold NFSe.construir_id_dps, NFSe.formatar_numero_nfse.
  destruct (String.eqb (so_isdigit numero) "") eqn:E.
  - apply String.eqb_eq in E. rewrite E. simpl.
    split; [congruence|]. split; [tauto|reflexivity].
  - apply String.eqb_neq in E.
    pose proof (zfill_nao_vazio 17 _ E) as Hz.
    apply String.eqb_neq in Hz. rewrite Hz. apply String.eqb_neq in Hz.
    split; [now rewrite zfill_so_isdigit|]. split; [|reflexivity].
    split; [|congruence]. intros Hp. exfalso.
    apply (f_equal length) in Hp. rewrite length_app, length_zfill in Hp.
    change (length "") with 0 in Hp. lia.
Qed.

Lemma construir_id_dps_correto_witness :
  NFSe.construir_id_dps "DPS4205407247791668000249009" "NF 29"
  = "DPS420540724779166800024900900000000000000029" /\
  NFSe.construir_id_dps "DPS4205407247791668000249009" "NF-e" = "".
Proof.
  split.
  - apply (proj1 (construir_id_dps_correto "DPS4205407247791668000249009"
                    "NF 29")).
    discriminate.
  - apply (proj2 (proj1 (proj2 (construir_id_dps_correto
                                  "DPS4205407247791668000249009" "NF-e")))).
    reflexivity.
Defined.

(* ================================================================= *)
(** ** Order on datetimes *)

Lemma lex_compare_refl (a : list Z) : lex_compare a a = Eq.
Proof. induction a as [|x a IH]; simpl; [|rewrite Z.compare_refl]; auto. Qed.

Lemma lex_compare_antisym (a b : list Z) :
  lex_compare b a = CompOpp (lex_compare a b).
Proof.
  revert b; induction a as [|x a IH]; intros [|y b]; simpl; auto.
  rewrite (Z.compare_antisym x y).
  destruct (x ?= y)%Z; simpl; auto.
Qed.

Lemma lex_compare_trans (a b c : list Z) :
  lex_compare a b <> Gt -> lex_compare b c = Lt -> lex_compare a c = Lt.
Proof.
  revert b c; induction a as [|x a IH]; intros [|y b] [|z c]; simpl;
    try congruence.
  destruct (Z.compare_spec x y), (Z.compare_spec y z), (Z.compare_spec x z);
    try congruence; try lia; eauto.
Qed.

Lemma lex_compare_trans' (a b c : list Z) :
  lex_compare a b = Lt -> lex_compare b c <> Gt -> lex_compare a c = Lt.
Proof.
  revert b c; induction a as [|x a IH]; intros [|y b] [|z c]; simpl;
    try congruence.
  destruct (Z.compare_spec x y), (Z.compare_spec y z), (Z.compare_spec x z);
    try congruence; try lia; eauto.
Qed.

Lemma dt_leb_ltb (a b : datetime) : dt_leb a b = negb (dt_ltb b a).
Proof.
  unfold dt_leb, dt_ltb, dt_compare.
  rewrite (lex_compare_antisym (dt_campos a) (dt_campos b)).
  now destruct (lex_compare (dt_campos a) (dt_campos b)).
Qed.

Lemma dt_leb_refl (a : datetime) : dt_leb a a = true.
Proof. unfold dt_leb, dt_compare. now rewrite lex_compare_refl. Qed.

Lemma dt_ltb_leb (a b : datetime) : dt_ltb a b = true -> dt_leb a b = true.
Proof. unfold dt_leb, dt_ltb. now destruct (dt_compare a b). Qed.

Lemma dt_leb_ltb_trans (a b c : datetime) :
  dt_leb a b = true -> dt_ltb b c = true -> dt_ltb a c = true.
Proof.
  unfold dt_leb, dt_ltb, dt_compare. intros H1 H2.
  rewrite (lex_compare_trans _ (dt_campos b)); auto.
  - destruct (lex_compare (dt_campos a) (dt_campos b)); congruence.
  - destruct (lex_compare (dt_campos b) (dt_campos c)); congruence.
Qed.

Lemma dt_ltb_leb_trans (a b c : datetime) :
  dt_ltb a b = true -> dt_leb b c = true -> dt_ltb a c = true.
Proof.
  unfold dt_leb, dt_ltb, dt_compare. intros H1 H2.
  rewrite (lex_compare_trans' _ (dt_campos b)); auto.
  - destruct (lex_compare (dt_campos a) (dt_campos b)); congruence.
  - destruct (lex_compare (dt_campos b) (dt_campos c)); congruence.
Qed.

Lemma dt_leb_trans (a b c : datetime) :
  dt_leb a b = true -> dt_leb b c = true -> dt_leb a c = true.
Proof.
  intros H1 H2. rewrite dt_leb_ltb. apply negb_true_iff.
  destruct (dt_ltb c a) eqn:E; [|reflexivity].
  pose proof (dt_leb_ltb_trans _ _ _ H2 E) as H.
  rewrite dt_leb_ltb, H in H1. discriminate.
Qed.

Lemma dt_ltb_irrefl (a : datetime) : dt_ltb a a = false.
Proof. unfold dt_ltb, dt_compare. now rewrite lex_compare_refl. Qed.

(* ================================================================= *)
(** ** The stable sort *)

Section SortFacts.
Context {A : Type} (ltb : A -> A -> bool).

(** [a] may stand before [b]. *)
Let ordem (a b : A) : Prop := ltb b a = false.

Lemma inserir_perm (x : A) (l : list A) :
  Permutation (inserir ltb x l) (x :: l).
Proof.
  induction l as [|y l IH]; simpl; [reflexivity|].
  destruct (ltb y x); [|reflexivity].
  rewrite IH. apply perm_swap.
Qed.

Lemma ordenar_perm (l : list A) : Permutation (ordenar ltb l) l.
Proof.
  induction l as [|x l IH]; simpl; [reflexivity|].
  rewrite inserir_perm. now constructor.
Qed.

Lemma ordenar_reverso_perm (l : list A) :
  Permutation (ordenar_reverso ltb l) l.
Proof.
  unfold ordenar_reverso.
  rewrite <- Permutation_rev, ordenar_perm. symmetry. apply Permutation_rev.
Qed.

(** A list already in order is left as it is. *)
Lemma ordenar_ordenada (l : list A) : Sorted ordem l -> ordenar ltb l = l.
Proof.
  induction 1 as [|x l Hs IH Hd]; simpl; [reflexivity|].
  rewrite IH. destruct Hd as [|y l' Hxy]; simpl; [reflexivity|].
  unfold ordem in Hxy. now rewrite Hxy.
Qed.

Hypothesis ltb_asym : forall a b, ltb a b = true -> ltb b a = false.

Lemma inserir_sorted (x : A) (l : list A) :
  Sorted ordem l -> Sorted ordem (inserir ltb x l).
Proof.
  induction 1 as [|y l Hs IH Hd]; simpl.
  - repeat constructor.
  - destruct (ltb y x) eqn:E.
    + constructor; [exact IH|].
      destruct Hd as [|z l' Hyz]; simpl.
      * constructor. unfold ordem. auto.
      * destruct (ltb z x); constructor; unfold ordem; auto.
    + constructor; [now constructor|]. constructor. exact E.
Qed.

Lemma ordenar_sorted (l : list A) : Sorted ordem (ordenar ltb l).
Proof.
  induction l as [|x l IH]; simpl; [constructor|].
  now apply inserir_sorted.
Qed.

Hypothesis ltb_neg_trans :
  forall a b c, ltb a c = true -> ltb a b = true \/ ltb b c = true.

Lemma inserir_estavel (z x : A) (l : list A) :
  filter (mesma_chave ltb z) (inserir ltb x l)
  = filter (mesma_chave ltb z) (x :: l).
Proof.
  induction l as [|y l IH]; [reflexivity|].
  cbn [inserir]. destruct (ltb y x) eqn:E; [|reflexivity].
  cbn [filter] in *. rewrite IH.
  destruct (mesma_chave ltb z x) eqn:Ex, (mesma_chave ltb z y) eqn:Ey;
    try reflexivity.
  exfalso. unfold mesma_chave in Ex, Ey.
  apply andb_true_iff in Ex, Ey.
  destruct Ex as [Ex1 Ex2], Ey as [Ey1 Ey2].
  apply negb_true_iff in Ex1, Ex2, Ey1, Ey2.
  destruct (ltb_neg_trans y z x E); congruence.
Qed.

(** The sort is stable: hits of equal keys stay in their order. *)
Lemma ordenar_estavel (z : A) (l : list A) :
  filter (mesma_chave ltb z) (ordenar ltb l) = filter (mesma_chave ltb z) l.
Proof.
  induction l as [|x l IH]; [reflexivity|].
  cbn [ordenar]. rewrite inserir_estavel. cbn [filter]. now rewrite IH.
Qed.

Lemma ordenar_reverso_estavel (z : A) (l : list A) :
  filter (mesma_chave ltb z) (ordenar_reverso ltb l)
  = filter (mesma_chave ltb z) l.
Proof.
  unfold ordenar_reverso.
  rewrite filter_rev, ordenar_estavel, filter_rev. apply rev_involutive.
Qed.
End SortFacts.

Lemma string_compare_trans (a b c : string) :
  String.compare a b <> Gt -> String.compare b c = Lt ->
  String.compare a c = Lt.
Proof.
  revert b c; induction a as [|x a IH]; intros [|y b] [|z c]; simpl;
    try congruence.
  unfold Ascii.compare.
  destruct (N.compare_spec (N_of_ascii x) (N_of_ascii y)) as [E1|L1|G1],
           (N.compare_spec (N_of_ascii y) (N_of_ascii z)) as [E2|L2|G2],
           (N.compare_spec (N_of_ascii x) (N_of_ascii z)) as [E3|L3|G3];
    try congruence; try lia; eauto.
Qed.

Lemma string_ltb_neg_trans (a b c : string) :
  String.ltb a c = true -> String.ltb a b = true \/ String.ltb b c = true.
Proof.
  unfold String.ltb. intros H.
  destruct (String.compare a b) eqn:E; auto; right.
  - apply String.compare_eq_iff in E. subst. exact H.
  - rewrite (string_compare_trans b a c); auto.
    + rewrite String.compare_antisym, E. discriminate.
    + now destruct (String.compare a c).
Qed.

Lemma ordem_ltb_neg_trans (a b c : hit) :
  ordem_ltb a c = true -> ordem_ltb a b = true \/ ordem_ltb b c = true.
Proof.
  unfold ordem_ltb. intros H. apply orb_true_iff in H.
  rewrite !orb_true_iff, !andb_true_iff, !Nat.ltb_lt, !Nat.eqb_eq.
  rewrite andb_true_iff, Nat.ltb_lt, Nat.eqb_eq in H.
  destruct H as [H|[H1 H2]].
  - destruct (lt_eq_lt_dec (ordem_tipo a) (ordem_tipo b)) as [[L|E]|G];
      auto.
    + right. left. lia.
    + right. left. lia.
  - destruct (lt_eq_lt_dec (ordem_tipo a) (ordem_tipo b)) as [[L|E]|G];
      auto.
    + destruct (string_ltb_neg_trans _ (nome b) _ H2); auto.
      right. right. split; [lia|assumption].
    + right. left. lia.
Qed.

(** Within a group, hits of equal sort keys keep the order in which the
    second loop met them. *)
Lemma ordenar_grupo_estavel (z : hit) (membros : list hit) :
  filter (mesma_chave ordem_ltb z) (ordenar ordem_ltb membros)
  = filter (mesma_chave ordem_ltb z) membros.
Proof. apply ordenar_estavel. apply ordem_ltb_neg_trans. Qed.

Lemma StronglySorted_app {A} (R : A -> A -> Prop) (l1 l2 : list A) :
  StronglySorted R l1 -> StronglySorted R l2 ->
  (forall a b, In a l1 -> In b l2 -> R a b) ->
  StronglySorted R (l1 ++ l2).
Proof.
  induction 1 as [|x l1 Hs IH Hf]; intros H2 H; simpl; [exact H2|].
  constructor.
  - apply IH; [exact H2|]. intros a b Ha Hb. apply H; simpl; auto.
  - apply Forall_app. split; [exact Hf|].
    apply Forall_forall. intros b Hb. apply H; simpl; auto.
Qed.

Lemma StronglySorted_rev {A} (R : A -> A -> Prop) (l : list A) :
  StronglySorted R l -> StronglySorted (fun a b => R b a) (rev l).
Proof.
  induction 1 as [|x l Hs IH Hf]; simpl; [constructor|].
  apply StronglySorted_app; [exact IH|repeat constructor|].
  intros a b Ha [<-|[]]. rewrite Forall_forall in Hf.
  apply Hf. now apply in_rev.
Qed.

(* ================================================================= *)
(** ** Date search *)

Lemma filter_map_marcar (t : string) (inicio fim : datetime)
    (l : list arquivo) :
  map (marcar t) (filter (no_periodo inicio fim) l)
  = filter (dentro inicio fim) (map (marcar t) l).
Proof.
  induction l as [|a l IH]; simpl; [reflexivity|].
  unfold dentro at 1, no_periodo at 1. simpl.
  destruct (dt_leb inicio (snd a) && dt_leb (snd a) fim); simpl; congruence.
Qed.

Lemma ordenar_reverso_data (l : list hit) :
  StronglySorted mais_recente_antes (ordenar_reverso data_ltb l).
Proof.
  unfold ordenar_reverso.
  apply (StronglySorted_rev (fun a b => mais_recente_antes b a)).
  apply Sorted_StronglySorted.
  - intros a b c. unfold mais_recente_antes. apply dt_leb_trans.
  - eapply Sorted_ind with (P := Sorted (fun a b => mais_recente_antes b a));
      [constructor| |apply (ordenar_sorted data_ltb)].
    + intros a l0 _ IH Hd. constructor; [exact IH|].
      destruct Hd as [|b l1 Hab]; constructor.
      unfold mais_recente_antes, data_ltb in *.
      rewrite dt_leb_ltb. now rewrite Hab.
    + intros a b. unfold data_ltb. intros H.
      apply dt_ltb_leb in H. rewrite dt_leb_ltb in H.
      now apply negb_true_iff in H.
Qed.

Lemma data_ltb_neg_trans (a b c : hit) :
  data_ltb a c = true -> data_ltb a b = true \/ data_ltb b c = true.
Proof.
  unfold data_ltb. intros H.
  destruct (dt_ltb (data_mod a) (data_mod b)) eqn:E; [auto|right].
  apply (dt_leb_ltb_trans _ (data_mod a)); [|exact H].
  rewrite dt_leb_ltb, E. reflexivity.
Qed.

(** Entries modified at the same time come out in the order of the walk. *)
Lemma ordenar_reverso_data_estavel (z : hit) (l : list hit) :
  filter (mesma_chave data_ltb z) (ordenar_reverso data_ltb l)
  = filter (mesma_chave data_ltb z) l.
Proof. apply ordenar_reverso_estavel. apply data_ltb_neg_trans. Qed.

Lemma map_marcar (t : string) (l : list arquivo) :
  map (marcar t) l
  = map (fun a : arquivo =>
           let '(caminho, nome, data_mod) := a in
           mkhit caminho nome data_mod t) l.
Proof. apply map_ext. now intros [[c n] d]. Qed.

(** C10. The date search returns exactly the walked entries whose
    modification time lies between the start date set to 00:00:00 and the
    end date set to 23:59:59, both ends included, most recent first: the
    result holds, each once, the path, the name and the time of every
    entry of the walk of the invoice directory inside the period, typed
    BOLETO, and, when a directory of tax documents is configured, of
    every entry of its walk inside the period, typed NF. *)
Theorem buscar_por_data_correto (conexao_ok : bool)
    (listar : string -> list arquivo) (dir_boletos dir_nfs : string)
    (data_inicio data_fim : datetime) :
  let inicio :=
    mkdt (year data_inicio) (month data_inicio) (day data_inicio)
         0 0 0 (microsecond data_inicio) in
  let fim :=
    mkdt (year data_fim) (month data_fim) (day data_fim)
         23 59 59 (microsecond data_fim) in
  let resultados :=
    buscar_por_data conexao_ok listar dir_boletos dir_nfs
                    data_inicio data_fim in
  let percorridos :=
    if conexao_ok then
      map (fun a : arquivo =>
             let '(caminho, nome, data_mod) := a in
             mkhit caminho nome data_mod "BOLETO") (listar dir_boletos)
      ++ (if String.eqb dir_nfs "" then []
          else map (fun a : arquivo =>
                      let '(caminho, nome, data_mod) := a in
                      mkhit caminho nome data_mod "NF") (listar dir_nfs))
    else [] in
  Permutation resultados
    (filter (fun h => dt_leb inicio (data_mod h) && dt_leb (data_mod h) fim)
            percorridos) /\
  StronglySorted (fun a b => dt_leb (data_mod b) (data_mod a) = true)
                 resultados.
Proof.
  intros inicio fim resultados percorridos.
  subst resultados percorridos.
  unfold buscar_por_data.
  fold inicio fim. change (replace_hms data_fim 23 59 59) with fim.
  change (replace_hms data_inicio 0 0 0) with inicio.
  change (fun h => dt_leb inicio (data_mod h) && dt_leb (data_mod h) fim)
    with (dentro inicio fim).
  destruct conexao_ok; simpl; [|split; constructor].
  split; [|apply ordenar_reverso_data].
  rewrite ordenar_reverso_perm, <- !map_marcar.
  destruct (String.eqb dir_nfs "").
  - rewrite app_nil_r, filter_map_marcar. reflexivity.
  - rewrite filter_app, !filter_map_marcar. reflexivity.
Qed.

Lemma buscar_por_data_correto_witness :
  let d1 := mkdt 2024 1 1 10 30 0 0 in
  let d2 := mkdt 2024 2 1 23 59 59 0 in
  let d3 := mkdt 2024 2 2 0 0 0 0 in
  let listar := fun d =>
    if String.eqb d "/boletos"
    then [("/boletos/a.pdf", "a.pdf", d1); ("/boletos/b.pdf", "b.pdf", d3)]
    else [("/nfs/c.pdf", "c.pdf", d2)] in
  let resultados :=
    buscar_por_data true listar "/boletos" "/nfs"
                    (mkdt 2024 1 1 12 0 0 0) (mkdt 2024 2 1 8 0 0 0) in
  Permutation resultados
              [mkhit "/boletos/a.pdf" "a.pdf" d1 "BOLETO";
               mkhit "/nfs/c.pdf" "c.pdf" d2 "NF"] /\
  StronglySorted (fun a b => dt_leb (data_mod b) (data_mod a) = true)
                 resultados.
Proof.
  intros d1 d2 d3 listar resultados.
  exact (buscar_por_data_correto true listar "/boletos" "/nfs"
           (mkdt 2024 1 1 12 0 0 0) (mkdt 2024 2 1 8 0 0 0)).
Defined.

Lemma buscar_por_data_exemplo :
  let d1 := mkdt 2024 1 1 10 30 0 0 in
  let d2 := mkdt 2024 2 1 23 59 59 0 in
  let d3 := mkdt 2024 2 2 0 0 0 0 in
  let listar := fun d =>
    if String.eqb d "/boletos"
    then [("/boletos/a.pdf", "a.pdf", d1); ("/boletos/b.pdf", "b.pdf", d3)]
    else [("/nfs/c.pdf", "c.pdf", d2)] in
  buscar_por_data true listar "/boletos" "/nfs"
                  (mkdt 2024 1 1 12 0 0 0) (mkdt 2024 2 1 8 0 0 0)
  = [mkhit "/nfs/c.pdf" "c.pdf" d2 "NF";
     mkhit "/boletos/a.pdf" "a.pdf" d1 "BOLETO"].
Proof. reflexivity. Qed.

(* ================================================================= *)
(** ** Insertion-ordered dictionaries *)

Section DictFacts.
Context {K V : Type} (K_dec : forall x y : K, {x = y} + {x <> y}).
Implicit Types (k : K) (v : V) (d : list (K * V)).

Lemma dict_get_set_eq k v d : dict_get K_dec k (dict_set K_dec k v d) = Some v.
Proof.
  induction d as [|[k' v'] d IH]; simpl.
  - now destruct (K_dec k k).
  - destruct (K_dec k k') as [E|E]; simpl; destruct (K_dec k k'); tauto.
Qed.

Lemma dict_get_set_neq k k' v d :
  k <> k' -> dict_get K_dec k (dict_set K_dec k' v d) = dict_get K_dec k d.
Proof.
  intros N. induction d as [|[k0 v0] d IH]; simpl.
  - now destruct (K_dec k k').
  - destruct (K_dec k' k0) as [E|E]; simpl; destruct (K_dec k k0); auto;
      congruence.
Qed.

Lemma dict_get_None k d :
  dict_get K_dec k d = None <-> ~ In k (map fst d).
Proof.
  induction d as [|[k' v'] d IH]; simpl; [tauto|].
  destruct (K_dec k k') as [E|E].
  - split; [discriminate|]. intros H. exfalso. auto.
  - rewrite IH. split; [|tauto]. intros H [H'|H']; congruence.
Qed.

Lemma dict_get_In k v d : dict_get K_dec k d = Some v -> In (k, v) d.
Proof.
  induction d as [|[k' v'] d IH]; simpl; [discriminate|].
  destruct (K_dec k k') as [E|E]; [|auto].
  intros H. injection H as ->. subst. auto.
Qed.

Lemma dict_get_NoDup k v d :
  NoDup (map fst d) -> In (k, v) d -> dict_get K_dec k d = Some v.
Proof.
  induction d as [|[k' v'] d IH]; simpl; [tauto|].
  intros Hn [H|H].
  - injection H as -> ->. now destruct (K_dec k k).
  - inversion Hn as [|? ? Hk Hd]; subst.
    destruct (K_dec k k') as [E|E]; [|auto].
    subst k'. exfalso. apply Hk. apply (in_map fst) in H. exact H.
Qed.

Lemma dict_set_novo k v d :
  ~ In k (map fst d) -> dict_set K_dec k v d = d ++ [(k, v)].
Proof.
  induction d as [|[k' v'] d IH]; simpl; [reflexivity|].
  intros H. destruct (K_dec k k') as [E|E]; [exfalso; auto|].
  rewrite IH; auto.
Qed.

Lemma dict_set_chaves k v d :
  In k (map fst d) -> map fst (dict_set K_dec k v d) = map fst d.
Proof.
  induction d as [|[k' v'] d IH]; simpl; [tauto|].
  destruct (K_dec k k') as [E|E]; simpl; [reflexivity|].
  intros [H|H]; [congruence|]. now rewrite IH.
Qed.

Lemma dict_set_NoDup k v d :
  NoDup (map fst d) -> NoDup (map fst (dict_set K_dec k v d)).
Proof.
  intros H. destruct (in_dec K_dec k (map fst d)) as [I|I].
  - now rewrite dict_set_chaves.
  - rewrite dict_set_novo, map_app by exact I. simpl.
    apply NoDup_app; [exact H|repeat constructor; simpl; tauto|].
    intros a Ha [<-|[]]. auto.
Qed.

Lemma dict_set_In k v k' v' d :
  In (k', v') (dict_set K_dec k v d) ->
  (k' = k /\ v' = v) \/ In (k', v') d.
Proof.
  induction d as [|[k0 v0] d IH]; simpl.
  - intros [H|[]]. injection H as <- <-. auto.
  - destruct (K_dec k k0) as [E|E]; simpl.
    + subst k0. intros [H|H]; [injection H as <- <-|]; auto.
    + intros [H|H]; [auto|]. destruct (IH H) as [?|?]; auto.
Qed.
Lemma dict_set_chaves_In k v k' d :
  In k' (map fst (dict_set K_dec k v d)) <-> k' = k \/ In k' (map fst d).
Proof.
  induction d as [|[k0 v0] d IH]; simpl; [intuition|].
  destruct (K_dec k k0) as [E|E]; simpl; [subst; intuition|].
  rewrite IH. intuition.
Qed.
End DictFacts.

(* ================================================================= *)
(** ** Grouper, first loop: the most recent hit of each pair *)

Lemma mais_recentes_snoc (l : list hit) (x : hit) :
  mais_recentes (l ++ [x]) = passo_mais_recente (mais_recentes l) x.
Proof. unfold mais_recentes. now rewrite fold_left_app. Qed.

Lemma passo_mais_recente_NoDup (mr : list (chave_unica * hit)) (x : hit) :
  NoDup (map fst mr) -> NoDup (map fst (passo_mais_recente mr x)).
Proof.
  intros H. unfold passo_mais_recente.
  destruct (dict_get chave_unica_dec (chave_de x) mr) as [atual|];
    [destruct (dt_gtb (data_mod x) (data_mod atual))|];
    auto using dict_set_NoDup.
Qed.

Lemma mais_recentes_NoDup (l : list hit) : NoDup (map fst (mais_recentes l)).
Proof.
  induction l as [|x l IH] using rev_ind; [constructor|].
  rewrite mais_recentes_snoc. now apply passo_mais_recente_NoDup.
Qed.

Lemma mais_recentes_chave (l : list hit) (k : chave_unica) (h : hit) :
  In (k, h) (mais_recentes l) -> chave_de h = k.
Proof.
  revert k h. induction l as [|x l IH] using rev_ind; intros k h;
    [intros []|].
  rewrite mais_recentes_snoc. unfold passo_mais_recente.
  destruct (dict_get chave_unica_dec (chave_de x) (mais_recentes l))
    as [atual|];
    [destruct (dt_gtb (data_mod x) (data_mod atual))|]; auto;
    intros H; apply dict_set_In in H; destruct H as [[-> ->]|H]; auto.
Qed.

Lemma primeiro_todos_leb (l : list hit) (k : chave_unica) (h h' : hit) :
  primeiro_mais_recente l k h -> In h' l -> chave_de h' = k ->
  dt_leb (data_mod h') (data_mod h) = true.
Proof.
  intros (l1 & l2 & -> & Hk & H1 & H2) Hin Hk'.
  apply in_app_or in Hin. destruct Hin as [Hin|[<-|Hin]].
  - apply dt_ltb_leb. auto.
  - apply dt_leb_refl.
  - auto.
Qed.

Lemma primeiro_In (l : list hit) (k : chave_unica) (h : hit) :
  primeiro_mais_recente l k h -> In h l /\ chave_de h = k.
Proof.
  intros (l1 & l2 & -> & Hk & _). split; [|exact Hk].
  apply in_or_app. simpl. auto.
Qed.

Lemma primeiro_estende (l : list hit) (k : chave_unica) (h x : hit) :
  primeiro_mais_recente l k h ->
  (chave_de x = k -> dt_leb (data_mod x) (data_mod h) = true) ->
  primeiro_mais_recente (l ++ [x]) k h.
Proof.
  intros (l1 & l2 & -> & Hk & H1 & H2) Hx.
  exists l1, (l2 ++ [x]). rewrite <- app_assoc. simpl.
  repeat split; auto.
  intros h' Hin. apply in_app_or in Hin. destruct Hin as [Hin|[<-|[]]]; auto.
Qed.

Lemma primeiro_novo (l : list hit) (x : hit) :
  (forall h', In h' l -> chave_de h' = chave_de x ->
              dt_ltb (data_mod h') (data_mod x) = true) ->
  primeiro_mais_recente (l ++ [x]) (chave_de x) x.
Proof.
  intros H. exists l, []. repeat split; auto; intros h' [].
Qed.

(** The first latest hit of a pair is unique. *)
Lemma primeiro_unico (l : list hit) (k : chave_unica) (h h' : hit) :
  primeiro_mais_recente l k h -> primeiro_mais_recente l k h' -> h = h'.
Proof.
  intros (l1 & l2 & E & Hk & H1 & H2) (l1' & l2' & E' & Hk' & H1' & H2').
  subst l. revert l1' E' H1 H1'.
  induction l1 as [|a l1 IH]; intros [|a' l1'] E' H1 H1'; simpl in E'.
  - now injection E'.
  - injection E' as <- E'. exfalso.
    assert (L : dt_ltb (data_mod h) (data_mod h') = true)
      by (apply H1'; simpl; auto).
    assert (G : dt_leb (data_mod h') (data_mod h) = true).
    { apply H2; [|exact Hk']. rewrite E'. apply in_or_app. simpl. auto. }
    rewrite dt_leb_ltb, L in G. discriminate.
  - injection E' as -> E'. exfalso.
    assert (L : dt_ltb (data_mod h') (data_mod h) = true)
      by (apply H1; simpl; auto).
    assert (G : dt_leb (data_mod h) (data_mod h') = true).
    { apply H2'; [|exact Hk]. rewrite <- E'. apply in_or_app. simpl. auto. }
    rewrite dt_leb_ltb, L in G. discriminate.
  - injection E' as -> E'. apply (IH l1' E').
    + intros h0 Hin Hk0. apply H1; simpl; auto.
    + intros h0 Hin Hk0. apply H1'; simpl; auto.
Qed.

(** After the first loop the dictionary holds, for each pair present in
    the input, the first of its latest hits, and nothing for the others. *)
Lemma mais_recentes_get (l : list hit) (k : chave_unica) :
  match dict_get chave_unica_dec k (mais_recentes l) with
  | Some h => primeiro_mais_recente l k h
  | None => forall h, In h l -> chave_de h <> k
  end.
Proof.
  revert k. induction l as [|x l IH] using rev_ind; intros k;
    [simpl; tauto|].
  rewrite mais_recentes_snoc. unfold passo_mais_recente.
  pose proof (IH (chave_de x)) as IHx. pose proof (IH k) as IHk.
  assert (Outro : chave_de x <> k ->
            match dict_get chave_unica_dec k (mais_recentes l) with
            | Some h => primeiro_mais_recente (l ++ [x]) k h
            | None => forall h, In h (l ++ [x]) -> chave_de h <> k
            end).
  { intros N. destruct (dict_get chave_unica_dec k (mais_recentes l)).
    - apply primeiro_estende; [exact IHk|tauto].
    - intros h Hin. apply in_app_or in Hin.
      destruct Hin as [Hin|[<-|[]]]; auto. }
  destruct (dict_get chave_unica_dec (chave_de x) (mais_recentes l))
    as [atual|] eqn:G.
  - destruct (dt_gtb (data_mod x) (data_mod atual)) eqn:D.
    + destruct (chave_unica_dec k (chave_de x)) as [->|N].
      * rewrite dict_get_set_eq. apply primeiro_novo.
        intros h' Hin Hk. unfold dt_gtb in D.
        eapply dt_leb_ltb_trans; [|exact D].
        eapply primeiro_todos_leb; eauto.
      * rewrite dict_get_set_neq by exact N. apply Outro. congruence.
    + destruct (chave_unica_dec k (chave_de x)) as [->|N].
      * rewrite G. apply primeiro_estende; [exact IHx|].
        intros _. unfold dt_gtb in D. rewrite dt_leb_ltb, D. reflexivity.
      * apply Outro. congruence.
  - destruct (chave_unica_dec k (chave_de x)) as [->|N].
    + rewrite dict_get_set_eq. apply primeiro_novo.
      intros h' Hin Hk. exfalso. exact (IHx h' Hin Hk).
    + rewrite dict_get_set_neq by exact N. apply Outro. congruence.
Qed.

(* ================================================================= *)
(** ** Grouper, second loop and sort *)

Lemma agrupar_snoc (mr : list (chave_unica * hit)) (it : chave_unica * hit) :
  agrupar_por_numero (mr ++ [it])
  = passo_grupo (agrupar_por_numero mr) it.
Proof. unfold agrupar_por_numero. now rewrite fold_left_app. Qed.

Lemma membros_passo (n n' t : string) (h : hit)
    (g : list (string * list hit)) :
  membros_de n (passo_grupo g ((n', t), h))
  = if string_dec n n' then membros_de n g ++ [h] else membros_de n g.
Proof.
  unfold membros_de, passo_grupo.
  destruct (string_dec n n') as [<-|N].
  - destruct (dict_get string_dec n g); now rewrite dict_get_set_eq.
  - destruct (dict_get string_dec n' g);
      now rewrite dict_get_set_neq by exact N.
Qed.

Lemma membros_agrupar (n : string) (mr : list (chave_unica * hit)) :
  membros_de n (agrupar_por_numero mr) = map snd (filter (do_numero n) mr).
Proof.
  induction mr as [|[[n' t] h] mr IH] using rev_ind; [reflexivity|].
  rewrite agrupar_snoc, membros_passo, IH, filter_app, map_app.
  cbn [filter]. change (do_numero n (n', t, h)) with (String.eqb n n').
  destruct (string_dec n n') as [<-|N].
  - now rewrite String.eqb_refl.
  - apply String.eqb_neq in N. rewrite N. simpl. now rewrite app_nil_r.
Qed.

Lemma passo_grupo_NoDup (g : list (string * list hit))
    (it : chave_unica * hit) :
  NoDup (map fst g) -> NoDup (map fst (passo_grupo g it)).
Proof.
  destruct it as [[n t] h]. unfold passo_grupo.
  destruct (dict_get string_dec n g); apply dict_set_NoDup.
Qed.

Lemma agrupar_NoDup (mr : list (chave_unica * hit)) :
  NoDup (map fst (agrupar_por_numero mr)).
Proof.
  induction mr as [|it mr IH] using rev_ind; [constructor|].
  rewrite agrupar_snoc. now apply passo_grupo_NoDup.
Qed.

Lemma agrupar_chaves (n : string) (mr : list (chave_unica * hit)) :
  In n (map fst (agrupar_por_numero mr)) ->
  filter (do_numero n) mr <> [].
Proof.
  induction mr as [|[[n' t] h] mr IH] using rev_ind; [intros []|].
  rewrite agrupar_snoc, filter_app. unfold passo_grupo.
  cbn [filter]. change (do_numero n (n', t, h)) with (String.eqb n n').
  intros H.
  assert (H' : n = n' \/ In n (map fst (agrupar_por_numero mr))).
  { destruct (dict_get string_dec n' (agrupar_por_numero mr));
      now apply dict_set_chaves_In in H. }
  destruct H' as [<-|H'].
  - rewrite String.eqb_refl. now destruct (filter (do_numero n) mr).
  - specialize (IH H'). now destruct (filter (do_numero n) mr).
Qed.

Lemma dict_get_map_valores {V W : Type} (f : V -> W) (n : string)
    (d : list (string * V)) :
  dict_get string_dec n (map (fun g => (fst g, f (snd g))) d)
  = option_map f (dict_get string_dec n d).
Proof.
  induction d as [|[n' v] d IH]; simpl; [reflexivity|].
  now destruct (string_dec n n').
Qed.

Lemma membros_agrupar_resultados (n : string) (l : list hit) :
  membros_de n (_agrupar_resultados l)
  = ordenar ordem_ltb (map snd (filter (do_numero n) (mais_recentes l))).
Proof.
  rewrite <- membros_agrupar. unfold membros_de, _agrupar_resultados.
  rewrite dict_get_map_valores.
  now destruct (dict_get string_dec n (agrupar_por_numero (mais_recentes l))).
Qed.

Lemma In_membros (n : string) (l : list hit) (h : hit) :
  In h (membros_de n (_agrupar_resultados l)) <->
  exists t, In ((n, t), h) (mais_recentes l).
Proof.
  rewrite membros_agrupar_resultados. split.
  - intros H. apply (Permutation_in _ (ordenar_perm _ _)) in H.
    apply in_map_iff in H. destruct H as ([[n' t] h'] & E & H).
    simpl in E. subst h'. apply filter_In in H. destruct H as [H Hn].
    apply String.eqb_eq in Hn. simpl in Hn. subst n'. eauto.
  - intros [t H].
    apply (Permutation_in _ (Permutation_sym (ordenar_perm _ _))).
    apply in_map_iff. exists ((n, t), h). split; [reflexivity|].
    apply filter_In. split; [exact H|]. apply String.eqb_refl.
Qed.

Lemma tipos_distintos (n : string) (mr : list (chave_unica * hit)) :
  NoDup (map fst mr) ->
  (forall k h, In (k, h) mr -> chave_de h = k) ->
  NoDup (map tipo (map snd (filter (do_numero n) mr))).
Proof.
  induction mr as [|[[n' t] h] mr IH]; simpl; [constructor|].
  intros Hn Hk. inversion Hn as [|? ? Hx Hn']; subst.
  assert (IH' : NoDup (map tipo (map snd (filter (do_numero n) mr))))
    by (apply IH; auto).
  change (do_numero n (n', t, h)) with (String.eqb n n').
  destruct (String.eqb n n') eqn:E; [|exact IH'].
  apply String.eqb_eq in E. subst n'. simpl. constructor; [|exact IH'].
  intros H. apply in_map_iff in H. destruct H as (h2 & Et & H).
  apply in_map_iff in H. destruct H as ([[n2 t2] h2'] & E2 & H).
  simpl in E2. subst h2'. apply filter_In in H. destruct H as [H Hn2].
  apply String.eqb_eq in Hn2. simpl in Hn2. subst n2.
  assert (K1 : chave_de h = (n, t)) by (apply Hk; auto).
  assert (K2 : chave_de h2 = (n, t2)) by (apply Hk; auto).
  unfold chave_de in K1, K2. injection K1 as _ T1. injection K2 as _ T2.
  apply Hx. apply in_map_iff. exists ((n, t2), h2). split; [|exact H].
  simpl. congruence.
Qed.

(** C1, as the code has it. For each (DocumentKey, documentType) pair the
    Grouper keeps exactly one hit of the pair, the one with the latest
    modification time and, when several hits of the pair share that
    time, the first of them in input order. *)
Theorem agrupar_retem_primeiro_mais_recente (l : list hit) (n t : string) :
  (forall h,
      In h (membros_de n (_agrupar_resultados l)) /\ tipo h = t <->
      primeiro_mais_recente l (n, t) h) /\
  NoDup (map tipo (membros_de n (_agrupar_resultados l))) /\
  ((exists h0, In h0 l /\ chave_de h0 = (n, t)) ->
   exists h, In h (membros_de n (_agrupar_resultados l)) /\ tipo h = t).
Proof.
  assert (A : forall h,
             In h (membros_de n (_agrupar_resultados l)) /\ tipo h = t <->
             primeiro_mais_recente l (n, t) h).
  { intros h. rewrite In_membros. split.
    - intros [[t' H] Ht].
      pose proof (mais_recentes_chave _ _ _ H) as K.
      assert (t' = t) by (unfold chave_de in K; congruence). subst t'.
      apply (dict_get_NoDup chave_unica_dec) in H;
        [|apply mais_recentes_NoDup].
      pose proof (mais_recentes_get l (n, t)) as G. now rewrite H in G.
    - intros P. pose proof (mais_recentes_get l (n, t)) as G.
      destruct (primeiro_In _ _ _ P) as [Hin Hk].
      destruct (dict_get chave_unica_dec (n, t) (mais_recentes l))
        as [h'|] eqn:E.
      + rewrite (primeiro_unico _ _ _ _ P G). split.
        * exists t. now apply (dict_get_In chave_unica_dec).
        * apply primeiro_In in G. destruct G as [_ G].
          unfold chave_de in G. congruence.
      + exfalso. exact (G h Hin Hk). }
  split; [exact A|]. split.
  - rewrite membros_agrupar_resultados.
    eapply Permutation_NoDup.
    + apply Permutation_map. symmetry. apply ordenar_perm.
    + apply tipos_distintos; [apply mais_recentes_NoDup|].
      apply mais_recentes_chave.
  - intros (h0 & Hin & Hk).
    pose proof (mais_recentes_get l (n, t)) as G.
    destruct (dict_get chave_unica_dec (n, t) (mais_recentes l)) as [h|].
    + exists h. now apply A.
    + exfalso. exact (G h0 Hin Hk).
Qed.

Lemma agrupar_retem_primeiro_mais_recente_witness :
  let h1 := mkhit "path1" "010001000005909.pdf"
                  (mkdt 2024 1 1 0 0 0 0) "BOLETO" in
  let h2 := mkhit "path2" "010001000005909_v2.pdf"
                  (mkdt 2024 2 1 0 0 0 0) "BOLETO" in
  (In h2 (membros_de "010001000005909" (_agrupar_resultados [h1; h2])) /\
   tipo h2 = "BOLETO") /\
  (exists h, In h (membros_de "010001000005909"
                              (_agrupar_resultados [h1; h2])) /\
             tipo h = "BOLETO").
Proof.
  intros h1 h2. split.
  - apply (proj1 (agrupar_retem_primeiro_mais_recente [h1; h2]
                    "010001000005909" "BOLETO")).
    exists [h1], []. split; [reflexivity|]. split; [reflexivity|].
    split.
    + intros h' [<-|[]] _. reflexivity.
    + intros h' [].
  - apply (proj2 (proj2 (agrupar_retem_primeiro_mais_recente [h1; h2]
                           "010001000005909" "BOLETO"))).
    exists h1. split; [simpl; auto|reflexivity].
Defined.

(** C1, as worded: with two hits of one pair modified at the same time,
    the second is the last of the latest, and the Grouper keeps the
    first one. *)
Lemma agrupar_nao_retem_ultimo :
  ~ retem_ultimo
      [mkhit "/a/010001000005909.pdf" "010001000005909.pdf"
             (mkdt 2024 1 1 0 0 0 0) "BOLETO";
       mkhit "/b/010001000005909.pdf" "010001000005909.pdf"
             (mkdt 2024 1 1 0 0 0 0) "BOLETO"].
Proof.
  intros H.
  specialize (H ("010001000005909", "BOLETO")
                (mkhit "/b/010001000005909.pdf" "010001000005909.pdf"
                       (mkdt 2024 1 1 0 0 0 0) "BOLETO")).
  assert (U : ultimo_mais_recente
            [mkhit "/a/010001000005909.pdf" "010001000005909.pdf"
                   (mkdt 2024 1 1 0 0 0 0) "BOLETO";
             mkhit "/b/010001000005909.pdf" "010001000005909.pdf"
                   (mkdt 2024 1 1 0 0 0 0) "BOLETO"]
            ("010001000005909", "BOLETO")
            (mkhit "/b/010001000005909.pdf" "010001000005909.pdf"
                   (mkdt 2024 1 1 0 0 0 0) "BOLETO")).
  { exists [mkhit "/a/010001000005909.pdf" "010001000005909.pdf"
                  (mkdt 2024 1 1 0 0 0 0) "BOLETO"], [].
    split; [reflexivity|]. split; [reflexivity|]. split.
    - intros h' [<-|[]] _. reflexivity.
    - intros h' []. }
  specialize (H U). vm_compute in H.
  destruct H as [H|[]]. discriminate H.
Qed.

(* ================================================================= *)
(** ** Grouping again *)

Section DictFim.
Context {K V : Type} (K_dec : forall x y : K, {x = y} + {x <> y}).

Lemma dict_get_app_fim (k : K) (v : V) (acc : list (K * V)) :
  ~ In k (map fst acc) -> dict_get K_dec k (acc ++ [(k, v)]) = Some v.
Proof.
  induction acc as [|[k' v'] acc IH]; simpl; intros H.
  - now destruct (K_dec k k).
  - destruct (K_dec k k') as [E|E]; [exfalso; auto|auto].
Qed.

Lemma dict_set_app_fim (k : K) (v v' : V) (acc : list (K * V)) :
  ~ In k (map fst acc) ->
  dict_set K_dec k v' (acc ++ [(k, v)]) = acc ++ [(k, v')].
Proof.
  induction acc as [|[k0 v0] acc IH]; simpl; intros H.
  - now destruct (K_dec k k).
  - destruct (K_dec k k0) as [E|E]; [exfalso; auto|].
    rewrite IH; auto.
Qed.
End DictFim.

(** Hits of pairwise distinct keys all stay, in their order. *)
Lemma mais_recentes_distintos (l : list hit) :
  NoDup (map chave_de l) ->
  mais_recentes l = map (fun h => (chave_de h, h)) l.
Proof.
  induction l as [|x l IH] using rev_ind; [reflexivity|].
  rewrite map_app. simpl. intros H.
  apply NoDup_remove in H. rewrite app_nil_r in H. destruct H as [H Hx].
  rewrite mais_recentes_snoc, (IH H), map_app. simpl.
  unfold passo_mais_recente.
  assert (N : ~ In (chave_de x)
                (map fst (map (fun h => (chave_de h, h)) l)))
    by (rewrite map_map; exact Hx).
  pose proof (proj2 (dict_get_None chave_unica_dec _ _) N) as G.
  rewrite G. now apply dict_set_novo.
Qed.

(** The hits of one group, met in a row, rebuild the group at the end of
    the dictionary. *)
Lemma agrupar_um_grupo (n : string) (ms pre : list hit)
    (acc : list (string * list hit)) :
  ~ In n (map fst acc) ->
  (forall h, In h ms -> numero_chave (nome h) = n) ->
  fold_left passo_grupo (map (fun h => (chave_de h, h)) ms)
            (acc ++ [(n, pre)])
  = acc ++ [(n, pre ++ ms)].
Proof.
  intros Hn. revert pre. induction ms as [|h ms IH]; intros pre Hk; simpl.
  - now rewrite app_nil_r.
  - assert (E : numero_chave (nome h) = n) by (apply Hk; simpl; auto).
    unfold chave_de at 1. rewrite E.
    rewrite (dict_get_app_fim string_dec) by exact Hn.
    rewrite (dict_set_app_fim string_dec) by exact Hn.
    rewrite IH by (intros; apply Hk; simpl; auto).
    now rewrite <- app_assoc.
Qed.

Lemma agrupar_achatar (grupos acc : list (string * list hit)) :
  NoDup (map fst (acc ++ grupos)) ->
  Forall grupo_bem_formado grupos ->
  fold_left passo_grupo (map (fun h => (chave_de h, h)) (achatar grupos)) acc
  = acc ++ grupos.
Proof.
  revert acc. induction grupos as [|[n ms] grupos IH]; intros acc Hn Hf;
    simpl.
  - now rewrite app_nil_r.
  - inversion Hf as [|? ? Hg Hf']; subst.
    destruct Hg as (Hne & Hk & _). simpl in Hne, Hk.
    unfold achatar. simpl. fold (achatar grupos).
    rewrite map_app, fold_left_app.
    assert (Nacc : ~ In n (map fst acc)).
    { rewrite map_app in Hn. simpl in Hn. apply NoDup_remove_2 in Hn.
      intros C. apply Hn. apply in_or_app. auto. }
    destruct ms as [|h ms]; [congruence|]. simpl.
    assert (E : numero_chave (nome h) = n) by (apply Hk; simpl; auto).
    unfold chave_de at 1. rewrite E.
    rewrite (proj2 (dict_get_None string_dec n acc) Nacc).
    rewrite (dict_set_novo string_dec) by exact Nacc.
    rewrite agrupar_um_grupo;
      [|exact Nacc|intros; apply Hk; simpl; auto].
    simpl. rewrite IH; [now rewrite <- app_assoc|now rewrite <- app_assoc|].
    exact Hf'.
Qed.

Lemma chaves_achatar (grupos : list (string * list hit)) :
  bem_formados grupos -> NoDup (map chave_de (achatar grupos)).
Proof.
  intros [Hn Hf]. induction grupos as [|[n ms] grupos IH]; [constructor|].
  inversion Hn as [|? ? Hx Hn']; subst.
  inversion Hf as [|? ? Hg Hf']; subst.
  destruct Hg as (_ & Hk & Ht & _). simpl in Hk, Ht.
  unfold achatar. simpl. fold (achatar grupos). rewrite map_app.
  apply NoDup_app.
  - clear -Hk Ht. induction ms as [|h ms IHm]; simpl; [constructor|].
    inversion Ht as [|? ? Hh Ht']; subst. constructor.
    + intros C. apply Hh. apply in_map_iff in C.
      destruct C as (h' & E & Hin). apply in_map_iff. exists h'.
      split; [|exact Hin]. unfold chave_de in E. congruence.
    + apply IHm; [intros; apply Hk; simpl; auto|exact Ht'].
  - now apply IH.
  - intros k H1 H2. apply in_map_iff in H1. destruct H1 as (h1 & E1 & I1).
    apply in_map_iff in H2. destruct H2 as (h2 & E2 & I2).
    unfold achatar in I2. apply in_concat in I2.
    destruct I2 as (ms2 & I2 & I2').
    apply in_map_iff in I2. destruct I2 as ([n2 ms2'] & E & I2).
    simpl in E. subst ms2'.
    rewrite Forall_forall in Hf'. destruct (Hf' _ I2) as (_ & Hk2 & _).
    simpl in Hk2. apply Hx. apply in_map_iff. exists (n2, ms2).
    split; [|exact I2]. simpl.
    rewrite <- (Hk2 h2 I2'), <- (Hk h1 I1).
    unfold chave_de in E1, E2. congruence.
Qed.

(** Well-formed groups are left as they are by flattening and grouping. *)
Lemma agrupar_bem_formados (grupos : list (string * list hit)) :
  bem_formados grupos -> _agrupar_resultados (achatar grupos) = grupos.
Proof.
  intros W. unfold _agrupar_resultados.
  rewrite (mais_recentes_distintos _ (chaves_achatar _ W)).
  destruct W as [Hn Hf].
  unfold agrupar_por_numero. rewrite agrupar_achatar; [|exact Hn|exact Hf].
  simpl. clear Hn. induction Hf as [|[n ms] grupos Hg Hf IH]; simpl;
    [reflexivity|].
  destruct Hg as (_ & _ & _ & Hs). simpl in Hs.
  now rewrite (ordenar_ordenada _ _ Hs), IH.
Qed.

Lemma string_ltb_asym (a b : string) :
  String.ltb a b = true -> String.ltb b a = false.
Proof.
  unfold String.ltb. rewrite (String.compare_antisym b a).
  now destruct (String.compare a b).
Qed.

Lemma ordem_ltb_asym (a b : hit) :
  ordem_ltb a b = true -> ordem_ltb b a = false.
Proof.
  unfold ordem_ltb. intros H.
  apply orb_true_iff in H. apply orb_false_iff.
  destruct H as [H|H].
  - apply Nat.ltb_lt in H. split.
    + apply Nat.ltb_ge. lia.
    + apply andb_false_iff. left. apply Nat.eqb_neq. lia.
  - apply andb_true_iff in H. destruct H as [H1 H2].
    apply Nat.eqb_eq in H1. split.
    + apply Nat.ltb_ge. lia.
    + apply andb_false_iff. right. now apply string_ltb_asym.
Qed.

(** What the Grouper builds is well formed. *)
Lemma agrupar_resultados_bem_formados (l : list hit) :
  bem_formados (_agrupar_resultados l).
Proof.
  unfold bem_formados, _agrupar_resultados.
  pose proof (agrupar_NoDup (mais_recentes l)) as Hn.
  split; [now rewrite map_map|].
  apply Forall_forall. intros g Hg.
  apply in_map_iff in Hg. destruct Hg as ([n ms] & <- & Hg). simpl.
  assert (Em : ms = map snd (filter (do_numero n) (mais_recentes l))).
  { rewrite <- membros_agrupar. unfold membros_de.
    now rewrite (dict_get_NoDup string_dec _ _ _ Hn Hg). }
  assert (P : Permutation (ordenar ordem_ltb ms) ms) by apply ordenar_perm.
  unfold grupo_bem_formado. simpl. repeat split.
  - intros C. rewrite C in P. apply Permutation_nil in P.
    apply (in_map fst) in Hg. simpl in Hg.
    apply agrupar_chaves in Hg. rewrite P in Em.
    destruct (filter (do_numero n) (mais_recentes l)); [auto|discriminate].
  - intros h H. apply (Permutation_in _ P) in H. rewrite Em in H.
    apply in_map_iff in H. destruct H as ([[n' t] h'] & E & H).
    simpl in E. subst h'. apply filter_In in H. destruct H as [H Hd].
    apply String.eqb_eq in Hd. simpl in Hd. subst n'.
    apply mais_recentes_chave in H. unfold chave_de in H. congruence.
  - eapply Permutation_NoDup; [apply Permutation_map; symmetry; exact P|].
    rewrite Em. apply tipos_distintos;
      [apply mais_recentes_NoDup|apply mais_recentes_chave].
  - apply ordenar_sorted. apply ordem_ltb_asym.
Qed.

(** C4. Grouping is idempotent: the groups of a hit list, flattened and
    grouped again, are the same groups, with the same keys in the same
    order and the same members in the same order. *)
Theorem agrupar_idempotente (l : list hit) :
  _agrupar_resultados (achatar (_agrupar_resultados l))
  = _agrupar_resultados l.
Proof.
  apply agrupar_bem_formados. apply agrupar_resultados_bem_formados.
Qed.

(** The order of the groups in the flattened list is of no account: any
    rearrangement of the groups is found again as it is. *)
Lemma agrupar_grupos_permutados (l : list hit)
    (grupos : list (string * list hit)) :
  Permutation grupos (_agrupar_resultados l) ->
  _agrupar_resultados (achatar grupos) = grupos.
Proof.
  intros P. apply agrupar_bem_formados.
  destruct (agrupar_resultados_bem_formados l) as [Hn Hf]. split.
  - eapply Permutation_NoDup; [|exact Hn].
    apply Permutation_map. symmetry. exact P.
  - eapply Permutation_Forall; [|exact Hf]. symmetry. exact P.
Qed.

(* ================================================================= *)
(** ** SessionManager *)

Module SessaoFacts.
Import Sessao.

Lemma conectar_corpo_estado (r : rede) (c : SFTPClient) :
  fst (conectar_corpo r c)
  = match etapa_que_falha r with
    | None => conectada c
    | Some Autenticacao => com_ssh (Some SSHNovo) c
    | Some Canal => com_ssh (Some SSHConectado) c
    | Some Diretorio =>
        com_sftp (Some (mksftp None)) (com_ssh (Some SSHConectado) c)
    end.
Proof.
  unfold conectar_corpo, etapa_que_falha, bind, modificar, chamada, ret.
  destruct r as [uc rk rc ro rd]; simpl.
  destruct uc; [destruct rk|]; simpl; try reflexivity;
    destruct rc; simpl; try reflexivity;
    destruct ro; simpl; try reflexivity;
    destruct rd; reflexivity.
Qed.

Lemma conectar_estado (r : rede) (c : SFTPClient) :
  fst (conectar r c) = fst (conectar_corpo r c).
Proof.
  unfold conectar. destruct (conectar_corpo r c) as [c' [[| |]|]];
    reflexivity.
Qed.

Lemma conectar_sucesso (r : rede) (c : SFTPClient) :
  fst (snd (conectar r c)) = true <-> etapa_que_falha r = None.
Proof.
  unfold conectar, conectar_corpo, etapa_que_falha, bind, modificar,
    chamada, ret.
  destruct r as [uc rk rc ro rd]; simpl.
  destruct uc; [destruct rk as [[]|]|]; simpl;
    try (split; discriminate);
    destruct rc as [[]|]; simpl; try (split; discriminate);
    destruct ro as [[]|]; simpl; try (split; discriminate);
    destruct rd as [[]|]; simpl; try (split; discriminate);
    split; reflexivity.
Qed.

(** C2, as the code has it. [conectar] does not roll back. After a
    success both handles are set and the working directory is the base
    directory. After a failure the handle of the transport stays: not
    connected when authentication failed, connected when the channel or
    the change of directory failed; the file-transfer handle is the one
    of before the call when authentication or the channel failed, and
    the new channel when the change of directory failed. So the two
    handles are both present or both absent after [conectar] exactly
    when it succeeded, failed on the change of directory, or found a
    file-transfer handle already there. *)
Theorem conectar_sem_rollback (r : rede) (c : SFTPClient) :
  let c' := fst (conectar r c) in
  let sucesso := fst (snd (conectar r c)) in
  (sucesso = true <-> etapa_que_falha r = None) /\
  c' = match etapa_que_falha r with
       | None => conectada c
       | Some Autenticacao => com_ssh (Some SSHNovo) c
       | Some Canal => com_ssh (Some SSHConectado) c
       | Some Diretorio =>
           com_sftp (Some (mksftp None)) (com_ssh (Some SSHConectado) c)
       end /\
  (ambos_ou_nenhum c' <->
   etapa_que_falha r = None \/ etapa_que_falha r = Some Diretorio \/
   sftp c <> None).
Proof.
  intros c' sucesso. subst c' sucesso.
  split; [apply conectar_sucesso|].
  rewrite conectar_estado, conectar_corpo_estado.
  split; [reflexivity|].
  unfold ambos_ou_nenhum.
  destruct (etapa_que_falha r) as [[| |]|]; simpl.
  - split.
    + intros [_ H]. right. right. intros C. specialize (H C). discriminate.
    + intros [H|[H|H]]; try discriminate. split; [discriminate|tauto].
  - split.
    + intros [_ H]. right. right. intros C. specialize (H C). discriminate.
    + intros [H|[H|H]]; try discriminate. split; [discriminate|tauto].
  - split; [auto|]. intros _. split; discriminate.
  - split; [auto|]. intros _. split; discriminate.
Qed.

Lemma conectar_sem_rollback_witness :
  let r := mkrede false None None None None in
  let c := mkcliente "sftp.example" "/boletos" None None "/boletos" in
  fst (snd (conectar r c)) = true /\ ambos_ou_nenhum (fst (conectar r c)).
Proof.
  intros r c. split.
  - apply (proj1 (conectar_sem_rollback r c)). reflexivity.
  - apply (proj2 (proj2 (conectar_sem_rollback r c))). left. reflexivity.
Defined.

(** C2, as worded: from an empty session, when the channel cannot be
    opened, [conectar] reports the failure and leaves the transport
    connected and no file-transfer handle. *)
Lemma conectar_nao_e_tudo_ou_nada :
  ~ tudo_ou_nada
      (mkrede false None None (Some (SSHException "channel")) None)
      (mkcliente "sftp.example" "/boletos" None None "/boletos").
Proof.
  unfold tudo_ou_nada, vazia, ambos_ou_nenhum. simpl.
  intros [H _]. destruct (H eq_refl) as [C _]. discriminate C.
Qed.

(** [desconectar] always leaves the session empty, and a failed
    [reconectar] is a failed [conectar] from the empty session. *)
Lemma desconectar_vazia (c : SFTPClient) : vazia (desconectar c).
Proof. split; reflexivity. Qed.

Lemma reconectar_falha (r : rede) (c : SFTPClient) :
  etapa_que_falha r = Some Autenticacao \/ etapa_que_falha r = Some Canal ->
  ssh (fst (reconectar r c)) <> None /\ sftp (fst (reconectar r c)) = None.
Proof.
  unfold reconectar. rewrite conectar_estado, conectar_corpo_estado.
  intros [-> | ->]; simpl; split; (discriminate || reflexivity).
Qed.

(** A healthy session is left alone by [garantir_conexao]: no step of
    [conectar] is run, whatever the network would answer. *)
Lemma garantir_conexao_saudavel (r : rede) (c : SFTPClient) :
  verificar_conexao true c = true -> garantir_conexao true r c = (c, true).
Proof. unfold garantir_conexao. now intros ->. Qed.

Lemma garantir_conexao_reconecta (getcwd_ok : bool) (r : rede)
    (c : SFTPClient) :
  verificar_conexao getcwd_ok c = false ->
  garantir_conexao getcwd_ok r c
  = (fst (reconectar r c), fst (snd (reconectar r c))).
Proof.
  unfold garantir_conexao. intros ->.
  now destruct (reconectar r c) as [c' [sucesso m]].
Qed.

End SessaoFacts.

(* ================================================================= *)
(** ** DownloadOrchestrator *)

Module DownloadFacts.
Import Download.




(** *** Reading a number back from the table *)



















Lemma re_d_isdigit (s : string) :
  forallb re_d (chars s) = true -> forallb str_isdigit (chars s) = true.
Proof.
  induction s as [|c s IH]; simpl; [reflexivity|].
  intros H. apply andb_true_iff in H. destruct H as [Hc Hs].
  unfold str_isdigit at 1. rewrite Hc. simpl. now apply IH.
Qed.






(** The rows of the result table carry decimal numbers. *)
Lemma so_digitos_re_d (s : string) :
  forallb re_d (chars (so_digitos s)) = true.
Proof.
  rewrite so_digitos_chars. apply forallb_forall.
  intros c H. apply filter_In in H. tauto.
Qed.

Lemma substring_re_d (n m : nat) (s : string) :
  forallb re_d (chars s) = true ->
  forallb re_d (chars (substring n m s)) = true.
Proof.
  rewrite chars_substring, !forallb_forall. intros H c Hc.
  apply H. rewrite <- (firstn_skipn n (chars s)).
  apply in_or_app. right.
  rewrite <- (firstn_skipn m (skipn n (chars s))).
  apply in_or_app. left. exact Hc.
Qed.

Lemma sem_zeros_decimal (x : string) :
  forallb re_d (chars x) = true -> decimal (sem_zeros_a_esquerda x).
Proof.
  intros H. unfold sem_zeros_a_esquerda.
  destruct (String.eqb (lstrip_zeros x) "") eqn:E.
  - split; [discriminate|reflexivity].
  - apply String.eqb_neq in E. split; [exact E|]. clear E.
    induction x as [|c x IH]; simpl in *; [reflexivity|].
    apply andb_true_iff in H. destruct H as [Hc Hx].
    destruct (Ascii.eqb c "0"); [now apply IH|].
    simpl. now rewrite Hc, Hx.
Qed.

Lemma extrair_numero_documento_decimal (nome_arquivo : string) :
  decimal (_extrair_numero_documento nome_arquivo).
Proof.
  unfold _extrair_numero_documento, fatia.
  destruct (15 <=? length (so_digitos nome_arquivo));
    [|destruct (9 <=? length (so_digitos nome_arquivo))];
    apply sem_zeros_decimal;
    auto using substring_re_d, so_digitos_re_d.
Qed.

Lemma linha_de_valida (h : hit) :
  tipo h = "BOLETO" \/ tipo h = "NF" -> linha_valida (linha_de h).
Proof.
  intros H. split; [exact H|apply extrair_numero_documento_decimal].
Qed.

Lemma lstrip_zeros_sem_zero (x r : string) :
  lstrip_zeros x <> String "0" r.
Proof.
  induction x as [|c x IH]; cbn [lstrip_zeros]; [discriminate|].
  destruct (Ascii.eqb_spec c "0") as [->|N]; [exact IH|].
  intros [= E _]. contradiction.
Qed.

Lemma lstrip_zeros_length (x : string) :
  length (lstrip_zeros x) <= length x.
Proof.
  induction x as [|c x IH]; cbn [lstrip_zeros]; [constructor|].
  destruct (Ascii.eqb c "0"); simpl; lia.
Qed.

Lemma sem_zeros_da_tabela (x : string) :
  forallb re_d (chars x) = true -> length x <= 4300 ->
  numero_da_tabela (sem_zeros_a_esquerda x).
Proof.
  intros Hd Hl. split; [now apply sem_zeros_decimal|].
  unfold sem_zeros_a_esquerda.
  destruct (String.eqb (lstrip_zeros x) ""); split.
  - now left.
  - simpl. lia.
  - right. intros r. apply lstrip_zeros_sem_zero.
  - pose proof (lstrip_zeros_length x). lia.
Qed.

Lemma length_substring_max (n m : nat) (s : string) :
  length (substring n m s) <= m.
Proof.
  rewrite <- chars_length, chars_substring, length_firstn. lia.
Qed.

(** The rows of the result table carry numbers of the table. *)
Lemma extrair_numero_documento_da_tabela (nome_arquivo : string) :
  numero_da_tabela (_extrair_numero_documento nome_arquivo).
Proof.
  unfold _extrair_numero_documento, fatia.
  destruct (15 <=? length (so_digitos nome_arquivo));
    [|destruct (9 <=? length (so_digitos nome_arquivo)) eqn:E];
    apply sem_zeros_da_tabela;
    auto using substring_re_d, so_digitos_re_d.
  - pose proof (length_substring_max 6 (15 - 6)
                  (so_digitos nome_arquivo)). simpl in *. lia.
  - pose proof (length_substring_max
                  (length (so_digitos nome_arquivo) - 9) 9
                  (so_digitos nome_arquivo)). lia.
  - apply Nat.leb_gt in E. lia.
Qed.

Lemma linha_de_da_tabela (h : hit) :
  tipo h = "BOLETO" \/ tipo h = "NF" -> linha_da_tabela (linha_de h).
Proof.
  intros H. split; [exact H|apply extrair_numero_documento_da_tabela].
Qed.

(** *** The date of the archive *)






Section LoteFacts.
Variable os_path_join : string -> string -> string.
Variable os_path_basename : string -> string.
Variable pasta_download : string.


Lemma tentativas_cons (rede : nat -> chamada_rede) (i : nat)
    (c n t : string) (arqs : list (string * string * string)) :
  tentativas os_path_join os_path_basename pasta_download rede i
             ((c, n, t) :: arqs)
  = ((c, n, t),
     baixar_boleto os_path_join os_path_basename pasta_download
                   (rede i) c n)
    :: tentativas os_path_join os_path_basename pasta_download rede (S i) arqs.
Proof. reflexivity. Qed.

(** The download loop appends the local paths of the files fetched, the
    errors of the others and the types of the files fetched. *)
Lemma baixar_todos_correto (rede : nat -> chamada_rede)
    (arqs : list (string * string * string)) (i : nat)
    (ab : list string) (er : list erro_lote) (tb : list string) :
  let ts :=
    tentativas os_path_join os_path_basename pasta_download rede i arqs in
  baixar_todos os_path_join os_path_basename pasta_download rede i arqs
               (ab, er, tb)
  = (ab ++ baixados ts, er ++ falhas ts,
     fold_left (fun s t => conj_add t s) (tipos_baixados_de ts) tb).
Proof.
  revert i ab er tb. induction arqs as [|[[c n] t] arqs IH];
    intros i ab er tb; cbv zeta.
  - simpl. now rewrite !app_nil_r.
  - rewrite tentativas_cons. cbn [baixar_todos].
    unfold baixados, falhas, tipos_baixados_de. cbn [flat_map snd fst].
    destruct (baixar_boleto os_path_join os_path_basename pasta_download
                            (rede i) c n) as [e|p];
      rewrite IH; cbv zeta; unfold baixados, falhas, tipos_baixados_de;
      cbn [app fold_left]; now rewrite <- ?app_assoc.
Qed.





End LoteFacts.



(** The batch of the design document: numbers 123 and 456, an invoice
    and a tax document, both fetched. *)
Lemma baixar_multiplos_exemplo :
  _baixar_multiplos (fun a b => (a ++ "/" ++ b)%string) (fun a => a) "dl"
    (fun _ => mkchamada true GetOk) ZipEscrito (mkdt 2026 11 3 9 0 0 0)
    [Documento "BOLETO" "123" "a.pdf" "/boletos/a.pdf";
     Separador;
     Documento "NF" "456" "b.pdf" "/nfs/b.pdf"]
  = Executado
      [EscreverZip "dl/NFBOL_123-456_03-11-2026.zip"
                   [("dl/a.pdf", "dl/a.pdf"); ("dl/b.pdf", "dl/b.pdf")];
       Remover "dl/a.pdf"; Remover "dl/b.pdf";
       Callback true "dl/NFBOL_123-456_03-11-2026.zip" 2 0 []].
Proof. reflexivity. Qed.

(** More than three numbers give the first and the last; failed
    downloads are reported beside the archive. *)
Lemma baixar_multiplos_exemplo_faixa :
  _baixar_multiplos (fun a b => (a ++ "/" ++ b)%string) (fun a => a) "dl"
    (fun i => mkchamada true
                (if i =? 2 then GetFileNotFoundError else GetOk))
    ZipEscrito (mkdt 2026 11 3 9 0 0 0)
    [Documento "BOLETO" "456" "d.pdf" "/boletos/d.pdf";
     Documento "BOLETO" "1000" "e.pdf" "/boletos/e.pdf";
     Documento "BOLETO" "9" "f.pdf" "/boletos/f.pdf";
     Documento "BOLETO" "123" "g.pdf" "/boletos/g.pdf"]
  = Executado
      [EscreverZip "dl/BOL_9-1000_03-11-2026.zip"
                   [("dl/d.pdf", "dl/d.pdf"); ("dl/f.pdf", "dl/f.pdf");
                    ("dl/g.pdf", "dl/g.pdf")];
       Remover "dl/d.pdf"; Remover "dl/f.pdf"; Remover "dl/g.pdf";
       Callback true "dl/BOL_9-1000_03-11-2026.zip" 3 1
                [ErroItem "e.pdf" ArquivoNaoEncontrado]].
Proof. reflexivity. Qed.

(** The number 0 is left out of the name of the archive, and a request
    of documents numbered 0 alone is named [doc]. *)
Lemma baixar_multiplos_exemplo_zero :
  _baixar_multiplos (fun a b => (a ++ "/" ++ b)%string) (fun a => a) "dl"
    (fun _ => mkchamada true GetOk) ZipEscrito (mkdt 2026 11 3 9 0 0 0)
    [Documento "BOLETO" "0" "aviso.pdf" "/boletos/aviso.pdf";
     Documento "NF" "5" "010001000000005.pdf" "/nfs/010001000000005.pdf"]
  = Executado
      [EscreverZip "dl/NFBOL_5_03-11-2026.zip"
                   [("dl/aviso.pdf", "dl/aviso.pdf");
                    ("dl/010001000000005.pdf", "dl/010001000000005.pdf")];
       Remover "dl/aviso.pdf"; Remover "dl/010001000000005.pdf";
       Callback true "dl/NFBOL_5_03-11-2026.zip" 2 0 []] /\
  _baixar_multiplos (fun a b => (a ++ "/" ++ b)%string) (fun a => a) "dl"
    (fun _ => mkchamada true GetOk) ZipEscrito (mkdt 2026 11 3 9 0 0 0)
    [Documento "BOLETO" "0" "aviso.pdf" "/boletos/aviso.pdf";
     Documento "BOLETO" "0" "carta.pdf" "/boletos/carta.pdf"]
  = Executado
      [EscreverZip "dl/BOL_doc_03-11-2026.zip"
                   [("dl/aviso.pdf", "dl/aviso.pdf");
                    ("dl/carta.pdf", "dl/carta.pdf")];
       Remover "dl/aviso.pdf"; Remover "dl/carta.pdf";
       Callback true "dl/BOL_doc_03-11-2026.zip" 2 0 []].
Proof. split; reflexivity. Qed.

(** Both files fetched, and the second cannot be added to the archive:
    the archive stays with the first, both files stay, and one error is
    reported for none fetched. *)
Lemma baixar_multiplos_exemplo_zip_falha :
  _baixar_multiplos (fun a b => (a ++ "/" ++ b)%string) (fun a => a) "dl"
    (fun _ => mkchamada true GetOk)
    (ZipFalhaAoEscrever "No space left on device" 1)
    (mkdt 2026 11 3 9 0 0 0)
    [Documento "BOLETO" "123" "a.pdf" "/boletos/a.pdf";
     Documento "NF" "456" "b.pdf" "/nfs/b.pdf"]
  = Executado
      [DeixarZip "dl/NFBOL_123-456_03-11-2026.zip"
                 [("dl/a.pdf", "dl/a.pdf")];
       Callback false "" 0 1 [ErroGeral "No space left on device"]].
Proof. reflexivity. Qed.

(** How the cells of the number column come back from the table. *)
Lemma convert_stringval_exemplos :
  _convert_stringval "5909" = CInt 5909 /\
  _convert_stringval "0" = CInt 0 /\
  _convert_stringval "007" = CInt 7 /\
  _convert_stringval " -12 " = CInt (-12) /\
  _convert_stringval "1_000" = CInt 1000 /\
  _convert_stringval "1__0" = CStr "1__0" /\
  _convert_stringval "_1" = CStr "_1" /\
  _convert_stringval "+ 5" = CStr "+ 5" /\
  _convert_stringval "-" = CStr "-" /\
  _convert_stringval "" = CStr "" /\
  str (CInt (-12)) = "-12" /\ str (CInt 0) = "0".
Proof. repeat split; reflexivity. Qed.

End DownloadFacts.

(* ================================================================= *)
(** ** TaxDocumentClient: decoding *)

Module CodecsFacts.
Import Codecs.

Lemma b64val_char (s : N) : (s < 64)%N -> b64val (b64char s) = Some s.
Proof.
  intros H. rewrite <- (N2Nat.id s).
  assert (L : N.to_nat s < 64) by lia. revert L. generalize (N.to_nat s).
  intros n L. do 64 (destruct n as [|n]; [reflexivity|]). lia.
Qed.

Lemma b64char_nao_pad (s : N) :
  (s < 64)%N -> Ascii.eqb (b64char s) "=" = false.
Proof.
  intros H. rewrite <- (N2Nat.id s).
  assert (L : N.to_nat s < 64) by lia. revert L. generalize (N.to_nat s).
  intros n L. do 64 (destruct n as [|n]; [reflexivity|]). lia.
Qed.

Lemma sextetos_octetos (a b c : N) :
  (a < 256)%N -> (b < 256)%N -> (c < 256)%N ->
  let '(s1, s2, s3, s4) := sextetos a b c in
  (s1 < 64 /\ s2 < 64 /\ s3 < 64 /\ s4 < 64)%N /\
  octetos s1 s2 s3 s4 = (a, b, c) /\
  (c = 0%N -> octetos s1 s2 s3 0 = (a, b, 0%N)) /\
  (b = 0%N -> c = 0%N -> octetos s1 s2 0 0 = (a, 0%N, 0%N)).
Proof.
  intros Ha Hb Hc. unfold sextetos, octetos.
  repeat split; try (intros; subst); repeat f_equal;
    zify; Z.to_euclidean_division_equations; lia.
Qed.

Lemma byte_de_to_N (b : Byte.byte) : byte_de (Byte.to_N b) = b.
Proof. unfold byte_de. now rewrite Byte.of_to_N. Qed.

Lemma to_N_256 (b : Byte.byte) : (Byte.to_N b < 256)%N.
Proof. pose proof (Byte.to_N_bounded b). lia. Qed.

Lemma list_ind3 {A} (P : list A -> Prop) :
  P [] -> (forall a, P [a]) -> (forall a b, P [a; b]) ->
  (forall a b c r, P r -> P (a :: b :: c :: r)) ->
  forall l, P l.
Proof.
  intros H0 H1 H2 H3.
  fix IH 1. intros [|a [|b [|c r]]];
    [exact H0|apply H1|apply H2|apply H3; apply IH].
Qed.

Lemma b64decode_encode (l : list Byte.byte) :
  b64decode (b64encode l) = Some l.
Proof.
  induction l as [|a|a b|a b c r IH] using list_ind3.
  - reflexivity.
  - cbn [b64encode].
    pose proof (sextetos_octetos (Byte.to_N a) 0 0 (to_N_256 a)
                  eq_refl eq_refl) as H.
    destruct (sextetos (Byte.to_N a) 0 0) as [[[s1 s2] s3] s4].
    destruct H as ((L1 & L2 & L3 & L4) & _ & _ & E).
    cbn [b64decode]. rewrite !b64val_char by assumption.
    rewrite (E eq_refl eq_refl). simpl. now rewrite byte_de_to_N.
  - cbn [b64encode].
    pose proof (sextetos_octetos (Byte.to_N a) (Byte.to_N b) 0
                  (to_N_256 a) (to_N_256 b) eq_refl) as H.
    destruct (sextetos (Byte.to_N a) (Byte.to_N b) 0) as [[[s1 s2] s3] s4].
    destruct H as ((L1 & L2 & L3 & L4) & _ & E & _).
    cbn [b64decode]. rewrite !b64val_char by assumption.
    rewrite (b64char_nao_pad s3) by assumption.
    rewrite (E eq_refl). simpl. now rewrite !byte_de_to_N.
  - cbn [b64encode].
    pose proof (sextetos_octetos (Byte.to_N a) (Byte.to_N b) (Byte.to_N c)
                  (to_N_256 a) (to_N_256 b) (to_N_256 c)) as H.
    destruct (sextetos (Byte.to_N a) (Byte.to_N b) (Byte.to_N c))
      as [[[s1 s2] s3] s4].
    destruct H as ((L1 & L2 & L3 & L4) & E & _).
    cbn [b64decode]. rewrite !b64val_char by assumption.
    rewrite (b64char_nao_pad s3), (b64char_nao_pad s4) by assumption.
    rewrite IH, E. now rewrite !byte_de_to_N.
Qed.

Lemma decode_utf8_char (c : ascii) (r : list Byte.byte) :
  decode_utf8 (utf8_char c ++ r) = option_map (String c) (decode_utf8 r).
Proof. destruct c as [[] [] [] [] [] [] [] []]; reflexivity. Qed.

Lemma decode_encode_utf8 (s : string) : decode_utf8 (encode_utf8 s) = Some s.
Proof.
  induction s as [|c s IH]; [reflexivity|].
  cbn [encode_utf8]. now rewrite decode_utf8_char, IH.
Qed.

Lemma ler_armazenar (dados : list Byte.byte) :
  ler_armazenado (armazenar dados) = Some dados.
Proof. reflexivity. Qed.

End CodecsFacts.

Module NFSeFacts.
Import NFSe.

Section IdaEVolta.
Variable b64encode : list Byte.byte -> string.
Variable b64decode : string -> option (list Byte.byte).
Variable gzip_compress : list Byte.byte -> list Byte.byte.
Variable gzip_read : list Byte.byte -> option (list Byte.byte).
Variable encode_utf8 : string -> list Byte.byte.
Variable decode_utf8 : list Byte.byte -> option string.

(** The contracts of the library: each decoder undoes its encoder. *)
Hypothesis b64decode_b64encode :
  forall dados, b64decode (b64encode dados) = Some dados.
Hypothesis gzip_read_compress :
  forall dados, gzip_read (gzip_compress dados) = Some dados.
Hypothesis decode_encode :
  forall texto, decode_utf8 (encode_utf8 texto) = Some texto.

(** C8. The decoding is a left inverse of the encoding: a text
    compressed with GZip and written in Base64 is given back as it was
    by Base64 decoding, GZip decompression and UTF-8 decoding, in that
    order. *)
Theorem decodificar_codificar (texto : string) :
  _decodificar_gzip_base64 b64decode gzip_read decode_utf8
    (codificar_gzip_base64 b64encode gzip_compress encode_utf8 texto)
  = inr texto.
Proof.
  unfold _decodificar_gzip_base64, codificar_gzip_base64.
  now rewrite b64decode_b64encode, gzip_read_compress, decode_encode.
Qed.
End IdaEVolta.

Lemma decodificar_codificar_witness :
  _decodificar_gzip_base64 Codecs.b64decode Codecs.ler_armazenado
    Codecs.decode_utf8
    (codificar_gzip_base64 Codecs.b64encode Codecs.armazenar
       Codecs.encode_utf8 "<NFSe><nNFSe>29</nNFSe></NFSe>")
  = inr "<NFSe><nNFSe>29</nNFSe></NFSe>".
Proof.
  apply (decodificar_codificar
           Codecs.b64encode Codecs.b64decode
           Codecs.armazenar Codecs.ler_armazenado
           Codecs.encode_utf8 Codecs.decode_utf8
           CodecsFacts.b64decode_encode CodecsFacts.ler_armazenar
           CodecsFacts.decode_encode_utf8).
Defined.

(** Each step that fails gives its own error. *)
Lemma decodificar_erros :
  _decodificar_gzip_base64 Codecs.b64decode Codecs.ler_armazenado
    Codecs.decode_utf8 "H4s*" = inl ErroBase64 /\
  _decodificar_gzip_base64 Codecs.b64decode Codecs.ler_armazenado
    Codecs.decode_utf8 "TWFu" = inl ErroGZip /\
  _decodificar_gzip_base64 Codecs.b64decode Codecs.ler_armazenado
    Codecs.decode_utf8 "H4v/" = inl ErroUTF8.
Proof. repeat split; reflexivity. Qed.

End NFSeFacts.

(* ================================================================= *)
(** * Further properties *)

(* ================================================================= *)
(** ** SessionManager: the health check and the reconnection *)

Module SessaoMais.
Import Sessao.

Lemma verificar_conexao_conectada (c : SFTPClient) :
  verificar_conexao true (conectada c) = true.
Proof. reflexivity. Qed.

Lemma garantir_conexao_sucesso (getcwd_ok : bool) (r : rede)
    (c : SFTPClient) :
  snd (garantir_conexao getcwd_ok r c) = true ->
  verificar_conexao true (fst (garantir_conexao getcwd_ok r c)) = true.
Proof.
  unfold garantir_conexao.
  destruct (verificar_conexao getcwd_ok c) eqn:V.
  - intros _. simpl. unfold verificar_conexao in *.
    destruct (sftp c), (ssh c); auto; discriminate.
  - unfold reconectar.
    pose proof (SessaoFacts.conectar_sucesso r (desconectar c)) as S.
    pose proof (SessaoFacts.conectar_estado r (desconectar c)) as E.
    rewrite SessaoFacts.conectar_corpo_estado in E.
    destruct (conectar r (desconectar c)) as [c' [sucesso m]].
    simpl in *. intros ->. rewrite E.
    now rewrite (proj1 S eq_refl).
Qed.

(** X1. When [garantir_conexao] answers true the session holds both
    handles, and a second call on a server that still answers leaves the
    session as it is and runs no step of [conectar], whatever the
    network would do. *)
Theorem garantir_conexao_duas_vezes (getcwd_ok : bool) (r r' : rede)
    (c : SFTPClient) :
  snd (garantir_conexao getcwd_ok r c) = true ->
  let c' := fst (garantir_conexao getcwd_ok r c) in
  ssh c' <> None /\ sftp c' <> None /\
  garantir_conexao true r' c' = (c', true).
Proof.
  intros H c'. pose proof (garantir_conexao_sucesso _ _ _ H) as V.
  fold c' in V. split; [|split].
  - unfold verificar_conexao in V.
    destruct (sftp c'), (ssh c'); discriminate.
  - unfold verificar_conexao in V. destruct (sftp c'); discriminate.
  - unfold garantir_conexao. now rewrite V.
Qed.

Lemma garantir_conexao_duas_vezes_witness :
  let r := mkrede false None None None None in
  let falha := mkrede false None (Some AuthenticationException) None None in
  let c := mkcliente "sftp.example" "/boletos" None None "/boletos" in
  let c' := fst (garantir_conexao true r c) in
  ssh c' <> None /\ sftp c' <> None /\
  garantir_conexao true falha c' = (c', true).
Proof.
  intros r falha c.
  apply (garantir_conexao_duas_vezes true r falha c). reflexivity.
Defined.

(** X2. When [conectar] fails on the change of directory it reports the
    failure, yet the session it leaves passes the health check: the next
    [garantir_conexao] answers true without reconnecting, the channel
    never having been moved to the base directory. *)
Theorem conectar_falha_diretorio_parece_viva (r r' : rede)
    (c : SFTPClient) :
  etapa_que_falha r = Some Diretorio ->
  let c' := fst (conectar r c) in
  fst (snd (conectar r c)) = false /\
  sftp c' = Some (mksftp None) /\
  diretorio_atual c' = diretorio_atual c /\
  verificar_conexao true c' = true /\
  garantir_conexao true r' c' = (c', true).
Proof.
  intros E c'. subst c'.
  pose proof (SessaoFacts.conectar_sucesso r c) as S.
  rewrite SessaoFacts.conectar_estado, SessaoFacts.conectar_corpo_estado, E.
  split.
  - destruct (fst (snd (conectar r c))); [|reflexivity].
    rewrite E in S. destruct S as [S _]. discriminate (S eq_refl).
  - repeat split; reflexivity.
Qed.

Lemma conectar_falha_diretorio_parece_viva_witness :
  let r := mkrede false None None None (Some (Exception "No such file")) in
  let c := mkcliente "sftp.example" "/boletos" None None "/antes" in
  fst (snd (conectar r c)) = false /\
  sftp (fst (conectar r c)) = Some (mksftp None) /\
  diretorio_atual (fst (conectar r c)) = "/antes" /\
  verificar_conexao true (fst (conectar r c)) = true /\
  garantir_conexao true r (fst (conectar r c)) = (fst (conectar r c), true).
Proof.
  intros r c.
  apply (conectar_falha_diretorio_parece_viva r r c). reflexivity.
Defined.

End SessaoMais.

(* ================================================================= *)
(** ** RemoteWalker *)

Module WalkerFacts.
Import Walker.

(** Induction on the remote tree. *)
Lemma entrada_ind_arvore (P : entrada -> Prop) :
  (forall n m, P (EArquivo n m)) ->
  (forall n, P (ESemModo n)) ->
  (forall n g, P (EDiretorio n g None)) ->
  (forall n g itens, Forall P itens -> P (EDiretorio n g (Some itens))) ->
  forall e, P e.
Proof.
  intros Ha Hm Hn Hd. fix IH 1. intros [n m|n|n g [itens|]].
  - apply Ha.
  - apply Hm.
  - apply Hd. induction itens as [|i itens IHl]; constructor.
    + apply IH.
    + exact IHl.
  - apply Hn.
Qed.

Section LacoFacts.
Context {A : Type} (corpo : entrada -> list A * bool).

Lemma laco_app (antes itens : list entrada) :
  Forall (fun item => snd (corpo item) = true) antes ->
  laco corpo (antes ++ itens) = laco corpo antes ++ laco corpo itens.
Proof.
  induction 1 as [|i antes Hi _ IH]; [reflexivity|].
  cbn [app laco]. now rewrite Hi, IH, app_assoc.
Qed.

Lemma In_laco (a : A) (itens : list entrada) :
  In a (laco corpo itens) <->
  exists antes item depois,
    itens = antes ++ item :: depois /\
    Forall (fun i => snd (corpo i) = true) antes /\
    In a (fst (corpo item)).
Proof.
  split.
  - induction itens as [|i itens IH]; [intros []|].
    cbn [laco]. intros H. apply in_app_or in H. destruct H as [H|H].
    + exists [], i, itens. repeat split; auto.
    + destruct (snd (corpo i)) eqn:S; [|destruct H].
      destruct (IH H) as (antes & item & depois & -> & F & Ha).
      exists (i :: antes), item, depois. repeat split; auto.
  - intros (antes & item & depois & -> & F & Ha).
    rewrite (laco_app _ _ F). apply in_or_app. right.
    cbn [laco]. apply in_or_app. now left.
Qed.
End LacoFacts.

Section PercursoFacts.
Variable extensoes_permitidas : list string.
Variable fromtimestamp : Z -> option datetime.

Lemma segue_interrompe (dir : string) (item : entrada) :
  snd (percorrer_com_data extensoes_permitidas fromtimestamp dir item)
  = negb (interrompe extensoes_permitidas fromtimestamp item).
Proof.
  destruct item as [n [t|]|n|n g c]; cbn [percorrer_com_data interrompe];
    try reflexivity;
    destruct (extensao_permitida extensoes_permitidas n);
    try reflexivity.
  now destruct (fromtimestamp t).
Qed.

Lemma Forall_segue (dir : string) (antes : list entrada) :
  Forall (fun i => snd (percorrer_com_data extensoes_permitidas
                          fromtimestamp dir i) = true) antes
  <-> Forall (fun i => interrompe extensoes_permitidas fromtimestamp i
                       = false) antes.
Proof.
  split; intros H; eapply Forall_impl; try exact H; cbv beta; intros i;
    rewrite segue_interrompe; apply negb_true_iff.
Qed.

Lemma no_percurso_In (dir : string) (itens : list entrada) (a : arquivo) :
  no_percurso extensoes_permitidas fromtimestamp dir itens a ->
  In a (laco (percorrer_com_data extensoes_permitidas fromtimestamp dir)
             itens).
Proof.
  induction 1 as [dir antes depois n t d F Hext Hd
                 |dir antes depois sub n a F _ IH];
    apply In_laco.
  - exists antes, (EArquivo n (Some t)), depois.
    split; [reflexivity|]. split; [now apply Forall_segue|].
    cbn [percorrer_com_data filename_de]. rewrite Hext, Hd. simpl. auto.
  - exists antes, (EDiretorio n true (Some sub)), depois.
    split; [reflexivity|]. split; [now apply Forall_segue|exact IH].
Qed.

Lemma In_no_percurso (e : entrada) :
  forall dir antes depois a,
    Forall (fun i => interrompe extensoes_permitidas fromtimestamp i
                     = false) antes ->
    In a (fst (percorrer_com_data extensoes_permitidas fromtimestamp
                                  dir e)) ->
    no_percurso extensoes_permitidas fromtimestamp dir
                (antes ++ e :: depois) a.
Proof.
  induction e as [n m|n|n g|n g sub IH] using entrada_ind_arvore;
    intros dir antes depois a F Ha.
  - cbn [percorrer_com_data filename_de] in Ha.
    destruct (extensao_permitida extensoes_permitidas n) eqn:E;
      [|destruct Ha].
    destruct m as [t|]; [|destruct Ha].
    destruct (fromtimestamp t) as [d|] eqn:D; [|destruct Ha].
    destruct Ha as [<-|[]]. now apply np_arquivo.
  - destruct Ha.
  - cbn [percorrer_com_data fst] in Ha. now destruct g.
  - cbn [percorrer_com_data fst filename_de] in Ha.
    destruct g; [|destruct Ha].
    apply np_diretorio; [exact F|].
    apply In_laco in Ha.
    destruct Ha as (antes' & item & depois' & -> & F' & Ha).
    rewrite Forall_forall in IH.
    apply (IH item); [apply in_or_app; simpl; auto| |exact Ha].
    now apply (Forall_segue (caminho_completo dir n)).
Qed.

(** X3. The dated walk returns exactly the files of an allowed
    extension, with a time that can be converted, that sit in the
    directory or below it through directories entered with the
    connection ensured and that can be listed, as long as no earlier
    entry of the same listing ended the loop: an entry without mode, or
    a file of an allowed extension whose time is missing or cannot be
    converted, hides what comes after it in its own listing; a
    directory that cannot be entered hides its own subtree and nothing
    else; and without the connection, or when the listing of the root
    fails, no file is given. *)
Theorem listar_arquivos_com_data_exato (dir : string)
    (itens : list entrada) (a : arquivo) :
  (In a (listar_arquivos_com_data extensoes_permitidas fromtimestamp
                                  true dir (Some itens)) <->
   no_percurso extensoes_permitidas fromtimestamp dir itens a) /\
  listar_arquivos_com_data extensoes_permitidas fromtimestamp
                           true dir None = [] /\
  (forall listagem,
     listar_arquivos_com_data extensoes_permitidas fromtimestamp
                              false dir listagem = []).
Proof.
  split; [|split; reflexivity].
  cbn [listar_arquivos_com_data negb]. split.
  - intros H. apply In_laco in H.
    destruct H as (antes & item & depois & -> & F & Ha).
    apply In_no_percurso; [|exact Ha]. now apply (Forall_segue dir).
  - apply no_percurso_In.
Qed.

Definition projecao (a : arquivo) : string * string :=
  (fst (fst a), snd (fst a)).

Lemma projecao_laco (dir : string) (itens : list entrada) :
  Forall (fun e =>
            forall dir,
              tranquila extensoes_permitidas fromtimestamp e = true ->
              map projecao
                  (fst (percorrer_com_data extensoes_permitidas
                          fromtimestamp dir e))
              = fst (percorrer extensoes_permitidas dir e) /\
              snd (percorrer_com_data extensoes_permitidas
                     fromtimestamp dir e)
              = snd (percorrer extensoes_permitidas dir e)) itens ->
  forallb (tranquila extensoes_permitidas fromtimestamp) itens = true ->
  map projecao
      (laco (percorrer_com_data extensoes_permitidas fromtimestamp dir)
            itens)
  = laco (percorrer extensoes_permitidas dir) itens.
Proof.
  induction 1 as [|i itens Hi _ IH]; [reflexivity|].
  cbn [forallb laco]. intros T. apply andb_true_iff in T.
  destruct T as [Ti T]. destruct (Hi dir Ti) as [E1 E2].
  rewrite map_app, E1, E2.
  destruct (snd (percorrer extensoes_permitidas dir i));
    [now rewrite (IH T)|reflexivity].
Qed.

Lemma projecao_item (e : entrada) :
  forall dir,
    tranquila extensoes_permitidas fromtimestamp e = true ->
    map projecao
        (fst (percorrer_com_data extensoes_permitidas fromtimestamp dir e))
    = fst (percorrer extensoes_permitidas dir e) /\
    snd (percorrer_com_data extensoes_permitidas fromtimestamp dir e)
    = snd (percorrer extensoes_permitidas dir e).
Proof.
  induction e as [n m|n|n g|n g sub IH] using entrada_ind_arvore;
    intros dir T.
  - cbn [tranquila interrompe] in T.
    cbn [percorrer_com_data percorrer filename_de].
    destruct (extensao_permitida extensoes_permitidas n);
      [|split; reflexivity].
    destruct m as [t|]; [|discriminate].
    destruct (fromtimestamp t); [split; reflexivity|discriminate].
  - split; reflexivity.
  - cbn [tranquila] in T. apply andb_true_iff in T. destruct T as [-> _].
    split; reflexivity.
  - cbn [tranquila] in T. apply andb_true_iff in T. destruct T as [-> T].
    cbn [percorrer_com_data percorrer filename_de fst snd].
    split; [|reflexivity]. now apply projecao_laco.
Qed.

Lemma incl_laco (dir : string) (itens : list entrada) :
  Forall (fun e =>
            forall dir,
              incl (map projecao
                        (fst (percorrer_com_data extensoes_permitidas
                                fromtimestamp dir e)))
                   (fst (percorrer extensoes_permitidas dir e)) /\
              (snd (percorrer_com_data extensoes_permitidas
                      fromtimestamp dir e) = true ->
               snd (percorrer extensoes_permitidas dir e) = true))
         itens ->
  incl (map projecao
            (laco (percorrer_com_data extensoes_permitidas fromtimestamp
                                      dir) itens))
       (laco (percorrer extensoes_permitidas dir) itens).
Proof.
  induction 1 as [|i itens Hi _ IH]; [intros x []|].
  cbn [laco]. destruct (Hi dir) as [I S]. rewrite map_app.
  apply incl_app; [now apply incl_appl|].
  destruct (snd (percorrer_com_data extensoes_permitidas fromtimestamp
                                    dir i)); [|intros x []].
  rewrite (S eq_refl). now apply incl_appr.
Qed.

Lemma incl_item (e : entrada) :
  forall dir,
    incl (map projecao
              (fst (percorrer_com_data extensoes_permitidas fromtimestamp
                                       dir e)))
         (fst (percorrer extensoes_permitidas dir e)) /\
    (snd (percorrer_com_data extensoes_permitidas fromtimestamp dir e)
     = true ->
     snd (percorrer extensoes_permitidas dir e) = true).
Proof.
  induction e as [n m|n|n g|n g sub IH] using entrada_ind_arvore;
    intros dir.
  - cbn [percorrer_com_data percorrer filename_de].
    destruct (extensao_permitida extensoes_permitidas n);
      [|split; [intros x []|reflexivity]].
    destruct m as [t|]; [|split; [intros x []|reflexivity]].
    destruct (fromtimestamp t); split; try reflexivity;
      [apply incl_refl|intros x []].
  - split; [intros x []|discriminate].
  - cbn [percorrer_com_data percorrer fst snd].
    split; [destruct g; intros x []|reflexivity].
  - cbn [percorrer_com_data percorrer filename_de fst snd].
    split; [|reflexivity].
    destruct g; [now apply incl_laco|intros x []].
Qed.

(** X5. The two walks compared. The dated walk, its dates dropped,
    never gives a file that the plain recursive walk of the same tree,
    with [self.sftp] set, does not give. When nothing troubles the
    dated walk (the connection is ensured at every directory and every
    time of a file of an allowed extension can be converted) its
    result, dates dropped, is the result of the plain walk, file for
    file and in the same order. And every name of the flat listing
    of a directory is found by the plain recursive walk at the path of
    that directory. *)
Theorem percursos_concordam (garantida sftp_presente : bool)
    (dir : string) (listagem : option (list entrada)) :
  incl (map (fun a : arquivo => (fst (fst a), snd (fst a)))
            (listar_arquivos_com_data extensoes_permitidas fromtimestamp
                                      garantida dir listagem))
       (listar_arquivos_recursivo extensoes_permitidas true dir listagem) /\
  (garantida = true ->
   (forall itens, listagem = Some itens ->
                  forallb (tranquila extensoes_permitidas fromtimestamp)
                          itens = true) ->
   map (fun a : arquivo => (fst (fst a), snd (fst a)))
       (listar_arquivos_com_data extensoes_permitidas fromtimestamp
                                 garantida dir listagem)
   = listar_arquivos_recursivo extensoes_permitidas true dir listagem) /\
  (forall n,
     In n (listar_arquivos extensoes_permitidas sftp_presente listagem) ->
     In (caminho_completo dir n, n)
        (listar_arquivos_recursivo extensoes_permitidas sftp_presente dir
                                   listagem)).
Proof.
  change (fun a : arquivo => (fst (fst a), snd (fst a))) with projecao.
  unfold listar_arquivos_com_data, listar_arquivos_recursivo,
    listar_arquivos.
  split; [|split].
  - cbn [negb]. destruct garantida; cbn [negb]; [|intros x []].
    destruct listagem as [itens|]; [|intros x []].
    apply incl_laco, Forall_forall. intros e _. apply incl_item.
  - intros -> T. cbn [negb].
    destruct listagem as [itens|]; [|reflexivity].
    apply projecao_laco; [|now apply T].
    apply Forall_forall. intros e _. apply projecao_item.
  - destruct sftp_presente; cbn [negb]; [|intros n []].
    destruct listagem as [itens|]; [|intros n []].
    destruct (existsb sem_modo itens) eqn:M; [intros n []|].
    intros n H. apply in_flat_map in H. destruct H as (e & He & Hn).
    destruct e as [n' m|n'|n' g c]; try destruct Hn.
    destruct (extensao_permitida extensoes_permitidas n') eqn:E;
      [|destruct Hn].
    destruct Hn as [<-|[]].
    apply in_split in He. destruct He as (antes & depois & ->).
    apply In_laco. exists antes, (EArquivo n' m), depois.
    split; [reflexivity|]. split.
    + rewrite existsb_app in M. apply orb_false_iff in M.
      destruct M as [M _]. apply Forall_forall. intros i Hi.
      assert (S : sem_modo i = false).
      { destruct (sem_modo i) eqn:S; [|reflexivity].
        assert (X : existsb sem_modo antes = true)
          by (apply existsb_exists; eauto).
        congruence. }
      destruct i; try reflexivity. discriminate.
    + cbn [percorrer filename_de fst]. rewrite E. simpl. auto.
Qed.
End PercursoFacts.

Lemma listar_arquivos_com_data_exato_witness :
  let arvore :=
    [EArquivo "010001000005909.pdf" (Some 1700000000%Z);
     EArquivo "notas.txt" None;
     EDiretorio "2024" true
       (Some [EArquivo "010001000005910.PDF" (Some 1700000002%Z);
              ESemModo "x";
              EArquivo "010001000005911.PDF" (Some 1700000003%Z)]);
     EDiretorio "restrito" true None] in
  let ft := fun t : Z => Some (mkdt 2023 11 14 22 13 (t - 1700000000) 0) in
  In ("/boletos/2024/010001000005910.PDF", "010001000005910.PDF",
      mkdt 2023 11 14 22 13 2 0)
     (listar_arquivos_com_data [".pdf"; ".PDF"] ft true "/boletos"
                               (Some arvore)).
Proof.
  intros arvore ft.
  apply (proj1 (listar_arquivos_com_data_exato [".pdf"; ".PDF"] ft
                  "/boletos" arvore _)).
  apply (np_diretorio [".pdf"; ".PDF"] ft "/boletos"
           [EArquivo "010001000005909.pdf" (Some 1700000000%Z);
            EArquivo "notas.txt" None]
           [EDiretorio "restrito" true None]
           [EArquivo "010001000005910.PDF" (Some 1700000002%Z);
            ESemModo "x";
            EArquivo "010001000005911.PDF" (Some 1700000003%Z)]
           "2024").
  - repeat constructor.
  - apply (np_arquivo [".pdf"; ".PDF"] ft "/boletos/2024" []
             [ESemModo "x";
              EArquivo "010001000005911.PDF" (Some 1700000003%Z)]
             "010001000005910.PDF" 1700000002%Z).
    + constructor.
    + reflexivity.
    + reflexivity.
Defined.

Lemma percursos_concordam_witness :
  map (fun a : arquivo => (fst (fst a), snd (fst a)))
      (listar_arquivos_com_data [".pdf"]
         (fun _ => Some (mkdt 2024 1 1 0 0 0 0)) true "/boletos/"
         (Some [EDiretorio "x" true None; EArquivo "a.pdf" (Some 0%Z)]))
  = listar_arquivos_recursivo [".pdf"] true "/boletos/"
      (Some [EDiretorio "x" true None; EArquivo "a.pdf" (Some 0%Z)]).
Proof.
  apply (proj1 (proj2 (percursos_concordam [".pdf"]
                         (fun _ => Some (mkdt 2024 1 1 0 0 0 0))
                         true true "/boletos/"
                         (Some [EDiretorio "x" true None;
                                EArquivo "a.pdf" (Some 0%Z)])))).
  - reflexivity.
  - intros itens [= <-]. reflexivity.
Defined.

(** *** Paths *)

Lemma contem_barra_cons (c : ascii) (r : string) :
  contem "/" (String c r) = Ascii.eqb c "/" || contem "/" r.
Proof.
  cbn [contem prefix].
  destruct (ascii_dec "/" c) as [<-|N].
  - now destruct r.
  - destruct (Ascii.eqb c "/") eqn:E; [|reflexivity].
    apply Ascii.eqb_eq in E. congruence.
Qed.

Lemma tem_barras_duplas_cons (c c' : ascii) (t : string) :
  tem_barras_duplas (String c (String c' t))
  = (Ascii.eqb c "/" && Ascii.eqb c' "/")
    || tem_barras_duplas (String c' t).
Proof. reflexivity. Qed.

Lemma contem_barras_duplas (s : string) :
  contem "//" s = tem_barras_duplas s.
Proof.
  induction s as [|c r IH]; [reflexivity|].
  destruct r as [|c' t].
  - cbn [contem prefix tem_barras_duplas].
    now destruct (ascii_dec "/" c).
  - rewrite tem_barras_duplas_cons, <- IH.
    cbn [contem]. f_equal. cbn [prefix].
    destruct (ascii_dec "/" c) as [<-|N].
    + destruct (ascii_dec "/" c') as [<-|N'].
      * now destruct t.
      * destruct (Ascii.eqb c' "/") eqn:E; [|reflexivity].
        apply Ascii.eqb_eq in E. congruence.
    + destruct (Ascii.eqb c "/") eqn:E; [|reflexivity].
      apply Ascii.eqb_eq in E. congruence.
Qed.

Lemma sem_barra_sem_duplas (f : string) :
  contem "/" f = false -> tem_barras_duplas f = false.
Proof.
  induction f as [|c r IH]; [reflexivity|].
  rewrite contem_barra_cons. intros H.
  apply orb_false_iff in H. destruct H as [Hc Hr].
  destruct r as [|c' t]; [reflexivity|].
  rewrite tem_barras_duplas_cons, Hc. simpl. now apply IH.
Qed.

Lemma replace_barras_cons (c c' : ascii) (t : string) :
  Ascii.eqb c "/" && Ascii.eqb c' "/" = false ->
  replace_barras (String c (String c' t))
  = String c (replace_barras (String c' t)).
Proof.
  intros H.
  change (replace_barras (String c (String c' t)))
    with (if Ascii.eqb c "/" && Ascii.eqb c' "/"
          then String "/" (replace_barras t)
          else String c (replace_barras (String c' t))).
  now rewrite H.
Qed.

Lemma replace_barras_sem_duplas (s : string) :
  tem_barras_duplas s = false -> replace_barras s = s.
Proof.
  induction s as [|c r IH]; [reflexivity|].
  destruct r as [|c' t]; [reflexivity|].
  rewrite tem_barras_duplas_cons. intros H.
  apply orb_false_iff in H. destruct H as [Hc Hr].
  rewrite (replace_barras_cons _ _ _ Hc). f_equal. now apply IH.
Qed.

Lemma barra_mais_nome (f : string) :
  contem "/" f = false ->
  tem_barras_duplas (String "/" f) = false /\
  replace_barras (String "/" f) = String "/" f.
Proof.
  intros H. assert (T : tem_barras_duplas (String "/" f) = false).
  { destruct f as [|c r]; [reflexivity|].
    rewrite tem_barras_duplas_cons, (sem_barra_sem_duplas _ H).
    rewrite contem_barra_cons in H. apply orb_false_iff in H.
    destruct H as [-> _]. reflexivity. }
  split; [exact T|now apply replace_barras_sem_duplas].
Qed.

Lemma caminho_completo_forma (d f : string) :
  tem_barras_duplas d = false -> contem "/" f = false ->
  caminho_completo d f = (sem_barra_final d ++ "/" ++ f)%string.
Proof.
  unfold caminho_completo. intros Hd Hf.
  destruct (barra_mais_nome f Hf) as [Tf Rf].
  induction d as [|c r IH]; [exact Rf|].
  destruct r as [|c' t].
  - cbn [sem_barra_final append]. destruct (Ascii.eqb c "/") eqn:E.
    + apply Ascii.eqb_eq in E. subst c. cbn.
      f_equal. apply replace_barras_sem_duplas.
      now apply sem_barra_sem_duplas.
    + change ((String c "" ++ "/" ++ f)%string)
        with (String c (String "/" f)).
      rewrite replace_barras_cons by (now rewrite E).
      rewrite Rf. reflexivity.
  - rewrite tem_barras_duplas_cons in Hd.
    apply orb_false_iff in Hd. destruct Hd as [Hc Hr].
    change ((String c (String c' t) ++ "/" ++ f)%string)
      with (String c (String c' (t ++ "/" ++ f)%string)).
    rewrite (replace_barras_cons _ _ _ Hc).
    change (String c' (t ++ "/" ++ f)%string)
      with ((String c' t ++ "/" ++ f)%string).
    rewrite (IH Hr). reflexivity.
Qed.

Lemma sem_barra_final_cabeca (c : ascii) (r f : string) :
  exists t, (sem_barra_final (String c r) ++ "/" ++ f)%string = String c t.
Proof.
  destruct r as [|c' t].
  - cbn [sem_barra_final]. destruct (Ascii.eqb c "/") eqn:E.
    + apply Ascii.eqb_eq in E. subst c. now exists f.
    + now exists (String "/" f).
  - now exists ((sem_barra_final (String c' t) ++ "/" ++ f)%string).
Qed.

Lemma caminho_sem_barras_duplas (d f : string) :
  tem_barras_duplas d = false -> contem "/" f = false ->
  tem_barras_duplas (sem_barra_final d ++ "/" ++ f)%string = false.
Proof.
  intros Hd Hf. destruct (barra_mais_nome f Hf) as [Tf _].
  induction d as [|c r IH]; [exact Tf|].
  destruct r as [|c' t].
  - cbn [sem_barra_final]. destruct (Ascii.eqb c "/") eqn:E; [exact Tf|].
    change ((String c "" ++ "/" ++ f)%string) with (String c (String "/" f)).
    rewrite tem_barras_duplas_cons, E. exact Tf.
  - rewrite tem_barras_duplas_cons in Hd.
    apply orb_false_iff in Hd. destruct Hd as [Hc Hr].
    specialize (IH Hr).
    destruct (sem_barra_final_cabeca c' t f) as [t' Et].
    change ((sem_barra_final (String c (String c' t)) ++ "/" ++ f)%string)
      with (String c (sem_barra_final (String c' t) ++ "/" ++ f)%string).
    rewrite Et in *. rewrite tem_barras_duplas_cons, Hc. exact IH.
Qed.

Lemma endswith_app (x y : string) : endswith (x ++ y)%string y = true.
Proof.
  induction x as [|c x IH]; simpl.
  - destruct y; simpl; [reflexivity|].
    now rewrite Ascii.eqb_refl, String.eqb_refl.
  - rewrite IH. apply orb_true_r.
Qed.

Lemma nomes_sem_barra_diretorio (n : string) (g : bool)
    (itens : list entrada) :
  nomes_sem_barra (EDiretorio n g (Some itens)) = true ->
  contem "/" n = false /\ forallb nomes_sem_barra itens = true.
Proof.
  cbn [nomes_sem_barra filename_de]. intros H.
  apply andb_true_iff in H. destruct H as [Hn Hi].
  apply negb_true_iff in Hn. split; [exact Hn|].
  induction itens as [|i itens IH]; [reflexivity|].
  apply andb_true_iff in Hi. destruct Hi as [H1 H2].
  cbn [forallb]. now rewrite H1, IH.
Qed.

Lemma nomes_sem_barra_meio (antes depois : list entrada) (e : entrada) :
  forallb nomes_sem_barra (antes ++ e :: depois) = true ->
  nomes_sem_barra e = true.
Proof.
  rewrite forallb_app. cbn [forallb]. intros H.
  apply andb_true_iff in H. destruct H as [_ H].
  apply andb_true_iff in H. tauto.
Qed.

Lemma no_percurso_caminho (exts : list string)
    (ft : Z -> option datetime)
    (dir : string) (itens : list entrada) (a : arquivo) :
  no_percurso exts ft dir itens a ->
  tem_barras_duplas dir = false ->
  forallb nomes_sem_barra itens = true ->
  tem_barras_duplas (fst (fst a)) = false /\
  endswith (fst (fst a)) ("/" ++ snd (fst a)) = true.
Proof.
  induction 1 as [dir antes depois n t d _ Hext _
                 |dir antes depois sub n a _ _ IH];
    intros Hd Hn; apply nomes_sem_barra_meio in Hn.
  - cbn [nomes_sem_barra filename_de] in Hn.
    rewrite andb_true_r in Hn. apply negb_true_iff in Hn.
    cbn [fst snd]. rewrite (caminho_completo_forma _ _ Hd Hn).
    split; [now apply caminho_sem_barras_duplas|apply endswith_app].
  - apply nomes_sem_barra_diretorio in Hn. destruct Hn as [Hn Hs].
    apply IH; [|exact Hs].
    rewrite (caminho_completo_forma _ _ Hd Hn).
    now apply caminho_sem_barras_duplas.
Qed.

(** X4. When the directory walked holds no double slash and no name of
    the tree holds a slash, every path the walk returns is free of
    double slashes and ends with a slash followed by the name of its
    file, whether the directory itself ends with a slash or not. *)
Theorem caminhos_normalizados (exts : list string)
    (ft : Z -> option datetime) (garantida : bool)
    (dir : string) (itens : list entrada) (a : arquivo) :
  contem "//" dir = false ->
  forallb nomes_sem_barra itens = true ->
  In a (listar_arquivos_com_data exts ft garantida dir (Some itens)) ->
  contem "//" (fst (fst a)) = false /\
  endswith (fst (fst a)) ("/" ++ snd (fst a)) = true.
Proof.
  intros Hd Hn Ha. rewrite contem_barras_duplas in *.
  apply (no_percurso_caminho exts ft dir itens a); auto.
  unfold listar_arquivos_com_data in Ha.
  destruct garantida; [|destruct Ha]. cbn [negb] in Ha.
  apply In_laco in Ha.
  destruct Ha as (antes & item & depois & -> & F & Ha).
  apply In_no_percurso; [|exact Ha]. now apply (Forall_segue exts ft dir).
Qed.

Lemma caminhos_normalizados_witness :
  contem "//" "/boletos/2024/a.pdf" = false /\
  endswith "/boletos/2024/a.pdf" "/a.pdf" = true.
Proof.
  apply (caminhos_normalizados [".pdf"]
           (fun _ => Some (mkdt 2024 1 1 0 0 0 0)) true
           "/boletos/"
           [EDiretorio "2024" true (Some [EArquivo "a.pdf" (Some 0%Z)])]
           ("/boletos/2024/a.pdf", "a.pdf", mkdt 2024 1 1 0 0 0 0)).
  - reflexivity.
  - reflexivity.
  - simpl. auto.
Defined.

End WalkerFacts.

(* ================================================================= *)
(** ** The result table *)

Module TabelaFacts.
Import Tabela.

Lemma filter_todos {A} (f : A -> bool) (l : list A) :
  (forall x, In x l -> f x = true) -> filter f l = l.
Proof.
  induction l as [|x l IH]; intros H; simpl; [reflexivity|].
  rewrite (H x) by (simpl; auto). f_equal. apply IH.
  intros y Hy. apply H. simpl. auto.
Qed.

Lemma achatar_cons (n : string) (ms : list hit)
    (g : list (string * list hit)) :
  achatar ((n, ms) :: g) = ms ++ achatar g.
Proof. reflexivity. Qed.

Lemma achatar_app (g1 g2 : list (string * list hit)) :
  achatar (g1 ++ g2) = achatar g1 ++ achatar g2.
Proof. unfold achatar. now rewrite map_app, concat_app. Qed.

Lemma achatar_dict_set (n : string) (ms x : list hit)
    (g : list (string * list hit)) :
  dict_get string_dec n g = Some ms ->
  Permutation (achatar (dict_set string_dec n (ms ++ x) g)) (achatar g ++ x).
Proof.
  induction g as [|[k v] g IH]; cbn [dict_get dict_set]; [discriminate|].
  destruct (string_dec n k) as [E|E]; intros H.
  - injection H as ->. rewrite !achatar_cons, <- !app_assoc.
    apply Permutation_app_head, Permutation_app_comm.
  - rewrite !achatar_cons, <- app_assoc.
    apply Permutation_app_head. now apply IH.
Qed.

(** The second loop of the Grouper shares out the entries of the first
    dictionary: none is lost, none is doubled. *)
Lemma achatar_agrupar (mr : list (chave_unica * hit)) :
  Permutation (achatar (agrupar_por_numero mr)) (map snd mr).
Proof.
  induction mr as [|[[n t] h] mr IH] using rev_ind; [constructor|].
  rewrite agrupar_snoc, map_app. simpl. unfold passo_grupo.
  destruct (dict_get string_dec n (agrupar_por_numero mr)) as [ms|] eqn:G.
  - rewrite (achatar_dict_set _ _ _ _ G). now apply Permutation_app_tail.
  - apply (dict_get_None string_dec) in G.
    rewrite (dict_set_novo string_dec) by exact G.
    rewrite achatar_app. now apply Permutation_app_tail.
Qed.

Lemma achatar_map_ordenar (g : list (string * list hit)) :
  Permutation
    (achatar (map (fun x => (fst x, ordenar ordem_ltb (snd x))) g))
    (achatar g).
Proof.
  induction g as [|[n ms] g IH]; simpl; [constructor|].
  rewrite !achatar_cons. apply Permutation_app; [apply ordenar_perm|exact IH].
Qed.

Lemma achatar_perm (g g' : list (string * list hit)) :
  Permutation g g' -> Permutation (achatar g) (achatar g').
Proof.
  induction 1 as [|[n ms] g g' P IH|[n ms] [n' ms'] g|g g' g'' P IH P' IH'].
  - constructor.
  - rewrite !achatar_cons. now apply Permutation_app_head.
  - rewrite !achatar_cons, !app_assoc.
    apply Permutation_app_tail, Permutation_app_comm.
  - now transitivity (achatar g').
Qed.

Lemma achatar_agrupar_resultados (rs : list hit) :
  Permutation (achatar (_agrupar_resultados rs)) (map snd (mais_recentes rs)).
Proof.
  unfold _agrupar_resultados.
  rewrite achatar_map_ordenar. apply achatar_agrupar.
Qed.

Lemma mais_recentes_In (l : list hit) (k : chave_unica) (h : hit) :
  In (k, h) (mais_recentes l) -> In h l.
Proof.
  revert k h. induction l as [|x l IH] using rev_ind; intros k h;
    [intros []|].
  rewrite mais_recentes_snoc. unfold passo_mais_recente. intros H.
  apply in_or_app.
  destruct (dict_get chave_unica_dec (chave_de x) (mais_recentes l))
    as [atual|];
    [destruct (dt_gtb (data_mod x) (data_mod atual))|];
    try (apply dict_set_In in H; destruct H as [[_ ->]|H]; simpl; eauto);
    eauto.
Qed.

Lemma grupos_validos_todos (rs : list hit) :
  grupos_validos (_agrupar_resultados rs)
  = ordenar item_ltb (_agrupar_resultados rs).
Proof.
  unfold grupos_validos. apply filter_todos. intros [n ms] H.
  apply (Permutation_in _ (ordenar_perm item_ltb _)) in H.
  destruct (agrupar_resultados_bem_formados rs) as [_ Hf].
  rewrite Forall_forall in Hf. destruct (Hf _ H) as [Hne _].
  simpl in *. now destruct ms.
Qed.

Lemma item_ltb_asym (a b : string * list hit) :
  item_ltb a b = true -> item_ltb b a = false.
Proof. apply string_ltb_asym. Qed.

Lemma string_ltb_total (a b : string) :
  String.ltb b a = false -> a <> b -> String.ltb a b = true.
Proof.
  unfold String.ltb. rewrite (String.compare_antisym b a).
  destruct (String.compare a b) eqn:E; simpl; try easy.
  apply String.compare_eq_iff in E. congruence.
Qed.

Lemma ordenar_itens_crescente (g : list (string * list hit)) :
  NoDup (map fst g) ->
  StronglySorted (fun a b => String.ltb (fst a) (fst b) = true)
                 (ordenar item_ltb g).
Proof.
  intros Hn.
  assert (Hn' : NoDup (map fst (ordenar item_ltb g))).
  { eapply Permutation_NoDup; [|exact Hn].
    apply Permutation_map. symmetry. apply ordenar_perm. }
  assert (S : StronglySorted (fun a b => item_ltb b a = false)
                             (ordenar item_ltb g)).
  { apply Sorted_StronglySorted.
    - intros a b c Hab Hbc. unfold item_ltb in *.
      destruct (String.ltb (fst c) (fst a)) eqn:E; [|reflexivity].
      destruct (string_ltb_neg_trans _ (fst b) _ E); congruence.
    - apply ordenar_sorted. exact item_ltb_asym. }
  induction S as [|a l S IH F]; [constructor|].
  simpl in Hn'. inversion Hn' as [|? ? Ha Hl]; subst.
  constructor; [now apply IH|].
  rewrite Forall_forall in *. intros b Hb.
  apply string_ltb_total; [exact (F b Hb)|].
  intros E. apply Ha. rewrite E. now apply in_map.
Qed.

(** X6. The table shows every group of the Grouper, none dropped by the
    filter on empty groups, and in strictly increasing order of their
    numbers. *)
Theorem grupos_validos_crescentes (rs : list hit) :
  Permutation (grupos_validos (_agrupar_resultados rs))
              (_agrupar_resultados rs) /\
  qtd_grupos (_buscar_callback rs) = List.length (_agrupar_resultados rs) /\
  StronglySorted (fun a b => String.ltb (fst a) (fst b) = true)
                 (grupos_validos (_agrupar_resultados rs)).
Proof.
  cbn [_buscar_callback qtd_grupos]. rewrite grupos_validos_todos.
  split; [apply ordenar_perm|]. split.
  - apply Permutation_length, ordenar_perm.
  - apply ordenar_itens_crescente.
    apply (agrupar_resultados_bem_formados rs).
Qed.

Lemma filter_documentos (hs : list hit) :
  filter e_documento (map linha_do_hit hs) = map linha_do_hit hs.
Proof. apply filter_todos. intros l H. apply in_map_iff in H.
  now destruct H as (h & <- & _).
Qed.

Lemma filter_separadores (hs : list hit) :
  filter (fun l => negb (e_documento l)) (map linha_do_hit hs) = [].
Proof. induction hs as [|h hs IH]; simpl; auto. Qed.

Lemma popular_documentos (idx : nat) (g : list (string * list hit)) :
  filter e_documento (popular idx g) = map linha_do_hit (achatar g).
Proof.
  revert idx. induction g as [|[n ms] g IH]; intros idx; [reflexivity|].
  cbn [popular]. rewrite !filter_app, IH, filter_documentos, achatar_cons,
    map_app.
  now destruct (0 <? idx).
Qed.

Lemma popular_separadores (idx : nat) (g : list (string * list hit)) :
  List.length (filter (fun l => negb (e_documento l)) (popular idx g))
  = List.length g - (if 0 <? idx then 0 else 1).
Proof.
  revert idx. induction g as [|[n ms] g IH]; intros idx; [reflexivity|].
  cbn [popular].
  rewrite !filter_app, !List.length_app, IH, filter_separadores.
  change (0 <? S idx) with true. simpl List.length at 2 3.
  destruct (0 <? idx); simpl; lia.
Qed.

(** X7. The document rows of the table are, group after group, the rows
    of the hits the first loop of the Grouper retained, each of them
    once; one separator stands between two groups, none before the
    first group and none after the last. *)
Theorem tabela_linhas (rs : list hit) :
  exists hs,
    Permutation hs (map snd (mais_recentes rs)) /\
    filter e_documento (linhas (_buscar_callback rs)) = map linha_do_hit hs /\
    List.length (filter (fun l => negb (e_documento l))
                        (linhas (_buscar_callback rs)))
    = qtd_grupos (_buscar_callback rs) - 1 /\
    (forall l r, linhas (_buscar_callback rs) = l :: r ->
                 e_documento l = true) /\
    (forall r l, linhas (_buscar_callback rs) = r ++ [l] ->
                 e_documento l = true).
Proof.
  exists (achatar (grupos_validos (_agrupar_resultados rs))).
  cbn [_buscar_callback linhas qtd_grupos].
  split; [|split; [|split; [|split]]].
  - rewrite grupos_validos_todos.
    rewrite (achatar_perm _ _ (ordenar_perm item_ltb _)).
    apply achatar_agrupar_resultados.
  - apply popular_documentos.
  - now rewrite popular_separadores.
  - rewrite grupos_validos_todos.
    assert (Hf : Forall grupo_bem_formado
                        (ordenar item_ltb (_agrupar_resultados rs))).
    { eapply Permutation_Forall;
        [symmetry; apply ordenar_perm
        |apply (agrupar_resultados_bem_formados rs)]. }
    destruct Hf as [|[n ms] g [Hne _] _]; [discriminate|].
    simpl in Hne. destruct ms as [|h ms]; [congruence|].
    cbn. now intros l r [= <- _].
  - rewrite grupos_validos_todos.
    assert (Hf : Forall grupo_bem_formado
                        (ordenar item_ltb (_agrupar_resultados rs))).
    { eapply Permutation_Forall;
        [symmetry; apply ordenar_perm
        |apply (agrupar_resultados_bem_formados rs)]. }
    generalize 0.
    induction Hf as [|[n ms] g [Hne _] Hf IH]; intros idx r l E.
    + now destruct r.
    + cbn [popular] in E. simpl in Hne.
      destruct g as [|g0 g].
      * cbn [popular] in E. rewrite app_nil_r in E.
        destruct ms as [|h ms] using rev_ind; [congruence|].
        rewrite map_app, app_assoc in E. simpl in E.
        apply app_inj_tail in E. now destruct E as [_ <-].
      * destruct (popular (S idx) (g0 :: g)) as [|x p] eqn:P.
        { destruct g0 as [n0 ms0]. cbn [popular] in P.
          change (0 <? S idx) with true in P. discriminate. }
        rewrite <- P in E.
        assert (X : exists r', popular (S idx) (g0 :: g) = r' ++ [l]).
        { rewrite P in *.
          destruct (exists_last (l := x :: p)) as (r' & l' & E');
            [discriminate|].
          rewrite E' in E. rewrite !app_assoc in E.
          apply app_inj_tail in E. destruct E as [_ ->]. now exists r'. }
        destruct X as [r' X]. exact (IH (S idx) r' l X).
Qed.

Lemma documentos_da_tabela (rs : list hit) :
  exists hs,
    Permutation hs (map snd (mais_recentes rs)) /\
    filter e_documento (linhas (_buscar_callback rs)) = map linha_do_hit hs.
Proof.
  exists (achatar (grupos_validos (_agrupar_resultados rs))).
  cbn [_buscar_callback linhas]. split; [|apply popular_documentos].
  rewrite grupos_validos_todos.
  rewrite (achatar_perm _ _ (ordenar_perm item_ltb _)).
  apply achatar_agrupar_resultados.
Qed.

Lemma chaves_mais_recentes (rs : list hit) :
  incl (map fst (mais_recentes rs)) (map chave_de rs).
Proof.
  intros k H. apply in_map_iff in H. destruct H as ([k' h] & <- & H).
  simpl. rewrite <- (mais_recentes_chave _ _ _ H).
  apply in_map. exact (mais_recentes_In _ _ _ H).
Qed.

Lemma contar_tipos (rs : list hit) :
  Forall (fun h => tipo h = "BOLETO" \/ tipo h = "NF") rs ->
  contar_tipo "BOLETO" rs + contar_tipo "NF" rs = List.length rs.
Proof.
  unfold contar_tipo.
  induction 1 as [|h rs [E|E] _ IH]; [reflexivity| |];
    cbn [filter]; rewrite E; simpl; lia.
Qed.

(** X8. For hits typed as invoices or tax documents, the total of the
    count label is the number of hits found, while the table holds one
    row per number and type: the table never has more document rows than
    the label counts, and has as many exactly when no two hits share
    their number and type. *)
Theorem total_e_linhas (rs : list hit) :
  Forall (fun h => tipo h = "BOLETO" \/ tipo h = "NF") rs ->
  total (_buscar_callback rs) = List.length rs /\
  List.length (filter e_documento (linhas (_buscar_callback rs)))
  <= total (_buscar_callback rs) /\
  (List.length (filter e_documento (linhas (_buscar_callback rs)))
   = total (_buscar_callback rs)
   <-> NoDup (map chave_de rs)).
Proof.
  intros Ht. destruct (documentos_da_tabela rs) as (hs & P & ->).
  cbn [_buscar_callback total]. rewrite (contar_tipos rs Ht).
  rewrite length_map, (Permutation_length P), length_map.
  rewrite <- (length_map fst (mais_recentes rs)).
  rewrite <- (length_map chave_de rs) at 1 2 3.
  pose proof (mais_recentes_NoDup rs) as Hn.
  pose proof (chaves_mais_recentes rs) as Hi.
  split; [now rewrite length_map|].
  split; [now apply NoDup_incl_length|]. split.
  - intros E. eapply NoDup_incl_NoDup; [exact Hn| |exact Hi].
    rewrite (length_map chave_de). lia.
  - intros Hd. now rewrite (mais_recentes_distintos rs Hd), !length_map.
Qed.

Lemma total_e_linhas_witness :
  total (_buscar_callback
           [mkhit "/b/010001000005910.PDF" "010001000005910.PDF"
                  (mkdt 2024 1 2 0 0 0 0) "BOLETO";
            mkhit "/c/010001000005910.PDF" "010001000005910.PDF"
                  (mkdt 2024 1 1 0 0 0 0) "BOLETO"]) = 2.
Proof.
  refine (proj1 (total_e_linhas _ _)).
  repeat constructor.
Defined.

(** *** Checkboxes *)

Lemma nth_vazia (i : nat) : nth i [] LSeparador = LSeparador.
Proof. now destruct i. Qed.

Lemma In_itens_marcados (t : list linha_tabela) (k i : nat) :
  In i (itens_marcados_desde k t)
  <-> k <= i /\ selecionavel (nth (i - k) t LSeparador) = true.
Proof.
  revert k. induction t as [|l r IH]; intros k.
  - rewrite nth_vazia. simpl.
    split; [tauto|intros [_ H]; discriminate].
  - cbn [itens_marcados_desde]. rewrite in_app_iff, IH.
    fold (selecionavel l).
    destruct (Nat.eq_dec i k) as [->|N].
    + rewrite Nat.sub_diag. cbn [nth].
      destruct (selecionavel l); simpl; split; try tauto; try lia.
    + assert (Hk : In i (if selecionavel l then [k] else []) -> False).
      { destruct (selecionavel l); simpl; [intros [H|[]]; lia|tauto]. }
      destruct (le_lt_dec k i) as [L|L].
      * replace (i - k) with (S (i - S k)) by lia. cbn [nth]. split.
        -- intros [H|[H1 H2]]; [tauto|]. split; [lia|exact H2].
        -- intros [H1 H2]. right. split; [lia|exact H2].
      * split; [intros [H|[H1 H2]]; [tauto|lia]|intros [H1 _]; lia].
Qed.

Lemma contagem_desde (t : list linha_tabela) (k m n : nat) :
  fold_left (fun '(marcados, total) l =>
               if e_documento l
               then ((if marcada l then S marcados else marcados), S total)
               else (marcados, total))
            t (m, n)
  = (m + List.length (itens_marcados_desde k t),
     n + List.length (filter e_documento t)).
Proof.
  revert k m n. induction t as [|l r IH]; intros k m n; simpl.
  - f_equal; lia.
  - rewrite List.length_app.
    destruct (e_documento l), (marcada l); rewrite (IH (S k)); simpl;
      f_equal; lia.
Qed.

(** X9. The two numbers of the selection label are the number of rows
    [obter_itens_marcados] returns and the number of document rows of
    the table: the label counts what a download would take. *)
Theorem contagem_selecionados_correta (t : list linha_tabela) :
  contagem_selecionados t
  = (List.length (obter_itens_marcados t),
     List.length (filter e_documento t)).
Proof.
  unfold contagem_selecionados, obter_itens_marcados.
  now rewrite (contagem_desde t 0).
Qed.

Lemma e_documento_com_marca (m : bool) (l : linha_tabela) :
  e_documento (com_marca m l) = e_documento l.
Proof. now destruct l. Qed.

Lemma marcada_com_marca (m : bool) (l : linha_tabela) :
  marcada (com_marca m l) = m && e_documento l.
Proof. destruct l; simpl; [now rewrite andb_false_r|now rewrite andb_true_r].
Qed.

Lemma itens_marcados_desmarcar (k : nat) (t : list linha_tabela) :
  itens_marcados_desde k (map (com_marca false) t) = [].
Proof.
  revert k. induction t as [|l r IH]; intros k; [reflexivity|].
  cbn [map itens_marcados_desde].
  rewrite IH, marcada_com_marca, andb_false_r. reflexivity.
Qed.

Lemma itens_marcados_marcar (k : nat) (t : list linha_tabela) :
  itens_marcados_desde k (map (com_marca true) t)
  = filter (fun i => e_documento (nth (i - k) t LSeparador))
           (seq k (List.length t)).
Proof.
  revert k. induction t as [|l r IH]; intros k; [reflexivity|].
  cbn [map itens_marcados_desde List.length seq filter].
  rewrite IH, marcada_com_marca, e_documento_com_marca, Nat.sub_diag.
  cbn [nth]. rewrite andb_true_l, andb_diag.
  assert (E : filter (fun i => e_documento (nth (i - S k) r LSeparador))
                     (seq (S k) (List.length r))
              = filter (fun i => e_documento (nth (i - k) (l :: r) LSeparador))
                       (seq (S k) (List.length r))).
  { apply filter_ext_in. intros i Hi. apply in_seq in Hi.
    replace (i - k) with (S (i - S k)) by lia. reflexivity. }
  rewrite E. now destruct (e_documento l).
Qed.

Lemma todos_marcados_contagem (k : nat) (t : list linha_tabela) :
  List.length (itens_marcados_desde k t)
  <= List.length (filter e_documento t) /\
  (forallb (fun l => negb (e_documento l) || marcada l) t = true
   <-> List.length (itens_marcados_desde k t)
       = List.length (filter e_documento t)).
Proof.
  revert k. induction t as [|l r IH]; intros k.
  - simpl. split; [lia|tauto].
  - destruct (IH (S k)) as [L E].
    cbn [itens_marcados_desde forallb filter]. rewrite List.length_app.
    destruct (e_documento l), (marcada l); simpl; rewrite ?E;
      (split; [lia|]); split; intros H; try lia; try discriminate.
Qed.

(** X10. After [desmarcar_todos] no row is selected; after
    [marcar_todos] the selection is every document row of the table, in
    table order, and no separator; [toggle_todos_checkboxes] clears the
    selection when the label reads all marked, which includes the table
    without documents, and selects every document row otherwise. *)
Theorem marcar_e_desmarcar_todos (t : list linha_tabela) :
  obter_itens_marcados (desmarcar_todos t) = [] /\
  obter_itens_marcados (marcar_todos t)
  = filter (fun i => e_documento (nth i t LSeparador))
           (seq 0 (List.length t)) /\
  obter_itens_marcados (toggle_todos_checkboxes t)
  = (if fst (contagem_selecionados t) =? snd (contagem_selecionados t)
     then []
     else obter_itens_marcados (marcar_todos t)).
Proof.
  unfold obter_itens_marcados, desmarcar_todos, marcar_todos,
    toggle_todos_checkboxes.
  split; [apply itens_marcados_desmarcar|]. split.
  - rewrite itens_marcados_marcar. apply filter_ext. intros i.
    now rewrite Nat.sub_0_r.
  - unfold contagem_selecionados. rewrite (contagem_desde t 0).
    cbn [fst snd Nat.add].
    destruct (todos_marcados_contagem 0 t) as [_ E].
    destruct (forallb _ t).
    + rewrite (proj2 (Nat.eqb_eq _ _)) by (now apply E).
      apply itens_marcados_desmarcar.
    + destruct (Nat.eqb_spec (List.length (itens_marcados_desde 0 t))
                             (List.length (filter e_documento t))) as [C|C];
        [apply E in C; discriminate|reflexivity].
Qed.



(** *** From the table to the download *)

Lemma linhas_validas (rs : list hit) (l : linha_tabela) :
  Forall (fun h => tipo h = "BOLETO" \/ tipo h = "NF") rs ->
  In l (linhas (_buscar_callback rs)) ->
  Download.linha_valida (valores_de l).
Proof.
  intros Ht Hl. destruct (e_documento l) eqn:D; [|now destruct l].
  destruct (documentos_da_tabela rs) as (hs & P & E).
  assert (H : In l (map linha_do_hit hs))
    by (rewrite <- E; apply filter_In; auto).
  apply in_map_iff in H. destruct H as (h & <- & H).
  apply (Permutation_in _ P) in H. apply in_map_iff in H.
  destruct H as ([k h'] & <- & H). apply mais_recentes_In in H.
  rewrite Forall_forall in Ht.
  exact (DownloadFacts.linha_de_valida _ (Ht _ H)).
Qed.

Lemma marcado_na_tabela (t : list linha_tabela) (i : nat) :
  In i (obter_itens_marcados t) ->
  e_documento (nth i t LSeparador) = true /\ In (nth i t LSeparador) t.
Proof.
  intros H. apply In_itens_marcados in H. destruct H as [_ H].
  rewrite Nat.sub_0_r in H. unfold selecionavel in H.
  apply andb_true_iff in H. destruct H as [H _]. split; [exact H|].
  destruct (le_lt_dec (List.length t) i) as [L|L].
  - rewrite nth_overflow in H by exact L. discriminate.
  - now apply nth_In.
Qed.

Lemma arquivos_de_documentos (t : list linha_tabela) (sel : list nat) :
  Forall (fun i => e_documento (nth i t LSeparador) = true) sel ->
  List.length (Download.arquivos_de (selecao_de t sel)) = List.length sel.
Proof.
  unfold Download.arquivos_de, selecao_de.
  induction 1 as [|i sel H _ IH]; [reflexivity|].
  cbn [map flat_map]. rewrite List.length_app, IH.
  now destruct (nth i t LSeparador).
Qed.

(** X12. [baixar_selecionado] on a table whose document rows carry the
    download columns of rows that a search inserted, whatever happened
    since to the checkboxes, the client column and the order of the
    rows: without a marked row, or without a connection, nothing is
    fetched; one marked row goes to [_baixar_unico], which never meets
    a separator; several marked rows go to [_baixar_multiplos] with a
    request of at least two files, one per marked row, whose rows are
    all valid. *)
Theorem selecao_pronta_para_baixar (rs : list hit) (t : list linha_tabela)
    (conectado : bool) :
  Forall (fun h => tipo h = "BOLETO" \/ tipo h = "NF") rs ->
  (forall l, In l t -> e_documento l = true ->
             exists l', In l' (linhas (_buscar_callback rs)) /\
                        valores_de l = valores_de l') ->
  match baixar_selecionado conectado t with
  | AvisoMarcar => obter_itens_marcados t = []
  | AvisoConectar => conectado = false
  | BaixarUnico item_id =>
      conectado = true /\ obter_itens_marcados t = [item_id] /\
      _baixar_unico t item_id <> None
  | BaixarMultiplos selecao =>
      conectado = true /\ selecao = obter_itens_marcados t /\
      2 <= List.length selecao /\
      Forall Download.linha_valida (selecao_de t selecao) /\
      List.length (Download.arquivos_de (selecao_de t selecao))
      = List.length selecao
  end.
Proof.
  intros Ht Hv. unfold baixar_selecionado.
  assert (Hm : forall i, In i (obter_itens_marcados t) ->
                         e_documento (nth i t LSeparador) = true /\
                         Download.linha_valida
                           (valores_de (nth i t LSeparador))).
  { intros i Hi. destruct (marcado_na_tabela t i Hi) as [D I].
    split; [exact D|]. destruct (Hv _ I D) as (l' & Hl' & ->).
    now apply (linhas_validas rs). }
  destruct (obter_itens_marcados t) as [|a [|b m]] eqn:E; [reflexivity| |];
    destruct conectado; cbn [negb]; try reflexivity.
  - split; [reflexivity|]. split; [reflexivity|].
    destruct (Hm a) as [D _]; [simpl; auto|].
    unfold _baixar_unico. now destruct (nth a t LSeparador).
  - split; [reflexivity|]. split; [reflexivity|].
    split; [simpl; lia|]. split.
    + apply Forall_forall. intros x Hx. apply in_map_iff in Hx.
      destruct Hx as (i & <- & Hi). now apply Hm.
    + apply arquivos_de_documentos, Forall_forall.
      intros i Hi. now apply Hm.
Qed.

Lemma selecao_pronta_para_baixar_witness :
  let rs := [mkhit "/b/010001000005910.PDF" "010001000005910.PDF"
                   (mkdt 2024 1 2 0 0 0 0) "BOLETO";
             mkhit "/n/010001000005910.PDF" "010001000005910.PDF"
                   (mkdt 2024 1 1 0 0 0 0) "NF"] in
  let t := marcar_todos (linhas (_buscar_callback rs)) in
  match baixar_selecionado true t with
  | AvisoMarcar => obter_itens_marcados t = []
  | AvisoConectar => true = false
  | BaixarUnico item_id =>
      true = true /\ obter_itens_marcados t = [item_id] /\
      _baixar_unico t item_id <> None
  | BaixarMultiplos selecao =>
      true = true /\ selecao = obter_itens_marcados t /\
      2 <= List.length selecao /\
      Forall Download.linha_valida (selecao_de t selecao) /\
      List.length (Download.arquivos_de (selecao_de t selecao))
      = List.length selecao
  end.
Proof.
  intros rs t. apply (selecao_pronta_para_baixar rs t true).
  - constructor; [left; reflexivity|].
    constructor; [right; reflexivity|constructor].
  - intros l Hl _. unfold t, marcar_todos in Hl.
    apply in_map_iff in Hl. destruct Hl as (l' & <- & Hl').
    exists l'. split; [exact Hl'|now destruct l'].
Defined.

End TabelaFacts.

(* ================================================================= *)
(** ** The number shown and the number searched *)

Module NumeroFacts.

Lemma append_vazio (s : string) : (s ++ "")%string = s.
Proof. induction s as [|c s IH]; simpl; congruence. Qed.

Lemma append_assoc (a b c : string) :
  ((a ++ b) ++ c)%string = (a ++ b ++ c)%string.
Proof. induction a as [|x a IH]; simpl; congruence. Qed.

Lemma zeros_snoc (k : nat) : (zeros k ++ "0")%string = zeros (S k).
Proof. induction k as [|k IH]; simpl in *; congruence. Qed.

Lemma lstrip_zeros_decomp (x : string) :
  length (lstrip_zeros x) <= length x /\
  x = (zeros (length x - length (lstrip_zeros x)) ++ lstrip_zeros x)%string.
Proof.
  induction x as [|c x [L E]]; [split; reflexivity|].
  cbn [lstrip_zeros]. destruct (Ascii.eqb c "0") eqn:C.
  - apply Ascii.eqb_eq in C. subst c. split; [cbn [length]; lia|].
    replace (length (String "0" x) - length (lstrip_zeros x))
      with (S (length x - length (lstrip_zeros x)))
      by (cbn [length]; lia).
    cbn [zeros append]. now rewrite <- E.
  - split; [lia|]. now rewrite Nat.sub_diag.
Qed.

Lemma sem_zeros_decomp (x : string) :
  x <> "" ->
  x = (zeros (length x - length (sem_zeros_a_esquerda x))
       ++ sem_zeros_a_esquerda x)%string.
Proof.
  intros Hx. destruct (lstrip_zeros_decomp x) as [L E].
  unfold sem_zeros_a_esquerda.
  destruct (String.eqb (lstrip_zeros x) "") eqn:V; [|exact E].
  apply String.eqb_eq in V. rewrite V, append_vazio in E.
  destruct x as [|c x]; [congruence|].
  change (length "0") with 1.
  replace (length (String c x) - 1) with (length x)
    by (cbn [length]; lia).
  rewrite zeros_snoc. now rewrite Nat.sub_0_r in E.
Qed.

Lemma filtra_todos (p : ascii -> bool) (s : string) :
  forallb p (chars s) = true -> filtra p s = s.
Proof.
  induction s as [|c s IH]; simpl; [reflexivity|].
  intros H. apply andb_true_iff in H. destruct H as [-> H].
  now rewrite IH.
Qed.

Lemma prefix_app (p b : string) : prefix p (p ++ b) = true.
Proof.
  induction p as [|c p IH]; simpl; [now destruct b|].
  now destruct (ascii_dec c c).
Qed.

Lemma contem_app (a sub b : string) :
  contem sub (a ++ sub ++ b) = true.
Proof.
  induction a as [|c a IH]; simpl.
  - destruct (sub ++ b)%string eqn:E; cbn [contem];
      rewrite <- E, prefix_app; reflexivity.
  - rewrite IH. apply orb_true_r.
Qed.

Lemma substring_0_decomp (m : nat) (s : string) :
  exists b, s = (substring 0 m s ++ b)%string.
Proof.
  revert m. induction s as [|c s IH]; intros [|m].
  - now exists "".
  - now exists "".
  - now exists (String c s).
  - destruct (IH m) as (b & E). exists b. simpl. now rewrite <- E.
Qed.

Lemma substring_decomp (n m : nat) (s : string) :
  exists a b, s = (a ++ substring n m s ++ b)%string.
Proof.
  revert n. induction s as [|c s IH]; intros n.
  - exists "", "". now destruct n, m.
  - destruct n as [|n].
    + destruct (substring_0_decomp m (String c s)) as (b & E).
      now exists "", b.
    + destruct (IH n) as (a & b & E). exists (String c a), b.
      simpl. now rewrite <- E.
Qed.

Lemma contem_comprimento (sub s : string) :
  contem sub s = true -> length sub <= length s.
Proof.
  induction s as [|c s IH]; cbn [contem]; intros H.
  - rewrite orb_false_r in H. now destruct sub.
  - apply orb_true_iff in H. destruct H as [H|H]; [|simpl; auto].
    clear IH. revert H. generalize (String c s). clear.
    induction sub as [|x sub IH]; intros s H; simpl; [lia|].
    destruct s as [|y s]; [discriminate|]. simpl in H.
    destruct (ascii_dec x y); [|discriminate].
    apply IH in H. simpl. lia.
Qed.

Lemma zeros_re_d (k : nat) : forallb re_d (chars (zeros k)) = true.
Proof. induction k as [|k IH]; simpl; auto. Qed.

(** What [formatar_numero_boleto] makes of a decimal number. *)
Lemma formatar_decimal (e : string) :
  Download.decimal e ->
  formatar_numero_boleto e = (zeros (9 - length e) ++ e)%string /\
  so_digitos (formatar_numero_boleto e) = formatar_numero_boleto e /\
  formatar_numero_boleto e <> "".
Proof.
  intros [Hne Hd]. unfold formatar_numero_boleto.
  assert (Ei : so_isdigit e = e)
    by (apply filtra_todos, DownloadFacts.re_d_isdigit, Hd).
  rewrite Ei. apply String.eqb_neq in Hne. rewrite Hne.
  apply String.eqb_neq in Hne.
  assert (Ez : zfill 9 e = (zeros (9 - length e) ++ e)%string).
  { rewrite <- Ei, zfill_so_isdigit, Ei. reflexivity. }
  split; [exact Ez|]. split; [|now apply zfill_nao_vazio].
  rewrite Ez. apply filtra_todos.
  unfold chars. rewrite chars_app, forallb_app, zeros_re_d. exact Hd.
Qed.

Lemma extrair_de (nome : string) :
  exists x,
    _extrair_numero_documento nome = sem_zeros_a_esquerda x /\
    (exists a b, so_digitos nome = (a ++ x ++ b)%string) /\
    length x = Nat.min 9 (length (so_digitos nome)) /\
    (15 <= length (so_digitos nome) -> x = fatia 6 15 (so_digitos nome)).
Proof.
  unfold _extrair_numero_documento.
  destruct (15 <=? length (so_digitos nome)) eqn:E15.
  - apply Nat.leb_le in E15. exists (fatia 6 15 (so_digitos nome)).
    split; [reflexivity|]. split; [apply substring_decomp|].
    split; [rewrite length_fatia; lia|reflexivity].
  - apply Nat.leb_gt in E15.
    destruct (9 <=? length (so_digitos nome)) eqn:E9.
    + apply Nat.leb_le in E9.
      exists (substring (length (so_digitos nome) - 9) 9 (so_digitos nome)).
      split; [reflexivity|]. split; [apply substring_decomp|].
      split; [|lia].
      rewrite <- chars_length, chars_substring, length_firstn, length_skipn.
      rewrite chars_length. lia.
    + apply Nat.leb_gt in E9. exists (so_digitos nome).
      split; [reflexivity|]. split; [|split; lia].
      exists "", "". now rewrite append_vazio.
Qed.

(** X13. The number a row of the table shows, typed back in the search
    field, finds the file of the row again: in literal mode, where the
    number is formatted first, exactly when the name has nine digits or
    more; in containment mode, where it is sent as typed, exactly when
    the name has a digit. *)
Theorem numero_mostrado_reencontra (nome : string) :
  (casa true (formatar_numero_boleto (_extrair_numero_documento nome)) nome
   = true
   <-> 9 <= length (so_digitos nome)) /\
  (casa false (_extrair_numero_documento nome) nome = true
   <-> so_digitos nome <> "").
Proof.
  pose proof (DownloadFacts.extrair_numero_documento_decimal nome) as Hd.
  destruct (formatar_decimal _ Hd) as (Ef & Es & En).
  destruct (extrair_de nome) as (x & Ex & (a & b & Eab) & Lx & X15).
  assert (Ee : so_digitos (_extrair_numero_documento nome)
               = _extrair_numero_documento nome)
    by (apply filtra_todos, Hd).
  unfold casa. rewrite Es, Ee.
  apply String.eqb_neq in En. rewrite En.
  destruct Hd as [Hne _]. apply String.eqb_neq in Hne. rewrite Hne.
  cbn [negb andb]. unfold corresponde. split.
  - destruct (le_lt_dec 9 (length (so_digitos nome))) as [L|L].
    + assert (Hx : x <> "") by (intros ->; cbn [length] in Lx; lia).
      assert (F : formatar_numero_boleto (_extrair_numero_documento nome)
                  = x).
      { rewrite Ef, Ex. rewrite (sem_zeros_decomp x Hx) at 3.
        do 2 f_equal. lia. }
      rewrite F. split; [intros _; exact L|intros _].
      destruct (15 <=? length (so_digitos nome)) eqn:E15.
      * apply Nat.leb_le in E15. rewrite (X15 E15). apply String.eqb_refl.
      * rewrite Eab. apply contem_app.
    + replace (15 <=? length (so_digitos nome)) with false
        by (symmetry; apply Nat.leb_gt; lia).
      split; [|lia]. intros C. apply contem_comprimento in C.
      rewrite Ef, length_app, length_zeros in C. lia.
  - destruct (so_digitos nome) as [|c d] eqn:D.
    + cbn [length] in Lx. rewrite Nat.min_0_r in Lx.
      destruct x; [|discriminate]. rewrite Ex.
      split; [discriminate|congruence].
    + split; [discriminate|intros _].
      assert (Hx : x <> "") by (intros ->; cbn [length] in Lx; lia).
      rewrite Eab, (sem_zeros_decomp x Hx), <- Ex, append_assoc,
        <- append_assoc.
      apply contem_app.
Qed.

End NumeroFacts.

(* ================================================================= *)
(** ** The date mask *)

Module MascaraFacts.
Import Mascara.

Lemma isdigit_nao_barra (c : ascii) :
  str_isdigit c = true -> e_barra c = false.
Proof.
  unfold e_barra. destruct (Ascii.eqb c "/") eqn:E; [|reflexivity].
  apply Ascii.eqb_eq in E. subst c. discriminate.
Qed.

Lemma filtra_length_le (p q : ascii -> bool) (s : string) :
  (forall c, p c = true -> q c = true) ->
  length (filtra p s) <= length (filtra q s).
Proof.
  intros H. induction s as [|c s IH]; simpl; [lia|].
  destruct (p c) eqn:P.
  - rewrite (H c P). simpl. lia.
  - destruct (q c); simpl; lia.
Qed.

Lemma apenas_numeros_length (texto : string) :
  length (apenas_numeros texto) <= 8 /\
  length (apenas_numeros texto) <= length (so_isdigit texto).
Proof.
  unfold apenas_numeros.
  rewrite <- !chars_length, chars_fatia, length_firstn, length_skipn. lia.
Qed.

Lemma In_firstn {A} (n : nat) (l : list A) (x : A) :
  In x (firstn n l) -> In x l.
Proof.
  intros H. rewrite <- (firstn_skipn n l). apply in_or_app. now left.
Qed.

Lemma apenas_numeros_isdigit (texto : string) :
  forallb str_isdigit (chars (apenas_numeros texto)) = true.
Proof.
  unfold apenas_numeros, so_isdigit.
  rewrite chars_fatia, chars_filtra. apply forallb_forall. intros c H.
  apply In_firstn in H. cbn [skipn] in H. apply filter_In in H. tauto.
Qed.

Lemma filtra_inserir_barras (i : nat) (s : string) :
  forallb str_isdigit (chars s) = true ->
  so_isdigit (inserir_barras i s) = s.
Proof.
  revert i. induction s as [|c s IH]; intros i; [reflexivity|].
  cbn [chars list_ascii_of_string forallb]. intros H.
  apply andb_true_iff in H. destruct H as [Hc Hs].
  specialize (IH (S i) Hs). unfold so_isdigit in *.
  cbn [inserir_barras].
  destruct ((i =? 2) || (i =? 4)); cbn [filtra];
    change (str_isdigit "/") with false; cbv iota;
    now rewrite Hc, IH.
Qed.

Lemma inserir_barras_fim (i : nat) (s : string) :
  4 < i -> inserir_barras i s = s.
Proof.
  revert i. induction s as [|c s IH]; intros i Hi; [reflexivity|].
  cbn [inserir_barras].
  replace (i =? 2) with false by (symmetry; apply Nat.eqb_neq; lia).
  replace (i =? 4) with false by (symmetry; apply Nat.eqb_neq; lia).
  simpl. now rewrite IH by lia.
Qed.

Lemma inserir_barras_forma (s : string) :
  length s <= 8 ->
  inserir_barras 0 s
  = (fatia 0 2 s
     ++ (if (2 <? length s)%nat then "/" ++ fatia 2 4 s else "")
     ++ (if (4 <? length s)%nat then "/" ++ fatia 4 8 s else ""))%string.
Proof.
  intros L.
  destruct s as [|c0 [|c1 [|c2 [|c3 [|c4 r]]]]]; try reflexivity.
  cbn [length] in L.
  cbn. rewrite (inserir_barras_fim 5 r) by lia.
  do 7 f_equal. symmetry. apply (fatia_tudo 3 r). lia.
Qed.

(** X14. The mask writes the first eight digits of the field as
    DD/MM/AAAA: two digits, a slash and two digits once there is a
    third, a slash and up to four digits once there is a fifth, at most
    ten characters in all. The digits of the masked text are the digits
    it was made from, so that a masked text is left as it is by the
    mask, wherever the cursor is. *)
Theorem mascara_forma_e_estabilidade (texto : string) :
  formatado texto
  = (fatia 0 2 (apenas_numeros texto)
     ++ (if (2 <? length (apenas_numeros texto))%nat
         then "/" ++ fatia 2 4 (apenas_numeros texto) else "")
     ++ (if (4 <? length (apenas_numeros texto))%nat
         then "/" ++ fatia 4 8 (apenas_numeros texto) else ""))%string /\
  length (formatado texto) <= 10 /\
  so_isdigit (formatado texto) = apenas_numeros texto /\
  (forall cursor_pos,
     aplicar_mascara_data (formatado texto) cursor_pos = None).
Proof.
  destruct (apenas_numeros_length texto) as [L8 _].
  pose proof (inserir_barras_forma _ L8) as F.
  assert (D : so_isdigit (formatado texto) = apenas_numeros texto)
    by apply filtra_inserir_barras, apenas_numeros_isdigit.
  split; [exact F|]. split; [|split; [exact D|]].
  - unfold formatado. rewrite F, !length_app.
    assert (L2 : length (fatia 0 2 (apenas_numeros texto)) <= 2)
      by (rewrite <- chars_length, chars_fatia, length_firstn; lia).
    assert (L4 : length (fatia 2 4 (apenas_numeros texto)) <= 2)
      by (rewrite <- chars_length, chars_fatia, length_firstn; lia).
    assert (L6 : length (fatia 4 8 (apenas_numeros texto)) <= 4)
      by (rewrite <- chars_length, chars_fatia, length_firstn; lia).
    destruct (2 <? length (apenas_numeros texto)),
             (4 <? length (apenas_numeros texto));
      cbn [length append]; rewrite ?length_app; cbn [length]; lia.
  - intros cursor_pos. unfold aplicar_mascara_data.
    assert (E : formatado (formatado texto) = formatado texto).
    { unfold formatado at 1. unfold apenas_numeros at 1.
      rewrite D. now rewrite fatia_tudo by exact L8. }
    now rewrite E, String.eqb_refl.
Qed.

Lemma sem_ramo_digitou (texto : string) :
  (length (sem_barras texto) <? length (apenas_numeros texto)) = false.
Proof.
  apply Nat.ltb_ge. destruct (apenas_numeros_length texto) as [_ L].
  etransitivity; [exact L|].
  apply filtra_length_le. intros c H.
  now rewrite (isdigit_nao_barra c H).
Qed.

(** X15. The first way of placing the cursor, for a field with more
    digits kept than characters other than slashes, is never taken:
    whenever the mask rewrites the field, the cursor goes to its old
    position, cut to the new length, moved right by the number of
    slashes that the new text has more than the old one before it. *)
Theorem cursor_sem_ramo_digitou (texto : string) (cursor_pos : nat) :
  ramo_do_cursor texto cursor_pos <> Digitou /\
  aplicar_mascara_data texto cursor_pos
  = if String.eqb texto (formatado texto) then None
    else
      let nova_pos := Nat.min cursor_pos (length (formatado texto)) in
      Some (formatado texto,
            nova_pos
            + (contar_barras (fatia 0 nova_pos (formatado texto))
               - contar_barras (fatia 0 cursor_pos texto))).
Proof.
  unfold aplicar_mascara_data, ramo_do_cursor.
  rewrite sem_ramo_digitou. cbv zeta.
  destruct (contar_barras (fatia 0 cursor_pos texto)
            <? contar_barras
                 (fatia 0 (Nat.min cursor_pos (length (formatado texto)))
                        (formatado texto))) eqn:E.
  - split; [discriminate|reflexivity].
  - split; [discriminate|]. apply Nat.ltb_ge in E.
    destruct (String.eqb texto (formatado texto)); [reflexivity|].
    do 2 f_equal. lia.
Qed.

End MascaraFacts.

(* ================================================================= *)
(** ** The allowed networks *)

Module SegurancaFacts.
Import Seguranca.

Lemma lstrip_cabeca (s : string) :
  lstrip s = "" \/ exists c r, lstrip s = String c r /\ isspace c = false.
Proof.
  induction s as [|c s IH]; [now left|].
  cbn [lstrip]. destruct (isspace c) eqn:E; [exact IH|].
  right. now exists c, s.
Qed.

Lemma rstrip_cons (c : ascii) (r : string) :
  rstrip (String c r)
  = match rstrip r with
    | EmptyString => if isspace c then EmptyString else String c EmptyString
    | String _ _ => String c (rstrip r)
    end.
Proof. cbn [rstrip]. now destruct (rstrip r). Qed.

Lemma rstrip_idem (s : string) : rstrip (rstrip s) = rstrip s.
Proof.
  induction s as [|c s IH]; [reflexivity|].
  rewrite rstrip_cons. destruct (rstrip s) as [|x r'] eqn:E.
  - destruct (isspace c) eqn:C; [reflexivity|].
    rewrite rstrip_cons. cbn [rstrip]. now rewrite C.
  - rewrite rstrip_cons, IH. reflexivity.
Qed.

Lemma rstrip_cabeca (c : ascii) (r : string) :
  isspace c = false -> exists r', rstrip (String c r) = String c r'.
Proof.
  intros C. rewrite rstrip_cons, C. destruct (rstrip r); eauto.
Qed.

Lemma strip_idem (s : string) : strip (strip s) = strip s.
Proof.
  unfold strip. destruct (lstrip_cabeca s) as [->|(c & r & -> & C)];
    [reflexivity|].
  destruct (rstrip_cabeca c r C) as [r' E]. rewrite E.
  cbn [lstrip]. rewrite C, <- E. apply rstrip_idem.
Qed.

Lemma In_lstrip (s : string) (c : ascii) :
  In c (chars (lstrip s)) -> In c (chars s).
Proof.
  induction s as [|x s IH]; [auto|]. cbn [lstrip].
  destruct (isspace x); [|auto]. intros H. right. now apply IH.
Qed.

Lemma In_rstrip (s : string) (c : ascii) :
  In c (chars (rstrip s)) -> In c (chars s).
Proof.
  induction s as [|x s IH]; [auto|]. rewrite rstrip_cons.
  destruct (rstrip s) as [|y r].
  - destruct (isspace x); simpl; tauto.
  - intros [H|H]; [now left|right; now apply IH].
Qed.

Lemma In_strip (s : string) (c : ascii) :
  In c (chars (strip s)) -> In c (chars s).
Proof. intros H. now apply In_lstrip, In_rstrip. Qed.

Lemma lstrip_mantem (s : string) (c : ascii) :
  In c (chars s) -> isspace c = false -> In c (chars (lstrip s)).
Proof.
  intros H C. induction s as [|x s IH]; [auto|]. cbn [lstrip].
  destruct (isspace x) eqn:X; [|exact H].
  destruct H as [->|H]; [congruence|now apply IH].
Qed.

Lemma rstrip_mantem (s : string) (c : ascii) :
  In c (chars s) -> isspace c = false -> In c (chars (rstrip s)).
Proof.
  intros H C. induction s as [|x s IH]; [auto|]. rewrite rstrip_cons.
  destruct H as [->|H].
  - rewrite C. destruct (rstrip s); simpl; auto.
  - specialize (IH H). destruct (rstrip s) as [|y r]; [destruct IH|].
    now right.
Qed.

Lemma strip_mantem (s : string) (c : ascii) :
  In c (chars s) -> isspace c = false -> In c (chars (strip s)).
Proof. intros H C. now apply rstrip_mantem; [apply lstrip_mantem|]. Qed.

Lemma strip_vazio (s : string) :
  strip s = "" <-> forallb isspace (chars s) = true.
Proof.
  split.
  - intros E. apply forallb_forall. intros c H.
    destruct (isspace c) eqn:C; [reflexivity|].
    pose proof (strip_mantem s c H C) as K. now rewrite E in K.
  - intros H. unfold strip.
    assert (L : lstrip s = "").
    { induction s as [|x s IH]; [reflexivity|].
      simpl in H. apply andb_true_iff in H. destruct H as [X H].
      cbn [lstrip]. rewrite X. now apply IH. }
    now rewrite L.
Qed.

Lemma filter_nenhum {A} (f : A -> bool) (l : list A) :
  (forall x, In x l -> f x = false) -> filter f l = [].
Proof.
  induction l as [|x l IH]; intros H; simpl; [reflexivity|].
  rewrite (H x) by (simpl; auto). apply IH.
  intros y Hy. apply H. simpl. auto.
Qed.

Lemma split_virgula_sem_virgula (s p : string) :
  In p (split_virgula s) -> ~ In ","%char (chars p).
Proof.
  revert p. induction s as [|x s IH]; intros p.
  - intros [<-|[]] [].
  - cbn [split_virgula]. destruct (Ascii.eqb x ",") eqn:X.
    + intros [<-|H]; [intros []|now apply IH].
    + destruct (split_virgula s) as [|q qs].
      * intros [<-|[]] [E|[]]. subst x. discriminate.
      * intros [<-|H].
        -- intros [E|K]; [subst x; discriminate|].
           apply (IH q); simpl; auto.
        -- apply IH. simpl. auto.
Qed.

Lemma split_virgula_chars (s p : string) (c : ascii) :
  In p (split_virgula s) -> In c (chars p) -> In c (chars s).
Proof.
  revert p. induction s as [|x s IH]; intros p.
  - intros [<-|[]] [].
  - cbn [split_virgula]. destruct (Ascii.eqb x ",") eqn:X.
    + intros [<-|H]; [intros []|]. intros K. right. now apply (IH p).
    + destruct (split_virgula s) as [|q qs].
      * intros [<-|[]] [E|[]]. now left.
      * intros [<-|H].
        -- intros [E|K]; [now left|]. right. apply (IH q); simpl; auto.
        -- intros K. right. apply (IH p); simpl; auto.
Qed.

Lemma split_virgula_cobre (s : string) (c : ascii) :
  In c (chars s) -> c <> ","%char ->
  exists p, In p (split_virgula s) /\ In c (chars p).
Proof.
  intros H N. induction s as [|x s IH]; [destruct H|].
  cbn [split_virgula]. destruct (Ascii.eqb x ",") eqn:X.
  - apply Ascii.eqb_eq in X. subst x.
    destruct H as [E|H]; [congruence|].
    destruct (IH H) as (p & Hp & Hc). exists p. simpl. auto.
  - destruct H as [->|H].
    + destruct (split_virgula s) as [|q qs].
      * exists (String c ""). simpl. auto.
      * exists (String c q). simpl. auto.
    + destruct (IH H) as (p & Hp & Hc).
      destruct (split_virgula s) as [|q qs]; [destruct Hp|].
      destruct Hp as [<-|Hp].
      * exists (String x q). simpl. auto.
      * exists p. simpl. auto.
Qed.

(** X16. Whatever the configuration holds, every allowed prefix that
    [carregar_faixas_ip] returns is a non-empty text without blanks at
    its ends and without a comma. *)
Theorem faixas_carregadas_limpas (l : leitura) :
  Forall (fun f => f <> "" /\ strip f = f /\ ~ In ","%char (chars f))
         (carregar_faixas_ip l).
Proof.
  assert (D : Forall (fun f => f <> "" /\ strip f = f
                               /\ ~ In ","%char (chars f))
                     faixa_padrao).
  { repeat constructor; [discriminate|].
    cbv. intuition discriminate. }
  destruct l as [| | |valor]; try exact D. cbn [carregar_faixas_ip].
  destruct (negb (String.eqb (strip valor) "")); [|exact D].
  unfold faixas_de. apply Forall_forall. intros f Hf.
  apply in_map_iff in Hf. destruct Hf as (p & <- & Hp).
  apply filter_In in Hp. destruct Hp as [Hp Hn].
  apply negb_true_iff, String.eqb_neq in Hn.
  split; [exact Hn|]. split; [apply strip_idem|].
  intros C. apply In_strip in C.
  exact (split_virgula_sem_virgula _ _ Hp C).
Qed.

(** X17. The list of allowed prefixes is empty exactly when the option
    is present, is not blank, and holds nothing but commas and blanks;
    an empty list allows every address, also when no address can be
    found. *)
Theorem faixas_vazias_liberam (l : leitura) :
  (carregar_faixas_ip l = [] <->
   exists valor,
     l = Opcao valor /\ strip valor <> "" /\
     forallb (fun c => Ascii.eqb c "," || isspace c) (chars valor) = true) /\
  (forall ips ip_local, verificar_ip_permitido [] ips ip_local = true).
Proof.
  split; [|reflexivity]. split.
  - destruct l as [| | |valor]; try discriminate. cbn [carregar_faixas_ip].
    destruct (String.eqb (strip valor) "") eqn:V; [discriminate|].
    apply String.eqb_neq in V. cbn [negb]. intros E.
    exists valor. split; [reflexivity|]. split; [exact V|].
    apply forallb_forall. intros c Hc.
    destruct (Ascii.eqb c ",") eqn:C; [reflexivity|].
    destruct (isspace c) eqn:S; [reflexivity|]. exfalso.
    apply Ascii.eqb_neq in C.
    destruct (split_virgula_cobre (strip valor) c (strip_mantem _ _ Hc S) C)
      as (p & Hp & Hcp).
    assert (K : In (strip p) (faixas_de (strip valor))).
    { unfold faixas_de. apply in_map, filter_In. split; [exact Hp|].
      apply negb_true_iff, String.eqb_neq. intros Z.
      pose proof (strip_mantem p c Hcp S) as M. now rewrite Z in M. }
    now rewrite E in K.
  - intros (valor & -> & V & H). cbn [carregar_faixas_ip].
    apply String.eqb_neq in V. rewrite V. cbn [negb].
    unfold faixas_de.
    rewrite filter_nenhum; [reflexivity|].
    intros p Hp. apply negb_false_iff, String.eqb_eq, strip_vazio.
    apply forallb_forall. intros c Hc.
    rewrite forallb_forall in H.
    pose proof (H c (In_strip _ _ (split_virgula_chars _ _ _ Hp Hc))) as K.
    apply orb_true_iff in K. destruct K as [K|K]; [|exact K].
    apply Ascii.eqb_eq in K. subst c.
    now destruct (split_virgula_sem_virgula _ _ Hp).
Qed.

Lemma faixas_vazias_liberam_witness :
  carregar_faixas_ip (Opcao " , ,") = [].
Proof.
  apply (proj2 (proj1 (faixas_vazias_liberam (Opcao " , ,")))).
  exists " , ,". split; [reflexivity|]. split; [discriminate|reflexivity].
Defined.

Lemma em_alguma_faixa_incl (f1 f2 : list string) (ip : string) :
  incl f1 f2 -> em_alguma_faixa f1 ip = true ->
  em_alguma_faixa f2 ip = true.
Proof.
  unfold em_alguma_faixa. intros I H. apply existsb_exists in H.
  destruct H as (x & Hx & P). apply existsb_exists. exists x. auto.
Qed.

(** X18. With a list of allowed prefixes that is not empty, more
    prefixes never take back an access that was granted; and when the
    addresses of the host cannot be found the access is refused
    without the address of the outgoing socket being asked for. *)
Theorem verificar_ip_monotono (f1 f2 : list string)
    (ips : option (list string)) (ip_local : option string) :
  f1 <> [] -> incl f1 f2 ->
  (verificar_ip_permitido f1 ips ip_local = true ->
   verificar_ip_permitido f2 ips ip_local = true) /\
  verificar_ip_permitido f2 None ip_local = false.
Proof.
  intros N I. destruct f1 as [|a f1]; [congruence|].
  destruct f2 as [|b f2]; [destruct (I a); simpl; auto|].
  split; [|reflexivity]. cbn [verificar_ip_permitido].
  destruct ips as [l|]; [|discriminate].
  destruct (existsb (em_alguma_faixa (a :: f1)) l) eqn:E.
  - intros _. apply existsb_exists in E. destruct E as (x & Hx & P).
    replace (existsb (em_alguma_faixa (b :: f2)) l) with true; [reflexivity|].
    symmetry. apply existsb_exists. exists x.
    split; [exact Hx|]. now apply (em_alguma_faixa_incl (a :: f1)).
  - destruct ip_local as [ip|]; [|discriminate]. intros H.
    rewrite (em_alguma_faixa_incl _ _ _ I H).
    now destruct (existsb (em_alguma_faixa (b :: f2)) l).
Qed.

Lemma verificar_ip_monotono_witness :
  (verificar_ip_permitido ["10."] (Some ["10.0.0.7"]) None = true ->
   verificar_ip_permitido ["192.168.112."; "10."] (Some ["10.0.0.7"]) None
   = true) /\
  verificar_ip_permitido ["192.168.112."; "10."] None None = false.
Proof.
  apply (verificar_ip_monotono ["10."] ["192.168.112."; "10."]).
  - discriminate.
  - intros x [<-|[]]. simpl. auto.
Defined.

End SegurancaFacts.

(* ================================================================= *)
(** ** TaxDocumentClient: the requests of a retrieval *)

Module NFSeFluxoFacts.
Import NFSeFluxo.

Lemma id_dps_vazio (prefixo numero : string) :
  NFSe.construir_id_dps prefixo numero = "" <-> so_isdigit numero = "".
Proof.
  unfold NFSe.construir_id_dps, NFSe.formatar_numero_nfse.
  destruct (String.eqb (so_isdigit numero) "") eqn:E.
  - apply String.eqb_eq in E. rewrite E. simpl. tauto.
  - apply String.eqb_neq in E.
    pose proof (zfill_nao_vazio 17 _ E) as Hz.
    apply String.eqb_neq in Hz. rewrite Hz. apply String.eqb_neq in Hz.
    split; [|congruence]. intros Hp. exfalso.
    apply (f_equal length) in Hp. rewrite length_app, length_zfill in Hp.
    change (length "") with 0 in Hp. lia.
Qed.

Ltac casos :=
  repeat match goal with
         | |- context [match ?x with _ => _ end] => destruct x eqn:?
         end.

Ltac fecha :=
  cbn [fst snd]; repeat split; intros;
  repeat match goal with
         | H : _ /\ _ |- _ => destruct H
         | H : exists _, _ |- _ => destruct H
         end;
  try discriminate; try congruence; try tauto; auto.

Lemma buscar_chave_acesso_pedidos (c : configuracao) (s : servico)
    (numero : string) :
  snd (fst (buscar_chave_acesso c s numero))
  = NFSe.construir_id_dps (prefixo_iddps c) numero /\
  (snd (buscar_chave_acesso c s numero) = [] \/
   snd (buscar_chave_acesso c s numero)
   = [(endpoint_iddps c
       ++ NFSe.construir_id_dps (prefixo_iddps c) numero)%string]) /\
  (snd (buscar_chave_acesso c s numero) <> [] <->
   so_isdigit numero <> "" /\ endpoint_iddps c <> "" /\ sessao s = None) /\
  (forall chave,
     fst (fst (buscar_chave_acesso c s numero)) = inr chave <->
     so_isdigit numero <> "" /\ endpoint_iddps c <> "" /\ sessao s = None /\
     exists response dados,
       get s (endpoint_iddps c
              ++ NFSe.construir_id_dps (prefixo_iddps c) numero)%string
       = inr response /\
       status_code response = 200 /\ json response = Some dados /\
       dict_get string_dec "chaveAcesso" dados = Some chave).
Proof.
  unfold buscar_chave_acesso.
  destruct (String.eqb (NFSe.construir_id_dps (prefixo_iddps c) numero) "")
    eqn:Ei.
  - apply String.eqb_eq in Ei. rewrite Ei.
    apply id_dps_vazio in Ei. fecha.
  - apply String.eqb_neq in Ei.
    assert (Hd : so_isdigit numero <> "")
      by (intros C; apply Ei, id_dps_vazio, C).
    destruct (String.eqb (endpoint_iddps c) "") eqn:Ee;
      [apply String.eqb_eq in Ee; fecha|].
    apply String.eqb_neq in Ee.
    destruct (sessao s) as [e|]; [fecha|].
    destruct (get s (endpoint_iddps c
                     ++ NFSe.construir_id_dps (prefixo_iddps c) numero)
                    %string) as [[|e|e|e]|response] eqn:G;
      try solve [fecha].
    destruct (status_code response =? 200) eqn:St.
    + apply Nat.eqb_eq in St.
      destruct (json response) as [dados|] eqn:J.
      * destruct (dict_get string_dec "chaveAcesso" dados) as [k|] eqn:K;
          fecha.
        exists response, dados. repeat split; congruence.
      * fecha.
    + apply Nat.eqb_neq in St. casos; fecha.
Qed.

Section ConsultaFacts.
Variable b64decode : string -> option (list Byte.byte).
Variable gzip_read : list Byte.byte -> option (list Byte.byte).
Variable decode_utf8 : list Byte.byte -> option string.

Lemma consultar_nfse_pedidos (c : configuracao) (s : servico)
    (chave : string) :
  (snd (consultar_nfse b64decode gzip_read decode_utf8 c s chave) = [] \/
   snd (consultar_nfse b64decode gzip_read decode_utf8 c s chave)
   = [(endpoint_chave_acesso c ++ chave)%string]) /\
  (snd (consultar_nfse b64decode gzip_read decode_utf8 c s chave) <> [] <->
   chave <> "" /\ endpoint_chave_acesso c <> "" /\ sessao s = None) /\
  (forall xml,
     fst (consultar_nfse b64decode gzip_read decode_utf8 c s chave)
     = inr xml ->
     snd (consultar_nfse b64decode gzip_read decode_utf8 c s chave) <> []).
Proof.
  unfold consultar_nfse.
  destruct (String.eqb chave "") eqn:Ec;
    [apply String.eqb_eq in Ec; fecha|].
  apply String.eqb_neq in Ec.
  destruct (String.eqb (endpoint_chave_acesso c) "") eqn:Ee;
    [apply String.eqb_eq in Ee; fecha|].
  apply String.eqb_neq in Ee.
  destruct (sessao s) as [e|]; [fecha|].
  casos; fecha.
Qed.

(** X19. The requests of [buscar_xml_nfse]. The request for the access
    key, built from the identifier of the number, is sent exactly when
    the number has a digit, the first endpoint is configured and the
    session is there. The request for the document is sent exactly when,
    besides, the first request was answered with status 200 and a JSON
    object whose [chaveAcesso] is not empty, and the second endpoint
    is configured: it goes to that endpoint followed by that very key.
    No other request is sent; a retrieval that succeeds has sent the
    two, and [info] always carries the number and its identifier. *)
Theorem buscar_xml_nfse_pedidos (c : configuracao) (s : servico)
    (numero : string) :
  let id := NFSe.construir_id_dps (prefixo_iddps c) numero in
  let res := buscar_xml_nfse b64decode gzip_read decode_utf8 c s numero in
  let inf := snd (fst res) in
  let pedidos := snd res in
  i_numero_nfse inf = numero /\ i_id_dps inf = id /\
  (pedidos = [] \/
   pedidos = [(endpoint_iddps c ++ id)%string] \/
   pedidos = [(endpoint_iddps c ++ id)%string;
              (endpoint_chave_acesso c ++ i_chave_acesso inf)%string]) /\
  (pedidos <> [] <->
   so_isdigit numero <> "" /\ endpoint_iddps c <> "" /\ sessao s = None) /\
  (List.length pedidos = 2 <->
   so_isdigit numero <> "" /\ endpoint_iddps c <> "" /\ sessao s = None /\
   endpoint_chave_acesso c <> "" /\
   exists response dados chave,
     get s (endpoint_iddps c ++ id)%string = inr response /\
     status_code response = 200 /\ json response = Some dados /\
     dict_get string_dec "chaveAcesso" dados = Some chave /\
     chave <> "") /\
  (List.length pedidos = 2 ->
   i_chave_acesso inf <> "" /\
   fst (fst (buscar_chave_acesso c s numero)) = inr (i_chave_acesso inf)) /\
  (forall xml, fst (fst res) = inr xml -> List.length pedidos = 2).
Proof.
  cbv zeta. unfold buscar_xml_nfse.
  destruct (buscar_chave_acesso_pedidos c s numero) as (A1 & A2 & A3 & A4).
  destruct (buscar_chave_acesso c s numero) as [[r1 id1] p1].
  cbn [fst snd] in *. subst id1.
  destruct r1 as [m|chave].
  - cbn [fst snd i_numero_nfse i_id_dps i_chave_acesso].
    assert (L : List.length p1 <> 2)
      by (destruct A2 as [->| ->]; discriminate).
    split; [reflexivity|]. split; [reflexivity|].
    split; [tauto|]. split; [exact A3|].
    split; [|split; [tauto|discriminate]].
    split; [tauto|].
    intros (H1 & H2 & H3 & _ & r & d & k & G & St & J & K & _).
    assert (X : @inl mensagem string m = inr k).
    { apply A4. repeat split; auto. exists r, d. auto. }
    discriminate.
  - destruct (consultar_nfse_pedidos c s chave) as (B1 & B2 & B3).
    destruct (consultar_nfse b64decode gzip_read decode_utf8 c s chave)
      as [r2 p2].
    cbn [fst snd i_numero_nfse i_id_dps i_chave_acesso] in *.
    destruct (proj1 (A4 chave) eq_refl)
      as (H1 & H2 & H3 & r & d & G & St & J & K).
    assert (P1 : p1 = [(endpoint_iddps c
                        ++ NFSe.construir_id_dps (prefixo_iddps c) numero)
                       %string]).
    { destruct A2 as [E|E]; [|exact E]. exfalso. now apply A3. }
    subst p1. split; [reflexivity|]. split; [reflexivity|].
    split; [destruct B1 as [->| ->]; simpl; auto|].
    split; [split; [auto|discriminate]|].
    assert (C2 : List.length
                   ([(endpoint_iddps c
                      ++ NFSe.construir_id_dps (prefixo_iddps c) numero)
                     %string] ++ p2) = 2 <-> p2 <> [])
      by (destruct B1 as [->| ->]; simpl; split; congruence).
    split; [|split].
    + rewrite C2, B2. split.
      * intros (K1 & K2 & _). repeat split; auto.
        exists r, d, chave. auto.
      * intros (_ & _ & _ & K2 & r' & d' & k' & G' & _ & J' & K' & Kn).
        rewrite G in G'. injection G' as <-.
        rewrite J in J'. injection J' as <-.
        rewrite K in K'. injection K' as <-. auto.
    + rewrite C2, B2. intros (K1 & _). auto.
    + intros xml E. subst r2. apply C2. now apply (B3 xml).
Qed.

End ConsultaFacts.

Section IdaEVoltaFluxo.
Variable b64encode : list Byte.byte -> string.
Variable b64decode : string -> option (list Byte.byte).
Variable gzip_compress : list Byte.byte -> list Byte.byte.
Variable gzip_read : list Byte.byte -> option (list Byte.byte).
Variable encode_utf8 : string -> list Byte.byte.
Variable decode_utf8 : list Byte.byte -> option string.

(** X20. When the decoders undo the encoders and the service answers
    the request for the access key with a key, and the request for the
    document of that key with the document encoded, the retrieval gives
    back the document as it was before the encoding, with the identifier
    and the key in [info], in two requests. *)
Theorem buscar_xml_nfse_ida_e_volta (c : configuracao) (s : servico)
    (numero chave xml : string) (r1 r2 : resposta)
    (d1 d2 : list (string * string)) :
  (forall dados, b64decode (b64encode dados) = Some dados) ->
  (forall dados, gzip_read (gzip_compress dados) = Some dados) ->
  (forall texto, decode_utf8 (encode_utf8 texto) = Some texto) ->
  so_isdigit numero <> "" ->
  endpoint_iddps c <> "" -> endpoint_chave_acesso c <> "" ->
  sessao s = None ->
  get s (endpoint_iddps c
         ++ NFSe.construir_id_dps (prefixo_iddps c) numero)%string
  = inr r1 ->
  status_code r1 = 200 -> json r1 = Some d1 ->
  dict_get string_dec "chaveAcesso" d1 = Some chave -> chave <> "" ->
  get s (endpoint_chave_acesso c ++ chave)%string = inr r2 ->
  status_code r2 = 200 -> json r2 = Some d2 ->
  dict_get string_dec "nfseXmlGZipB64" d2
  = Some (NFSe.codificar_gzip_base64 b64encode gzip_compress encode_utf8
            xml) ->
  buscar_xml_nfse b64decode gzip_read decode_utf8 c s numero
  = (inr xml,
     mkinfo numero (NFSe.construir_id_dps (prefixo_iddps c) numero) chave,
     [(endpoint_iddps c
       ++ NFSe.construir_id_dps (prefixo_iddps c) numero)%string;
      (endpoint_chave_acesso c ++ chave)%string]).
Proof.
  intros Hb Hg Hu Hd He1 He2 Hs G1 S1 J1 K1 Hc G2 S2 J2 K2.
  unfold buscar_xml_nfse, buscar_chave_acesso, consultar_nfse.
  assert (Hi : NFSe.construir_id_dps (prefixo_iddps c) numero <> "")
    by (intros C; apply Hd, (id_dps_vazio (prefixo_iddps c)), C).
  apply String.eqb_neq in Hi, He1, He2, Hc.
  rewrite Hi, He1, Hs, G1, S1, J1, K1. cbn [Nat.eqb].
  rewrite Hc, He2, G2, S2, J2, K2. cbn [Nat.eqb].
  unfold NFSe._decodificar_gzip_base64, NFSe.codificar_gzip_base64.
  now rewrite Hb, Hg, Hu.
Qed.

End IdaEVoltaFluxo.

Lemma buscar_xml_nfse_ida_e_volta_witness :
  let c := mkconfig "https://s/dps/" "https://s/nfse/" "https://s/danfse/"
                    "DPS" "/tmp" in
  let r1 := mkresposta 200 (Some [("chaveAcesso", "K29")]) "" "" [] in
  let r2 :=
    mkresposta 200
      (Some [("nfseXmlGZipB64",
              NFSe.codificar_gzip_base64 Codecs.b64encode Codecs.armazenar
                Codecs.encode_utf8 "<NFSe/>")]) "" "" [] in
  let s :=
    mkservico None
      (fun url =>
         if String.eqb url "https://s/dps/DPS00000000000000029"
         then inr r1 else inr r2) in
  buscar_xml_nfse Codecs.b64decode Codecs.ler_armazenado Codecs.decode_utf8
                  c s "29"
  = (inr "<NFSe/>",
     mkinfo "29" (NFSe.construir_id_dps (prefixo_iddps c) "29") "K29",
     [(endpoint_iddps c
       ++ NFSe.construir_id_dps (prefixo_iddps c) "29")%string;
      (endpoint_chave_acesso c ++ "K29")%string]).
Proof.
  intros c r1 r2 s.
  apply (buscar_xml_nfse_ida_e_volta
           Codecs.b64encode Codecs.b64decode
           Codecs.armazenar Codecs.ler_armazenado
           Codecs.encode_utf8 Codecs.decode_utf8
           c s "29" "K29" "<NFSe/>" r1 r2
           [("chaveAcesso", "K29")]
           [("nfseXmlGZipB64",
             NFSe.codificar_gzip_base64 Codecs.b64encode Codecs.armazenar
               Codecs.encode_utf8 "<NFSe/>")]).
  - exact CodecsFacts.b64decode_encode.
  - exact CodecsFacts.ler_armazenar.
  - exact CodecsFacts.decode_encode_utf8.
  - discriminate.
  - discriminate.
  - discriminate.
  - reflexivity.
  - reflexivity.
  - reflexivity.
  - reflexivity.
  - reflexivity.
  - discriminate.
  - reflexivity.
  - reflexivity.
  - reflexivity.
  - vm_compute. reflexivity.
Defined.

Section PDFFacts.
Variable os_path_join : string -> string -> string.

(** X21. [baixar_pdf_nfse] reports success exactly when the answer has
    status 200, is announced or recognised as a PDF, and the file was
    written in full: the path reported is then the path of the file,
    named after the number, in the folder asked for or, without one, in
    the configured folder, and the file holds the body of the answer.
    No file is created for any other answer. A write that fails once
    the file is created is reported as a failure and leaves the file
    behind with what had been written; a failure before the file is
    created leaves nothing. One request is sent in each of these
    cases. *)
Theorem baixar_pdf_nfse_arquivo (c : configuracao) (s : servico)
    (w : escrita) (chave numero pasta_destino : string) :
  let res := baixar_pdf_nfse os_path_join c s w chave numero pasta_destino in
  let destino :=
    os_path_join
      (if String.eqb pasta_destino "" then pasta_download c
       else pasta_destino)
      ("NFSe_" ++ numero ++ ".pdf")%string in
  let pdf_recebido response :=
    chave <> "" /\ endpoint_pdf c <> "" /\ sessao s = None /\
    get s (endpoint_pdf c ++ chave)%string = inr response /\
    status_code response = 200 /\ e_pdf response = true in
  (forall caminho,
     fst (fst res) = inr caminho <->
     caminho = destino /\ w = Escrito /\
     exists response, pdf_recebido response) /\
  (forall caminho conteudo,
     snd res = Some (caminho, conteudo) <->
     caminho = destino /\
     exists response,
       pdf_recebido response /\
       ((w = Escrito /\ conteudo = content response) \/
        (exists e, w = FalhaAoEscrever e conteudo))) /\
  (forall e deixado,
     w = FalhaAoEscrever e deixado ->
     forall response, pdf_recebido response ->
     fst (fst res) = inl (mensagem_escrita e) /\
     snd res = Some (destino, deixado)) /\
  (snd res <> None -> snd (fst res) = [(endpoint_pdf c ++ chave)%string]).
Proof.
  cbv zeta. unfold baixar_pdf_nfse.
  destruct (String.eqb chave "") eqn:Ec;
    [apply String.eqb_eq in Ec; fecha|].
  apply String.eqb_neq in Ec.
  destruct (String.eqb (endpoint_pdf c) "") eqn:Ee;
    [apply String.eqb_eq in Ee; fecha|].
  apply String.eqb_neq in Ee.
  destruct (sessao s); [fecha|].
  destruct (get s (endpoint_pdf c ++ chave)%string) as [[|e|e|e]|response];
    try solve [fecha].
  assert (P : forall r, @inr excecao_http resposta response = inr r ->
                        r = response) by (intros r [= <-]; reflexivity).
  destruct (status_code response =? 200) eqn:St.
  - apply Nat.eqb_eq in St.
    destruct (e_pdf response) eqn:Ep.
    + assert (D : (if negb (String.eqb pasta_destino "") then pasta_destino
                   else pasta_download c)
                  = (if String.eqb pasta_destino "" then pasta_download c
                     else pasta_destino))
        by (now destruct (String.eqb pasta_destino "")).
      rewrite D.
      destruct w as [|e|e deixado]; cbn [fst snd];
        repeat split; intros;
        repeat match goal with
               | H : _ /\ _ |- _ => destruct H
               | H : exists _, _ |- _ => destruct H
               | H : _ \/ _ |- _ => destruct H
               | H : inr _ = inr _ |- _ => apply P in H; subst
               end;
        try discriminate; try congruence; eauto 10.
      * exists response. repeat split; auto. left. split; congruence.
      * exists response. repeat split; auto. right.
        exists e. congruence.
    + fecha.
      all: match goal with
           | H : inr _ = inr _ |- _ => apply P in H; subst; congruence
           end.
  - apply Nat.eqb_neq in St.
    casos; fecha;
      match goal with
      | H : inr _ = inr _ |- _ => apply P in H; subst; congruence
      end.
Qed.

End PDFFacts.

End NFSeFluxoFacts.

(* ================================================================= *)
(** ** The report of a batch *)

Module LoteMais.
Import Download.

Section Contas.
Variable os_path_join : string -> string -> string.
Variable os_path_basename : string -> string.
Variable pasta_download : string.

Lemma tentativas_contas (rede : nat -> chamada_rede) (i : nat)
    (arquivos : list (string * string * string)) :
  List.length
    (baixados (tentativas os_path_join os_path_basename pasta_download
                          rede i arquivos))
  + List.length
      (falhas (tentativas os_path_join os_path_basename pasta_download
                          rede i arquivos))
  = List.length arquivos.
Proof.
  revert i. induction arquivos as [|[[c n] t] arquivos IH]; intros i;
    [reflexivity|].
  rewrite DownloadFacts.tentativas_cons.
  unfold baixados, falhas in *. cbn [flat_map snd fst].
  rewrite !List.length_app.
  specialize (IH (S i)).
  destruct (baixar_boleto os_path_join os_path_basename pasta_download
                          (rede i) c n); simpl; lia.
Qed.

Lemma sem_callback_remover (l : list string) :
  Forall (fun e => match e with
                   | Callback _ _ _ _ _ => False
                   | _ => True
                   end) (map Remover l).
Proof. induction l; simpl; constructor; auto. Qed.

(** X22. Every file of a batch is either fetched or reported as an
    error. The worker reports once, as its last effect. It reports
    success exactly when a file was fetched and the archive was written
    whole: the archive holds every file fetched under its base name,
    the files fetched are then removed, and the two counts add up to
    the number of files asked for. It reports failure without removing
    any file and without a finished archive: with every file as an
    error when none was fetched, nothing touching the disk; with the
    single error of the archive and nothing on the disk when the
    archive cannot be created; and with the same single error when
    writing fails after the creation, the unfinished archive staying on
    the disk with the members added before the failure. In both
    failures of the archive the files fetched stay in place and the
    errors of the other files are dropped. *)
Theorem baixar_thread_contas (rede : nat -> chamada_rede)
    (r_zip : resultado_zip) (data_atual : datetime)
    (arquivos : list (string * string * string)) (identificador : string) :
  let ts :=
    tentativas os_path_join os_path_basename pasta_download rede 1
               arquivos in
  let membros := map (fun a => (a, os_path_basename a)) (baixados ts) in
  List.length (baixados ts) + List.length (falhas ts)
  = List.length arquivos /\
  exists antes sucesso zip_path qtd_ok qtd_err erros,
    baixar_thread os_path_join os_path_basename pasta_download
                  rede r_zip data_atual arquivos identificador
    = antes ++ [Callback sucesso zip_path qtd_ok qtd_err erros] /\
    Forall (fun e => match e with
                     | Callback _ _ _ _ _ => False
                     | _ => True
                     end) antes /\
    (sucesso = true <-> baixados ts <> [] /\ r_zip = ZipEscrito) /\
    (sucesso = true ->
     antes = EscreverZip zip_path membros :: map Remover (baixados ts) /\
     qtd_ok = List.length (baixados ts) /\
     qtd_err = List.length (falhas ts) /\ erros = falhas ts /\
     qtd_ok + qtd_err = List.length arquivos) /\
    (sucesso = false ->
     zip_path = "" /\ qtd_ok = 0 /\
     ((baixados ts = [] /\ antes = [] /\ erros = falhas ts /\
       qtd_err = List.length arquivos) \/
      (exists e, baixados ts <> [] /\ r_zip = ZipFalhaAoAbrir e /\
                 antes = [] /\ erros = [ErroGeral e] /\ qtd_err = 1) \/
      (exists e escritos deixado,
         baixados ts <> [] /\ r_zip = ZipFalhaAoEscrever e escritos /\
         antes = [DeixarZip deixado (firstn escritos membros)] /\
         erros = [ErroGeral e] /\ qtd_err = 1))).
Proof.
  cbv zeta.
  pose proof (tentativas_contas rede 1 arquivos) as T.
  split; [exact T|].
  unfold baixar_thread.
  rewrite (DownloadFacts.baixar_todos_correto
             os_path_join os_path_basename pasta_download).
  cbn [app].
  destruct (baixados (tentativas os_path_join os_path_basename
                                 pasta_download rede 1 arquivos))
    as [|b bs] eqn:B.
  - exists [], false, "", 0,
      (List.length
         (falhas (tentativas os_path_join os_path_basename pasta_download
                             rede 1 arquivos))),
      (falhas (tentativas os_path_join os_path_basename pasta_download
                          rede 1 arquivos)).
    split; [reflexivity|]. split; [constructor|].
    split; [split; [discriminate|intros [H _]; congruence]|].
    split; [discriminate|]. intros _.
    repeat split. left. repeat split. simpl in T. lia.
  - destruct r_zip as [|e|e escritos].
    + eexists (EscreverZip _ _ :: map Remover (b :: bs)), true, _, _, _, _.
      split; [reflexivity|].
      split; [constructor; [exact I|apply sem_callback_remover]|].
      split; [split; [intros _; split; [discriminate|reflexivity]
                     |reflexivity]|].
      split; [|discriminate]. intros _. repeat split. exact T.
    + exists [], false, "", 0, 1, [ErroGeral e].
      split; [reflexivity|]. split; [constructor|].
      split; [split; [discriminate|intros [_ H]; discriminate]|].
      split; [discriminate|]. intros _.
      repeat split. right. left. exists e. repeat split. discriminate.
    + eexists [DeixarZip _ _], false, "", 0, 1, [ErroGeral e].
      split; [reflexivity|]. split; [repeat constructor|].
      split; [split; [discriminate|intros [_ H]; discriminate]|].
      split; [discriminate|]. intros _.
      repeat split. right. right. eexists e, escritos, _.
      repeat split. discriminate.
Qed.

End Contas.

End LoteMais.

(* ================================================================= *)
(** ** The search in the two directories *)

Module BuscaFacts.

Lemma buscar_em_diretorio_In (conexao_ok : bool)
    (listagem : option (list arquivo)) (numero_limpo : string)
    (literal : bool) (t : string) (h : hit) :
  In h (_buscar_em_diretorio conexao_ok listagem numero_limpo literal t) <->
  conexao_ok = true /\ t = tipo h /\
  corresponde literal numero_limpo (nome h) = true /\
  exists arquivos,
    listagem = Some arquivos /\
    In (caminho h, nome h, data_mod h) arquivos.
Proof.
  unfold _buscar_em_diretorio.
  destruct conexao_ok; cbn [negb];
    [|split; [intros []|intros [H _]; discriminate]].
  destruct listagem as [arquivos|].
  - rewrite filtrar_arquivos_In. split.
    + intros (H1 & H2 & H3). eauto 6.
    + intros (_ & H2 & H3 & arqs & [= <-] & H4). auto.
  - split; [intros []|]. intros (_ & _ & _ & arqs & H & _). discriminate.
Qed.

(** X23. The hits of [buscar_boleto_e_nf] are exactly the files of the
    listing of the invoice directory and, when a directory of tax
    documents is configured, of its listing, whose names match the
    number; each is typed by the directory it was found in, and the
    invoices come before the tax documents. Without a connection, for a
    number without a digit, or for a directory that cannot be listed,
    nothing is found there. *)
Theorem buscar_boleto_e_nf_exato (c0 c1 c2 : bool)
    (listar : string -> option (list arquivo))
    (diretorio_remoto diretorio_remoto_nfs numero : string)
    (literal : bool) :
  (forall h,
     In h (buscar_boleto_e_nf c0 c1 c2 listar diretorio_remoto
                              diretorio_remoto_nfs numero literal) <->
     c0 = true /\ casa literal numero (nome h) = true /\
     ((tipo h = "BOLETO" /\ c1 = true /\
       exists arquivos,
         listar diretorio_remoto = Some arquivos /\
         In (caminho h, nome h, data_mod h) arquivos) \/
      (tipo h = "NF" /\ diretorio_remoto_nfs <> "" /\ c2 = true /\
       exists arquivos,
         listar diretorio_remoto_nfs = Some arquivos /\
         In (caminho h, nome h, data_mod h) arquivos))) /\
  exists boletos nfs,
    buscar_boleto_e_nf c0 c1 c2 listar diretorio_remoto
                       diretorio_remoto_nfs numero literal
    = boletos ++ nfs /\
    Forall (fun h => tipo h = "BOLETO") boletos /\
    Forall (fun h => tipo h = "NF") nfs.
Proof.
  unfold buscar_boleto_e_nf, casa.
  destruct c0; cbn [negb];
    [|split; [intros h; split; [intros []|intros [H _]; discriminate]
             |exists [], []; repeat constructor]].
  destruct (String.eqb (so_digitos numero) "") eqn:E; cbn [negb andb].
  - split; [intros h; split; [intros []|intros (_ & H & _); discriminate]
           |exists [], []; repeat constructor].
  - split.
    + intros h. rewrite in_app_iff, buscar_em_diretorio_In.
      destruct (String.eqb diretorio_remoto_nfs "") eqn:N.
      * apply String.eqb_eq in N. split.
        -- intros [(H1 & H2 & H3 & H4)|[]]. split; [reflexivity|].
           split; [exact H3|]. left. auto.
        -- intros (_ & H & [(H1 & H2 & H3)|(_ & H1 & _)]); [|congruence].
           left. auto.
      * apply String.eqb_neq in N. rewrite buscar_em_diretorio_In. split.
        -- intros [(H1 & H2 & H3 & H4)|(H1 & H2 & H3 & H4)];
             (split; [reflexivity|]); (split; [exact H3|]);
             [left|right]; auto.
        -- intros (_ & H & [(H1 & H2 & H3)|(H1 & _ & H2 & H3)]);
             [left|right]; auto.
    + eexists _, _. split; [reflexivity|]. split.
      * apply Forall_forall. intros h H.
        apply buscar_em_diretorio_In in H. now destruct H as (_ & <- & _).
      * destruct (String.eqb diretorio_remoto_nfs ""); [constructor|].
        apply Forall_forall. intros h H.
        apply buscar_em_diretorio_In in H. now destruct H as (_ & <- & _).
Qed.

End BuscaFacts.
